(** * The etcd StatefulSet component: composer, synchronizer and waiters

    A shallow embedding of [pkg/component/etcd/statefulset/statefulset.go]:
    the pure functions that compose the StatefulSet of an etcd cluster from
    a [Values] snapshot, and the stateful operations [Deploy], [Destroy],
    [Wait] and [WaitCleanup] that talk to the API server through the
    controller-runtime client.

    Conventions.
    - Go maps with string keys are [gmap string string]; a nil map is [∅].
    - Go pointers that the code tests against nil are [option]s.
    - Go's nilable [error] interface is [option error].
    - Dereferencing a nil pointer panics: a pure function that can do so
      returns [option], [None] standing for the panic.
    - Client calls are run against a scripted [Platform]; every call is
      appended to the [calls] log of the [World], and the [now] clock only
      advances while a retry loop sleeps. *)

From Stdlib Require Import ZArith DecimalString.
From stdpp Require Import gmap strings list.

Local Open Scope string_scope.
Local Open Scope list_scope.
Local Open Scope Z_scope.

(** ** Strings *)

Definition nl : string := String (Ascii.ascii_of_nat 10) EmptyString.

(** [strconv.FormatBool]. *)
Definition FormatBool (b : bool) : string := if b then "true" else "false".

(** The [%d] verb of [fmt.Sprintf] on an integer. *)
Definition FormatInt (z : Z) : string := NilZero.string_of_int (Z.to_int z).

(** [strings.HasPrefix s pre]. *)
Definition HasPrefix (s pre : string) : bool := String.prefix pre s.

(** ** Errors *)

Inductive StatusReason :=
| StatusReasonNotFound
| StatusReasonOther (reason : string).

(** Non-nil error values. [StatusError] is what the API machinery returns,
    [wrapError] is what [fmt.Errorf] builds for a format with [%w] (the
    rendered text together with the wrapped error), [retryError] is the
    error of the retry package when its context is done. *)
#[warnings="-register-all"]
Inductive error :=
| StatusError (reason : StatusReason) (message : string)
| errorString (message : string)
| wrapError (msg : string) (wrapped : error)
| retryError (ctxError : error) (err : option error).

(** The [Error()] method. *)
Fixpoint Error (e : error) : string :=
  match e with
  | StatusError _ m => m
  | errorString m => m
  | wrapError m _ => m
  | retryError c None => "retry failed with " +:+ Error c
  | retryError c (Some e') =>
      "retry failed with " +:+ Error c +:+ ", last error: " +:+ Error e'
  end.

(** [apierrors.IsNotFound]; it is called on nil errors too. *)
Definition IsNotFound (err : option error) : bool :=
  match err with
  | Some (StatusError StatusReasonNotFound _) => true
  | _ => false
  end.

(** [client.IgnoreNotFound]. *)
Definition IgnoreNotFound (err : option error) : option error :=
  if IsNotFound err then None else err.

(** [context.DeadlineExceeded]. *)
Definition DeadlineExceeded : error := errorString "context deadline exceeded".

(** ** The Kubernetes objects the component builds

    Only the fields the component reads or writes are kept; a field that is
    left out of a composite literal in the source has its zero value here. *)

Definition Quantity := string.
Definition ResourceList := gmap string Quantity.

Record ResourceRequirements := {
  rr_Limits : ResourceList;
  rr_Requests : ResourceList
}.

Record ExecAction := { exec_Command : list string }.

Record Probe := {
  probe_Exec : option ExecAction;
  probe_InitialDelaySeconds : Z;
  probe_PeriodSeconds : Z;
  probe_FailureThreshold : Z
}.

Record ContainerPort := {
  port_Name : string;
  port_Protocol : string;
  port_ContainerPort : Z
}.

Record SecretKeySelector := { sks_Name : string; sks_Key : string }.
Record ObjectFieldSelector := { ofs_FieldPath : string }.

Record EnvVarSource := {
  evs_FieldRef : option ObjectFieldSelector;
  evs_SecretKeyRef : option SecretKeySelector
}.

Record EnvVar := {
  env_Name : string;
  env_Value : string;
  env_ValueFrom : option EnvVarSource
}.

Record VolumeMount := { vm_Name : string; vm_MountPath : string }.

Record KeyToPath := { ktp_Key : string; ktp_Path : string }.

Record ConfigMapVolumeSource := {
  cmvs_Name : string;
  cmvs_Items : list KeyToPath;
  cmvs_DefaultMode : option Z
}.

Record SecretVolumeSource := { svs_SecretName : string }.

Record HostPathVolumeSource := { hp_Path : string; hp_Type : option string }.

Record VolumeSource := {
  vs_HostPath : option HostPathVolumeSource;
  vs_Secret : option SecretVolumeSource;
  vs_ConfigMap : option ConfigMapVolumeSource
}.

Record Volume := { vol_Name : string; vol_VolumeSource : VolumeSource }.

Record Capabilities := { cap_Add : list string }.
Record SecurityContext := { sc_Capabilities : option Capabilities }.

Record Container := {
  c_Name : string;
  c_Image : string;
  c_ImagePullPolicy : string;
  c_Command : list string;
  c_ReadinessProbe : option Probe;
  c_LivenessProbe : option Probe;
  c_Ports : list ContainerPort;
  c_Resources : ResourceRequirements;
  c_Env : list EnvVar;
  c_VolumeMounts : list VolumeMount;
  c_SecurityContext : option SecurityContext
}.

Record HostAlias := { ha_IP : string; ha_Hostnames : list string }.

(** Scheduling hints are copied from the snapshot into the pod spec and
    never inspected; they are kept as opaque payloads. *)
Inductive Affinity := AffinityPayload (a : string).
Inductive TopologySpreadConstraint := TopologySpreadConstraintPayload (c : string).

Record PodSpec := {
  ps_HostAliases : list HostAlias;
  ps_ServiceAccountName : string;
  ps_Affinity : option Affinity;
  ps_TopologySpreadConstraints : list TopologySpreadConstraint;
  ps_Containers : list Container;
  ps_ShareProcessNamespace : option bool;
  ps_Volumes : list Volume;
  ps_PriorityClassName : string
}.

Record OwnerReference := {
  or_APIVersion : string;
  or_Kind : string;
  or_Name : string;
  or_UID : string;
  or_Controller : option bool;
  or_BlockOwnerDeletion : option bool
}.

Record ObjectMeta := {
  om_Name : string;
  om_Namespace : string;
  om_Generation : Z;
  om_Labels : gmap string string;
  om_Annotations : gmap string string;
  om_OwnerReferences : list OwnerReference
}.

Record PodTemplateSpec := {
  pts_ObjectMeta : ObjectMeta;
  pts_Spec : PodSpec
}.

Record LabelSelector := { ls_MatchLabels : gmap string string }.

Record PersistentVolumeClaimSpec := {
  pvcs_AccessModes : list string;
  pvcs_StorageClassName : option string;
  pvcs_Resources : ResourceRequirements
}.

Record PersistentVolumeClaim := {
  pvc_ObjectMeta : ObjectMeta;
  pvc_Spec : PersistentVolumeClaimSpec;
  pvc_Phase : string
}.

Record StatefulSetSpec := {
  ss_Replicas : option Z;
  ss_Selector : option LabelSelector;
  ss_Template : PodTemplateSpec;
  ss_VolumeClaimTemplates : list PersistentVolumeClaim;
  ss_ServiceName : string;
  ss_PodManagementPolicy : string;
  ss_UpdateStrategy : string
}.

Record StatefulSetStatus := {
  st_ObservedGeneration : Z;
  st_Replicas : Z;
  st_ReadyReplicas : Z;
  st_UpdateRevision : string;
  st_CurrentRevision : string
}.

Record StatefulSet := {
  sts_ObjectMeta : ObjectMeta;
  sts_Spec : StatefulSetSpec;
  sts_Status : StatefulSetStatus
}.

(** Zero values. *)
Definition zeroResourceRequirements : ResourceRequirements :=
  {| rr_Limits := ∅; rr_Requests := ∅ |}.

Definition zeroObjectMeta : ObjectMeta :=
  {| om_Name := ""; om_Namespace := ""; om_Generation := 0;
     om_Labels := ∅; om_Annotations := ∅; om_OwnerReferences := [] |}.

Definition zeroPodSpec : PodSpec :=
  {| ps_HostAliases := []; ps_ServiceAccountName := ""; ps_Affinity := None;
     ps_TopologySpreadConstraints := []; ps_Containers := [];
     ps_ShareProcessNamespace := None; ps_Volumes := [];
     ps_PriorityClassName := "" |}.

Definition zeroStatefulSetSpec : StatefulSetSpec :=
  {| ss_Replicas := None; ss_Selector := None;
     ss_Template := {| pts_ObjectMeta := zeroObjectMeta; pts_Spec := zeroPodSpec |};
     ss_VolumeClaimTemplates := []; ss_ServiceName := "";
     ss_PodManagementPolicy := ""; ss_UpdateStrategy := "" |}.

Definition zeroStatefulSetStatus : StatefulSetStatus :=
  {| st_ObservedGeneration := 0; st_Replicas := 0; st_ReadyReplicas := 0;
     st_UpdateRevision := ""; st_CurrentRevision := "" |}.

(** Constants of the Kubernetes API packages. *)
Definition ParallelPodManagement : string := "Parallel".
Definition RollingUpdateStatefulSetStrategyType : string := "RollingUpdate".
Definition PullIfNotPresent : string := "IfNotPresent".
Definition ReadWriteOnce : string := "ReadWriteOnce".
Definition ResourceCPU : string := "cpu".
Definition ResourceMemory : string := "memory".
Definition ResourceStorage : string := "storage".
Definition HostPathDirectory : string := "Directory".
Definition ClaimBound : string := "Bound".
Definition EventTypeWarning : string := "Warning".

(** ** The configuration snapshot

    [Values] and the API types it refers to are declared outside this file;
    the records list the fields this file reads, with the types its uses
    give them. [Container] is tested against nil and dereferenced, so it is
    a pointer; [SecretRef.Name] and the three TLS references are read
    through plain field selection. *)

Record SecretReference := { sr_Name : string }.

Record TLSConfig := {
  TLSCASecretRef : SecretReference;
  ServerTLSSecretRef : SecretReference;
  ClientTLSSecretRef : SecretReference
}.

Record StoreSpec := {
  Container_ : option string;
  Provider : option string;
  SecretRef : SecretReference
}.

Record Values := {
  Name : string;
  Namespace : string;
  EtcdUID : string;
  Replicas : Z;
  StatusReplicas : Z;
  ServiceName : string;
  Labels : gmap string string;
  Annotations : gmap string string;
  ServiceAccountName : string;
  Affinity_ : option Affinity;
  TopologySpreadConstraints : list TopologySpreadConstraint;
  PriorityClassName : option string;
  EtcdImage : string;
  EtcdCommand : list string;
  ReadinessProbeCommand : list string;
  LivenessProbCommand : list string;
  BackupImage : string;
  EtcdBackupCommand : list string;
  ServerPort : option Z;
  ClientPort : option Z;
  BackupPort : option Z;
  EtcdResourceRequirements : option ResourceRequirements;
  BackupResourceRequirements : option ResourceRequirements;
  BackupTLS : option TLSConfig;
  ClientUrlTLS : option TLSConfig;
  PeerUrlTLS : option TLSConfig;
  BackupStore : option StoreSpec;
  VolumeClaimTemplateName : string;
  StorageClass : option string;
  StorageCapacity : option Quantity;
  ConfigMapName : string
}.

(** ** Declarations of the package that live outside this file *)

Module utils.

(** Modelled from the spec: the provider-kind constants of package
    [utils] (the closed provider enumeration: the local file system and
    the object-storage kinds) are not in this file. Each constant is the
    kind's own name, as the literal ["Local"] that [getVolumes] switches
    on is. *)
Definition Local : string := "Local".
Definition S3 : string := "S3".
Definition ABS : string := "ABS".
Definition GCS : string := "GCS".
Definition Swift : string := "Swift".
Definition OSS : string := "OSS".
Definition ECS : string := "ECS".
Definition OCS : string := "OCS".

(** Modelled from the spec: [utils.MergeStringMaps] is not in this file.
    The maps are merged in the order they are given, each one layered on
    top of what came before, so on a key collision the later map wins. *)
Definition MergeStringMaps (oldMap newMap : gmap string string)
  : gmap string string := newMap ∪ oldMap.

End utils.

(** A [case] with several constants. *)
Definition oneOf (p : string) (cases : list string) : bool :=
  existsb (String.eqb p) cases.

(** The test [p != nil] on a pointer. *)
Definition notNil {A} (p : option A) : bool :=
  match p with Some _ => true | None => false end.

(** [pointer.Int32Deref] and [pointer.StringDeref]. *)
Definition Int32Deref (ptr : option Z) (def : Z) : Z := default def ptr.
Definition StringDeref (ptr : option string) (def : string) : string :=
  default def ptr.

(** ** The platform and the effects of the component

    The API server is a script: what the n-th fetch returns, and what a
    create, a patch, a delete, a list or an event query returns. The world
    carries the script, a clock in nanoseconds, the number of fetches made
    so far and the log of the calls made, oldest first. *)

Record ObjectKey := { key_Namespace : string; key_Name : string }.

Inductive Call :=
| CallGet (key : ObjectKey)
| CallCreate (obj : StatefulSet)
| CallPatch (obj baseline : StatefulSet)
| CallDelete (key : ObjectKey)
| CallList (namespace : string)
| CallFetchEventMessages (pvc : PersistentVolumeClaim) (eventType : string) (limit : Z).

Record Platform := {
  getResult : nat -> StatefulSet + error;
  createResult : StatefulSet -> option error;
  patchResult : StatefulSet -> StatefulSet -> option error;
  deleteResult : ObjectKey -> option error;
  listResult : string -> list PersistentVolumeClaim + error;
  eventMessages : PersistentVolumeClaim -> string -> Z -> string + error
}.

Record World := {
  platform : Platform;
  now : Z;
  fetches : nat;
  calls : list Call
}.

(** The world after a call has been logged, after a fetch has been
    answered, and after [d] nanoseconds have passed. *)
Definition logged (c : Call) (w : World) : World :=
  {| platform := platform w; now := now w; fetches := fetches w;
     calls := calls w ++ [c] |}.

Definition fetched (key : ObjectKey) (w : World) : World :=
  {| platform := platform w; now := now w; fetches := S (fetches w);
     calls := calls w ++ [CallGet key] |}.

Definition advanced (d : Z) (w : World) : World :=
  {| platform := platform w; now := now w + d; fetches := fetches w;
     calls := calls w |}.

(** A computation either returns a value or panics ([None]); the world it
    leaves behind is kept in both cases. *)
Definition M (A : Type) : Type := World -> option A * World.

Definition ret {A} (a : A) : M A := fun w => (Some a, w).

Definition panic {A} : M A := fun w => (None, w).

Definition bind {A B} (m : M A) (k : A -> M B) : M B :=
  fun w =>
    match m w with
    | (Some a, w') => k a w'
    | (None, w') => (None, w')
    end.

Notation "'let*' x ':=' m 'in' k" := (bind m (fun x => k))
  (at level 10, x pattern, m at level 100, k at level 200).

(** A pure step that may panic. *)
Definition lift {A} (o : option A) : M A := fun w => (o, w).

Definition logCall (c : Call) : M unit := fun w => (Some tt, logged c w).

(** Time passing while a loop waits. *)
Definition sleep (d : Z) : M unit := fun w => (Some tt, advanced d w).

Module client.

Definition ObjectKeyFromObject (obj : StatefulSet) : ObjectKey :=
  {| key_Namespace := om_Namespace (sts_ObjectMeta obj);
     key_Name := om_Name (sts_ObjectMeta obj) |}.

(** The object the API server returns for a key carries the namespace and
    the name of that key. *)
Definition identifiedBy (key : ObjectKey) (obj : StatefulSet) : StatefulSet :=
  {| sts_ObjectMeta :=
       {| om_Name := key_Name key;
          om_Namespace := key_Namespace key;
          om_Generation := om_Generation (sts_ObjectMeta obj);
          om_Labels := om_Labels (sts_ObjectMeta obj);
          om_Annotations := om_Annotations (sts_ObjectMeta obj);
          om_OwnerReferences := om_OwnerReferences (sts_ObjectMeta obj) |};
     sts_Spec := sts_Spec obj;
     sts_Status := sts_Status obj |}.

(** [Get] fills [obj] on success and leaves it as it was on error. *)
Definition Get (key : ObjectKey) (obj : StatefulSet)
  : M (StatefulSet * option error) :=
  fun w =>
    match getResult (platform w) (fetches w) with
    | inl found => (Some (identifiedBy key found, None), fetched key w)
    | inr e => (Some (obj, Some e), fetched key w)
    end.

Definition Create (obj : StatefulSet) : M (option error) :=
  let* _ := logCall (CallCreate obj) in
  fun w => (Some (createResult (platform w) obj), w).

(** [Patch obj (StrategicMergeFrom baseline)]. *)
Definition Patch (obj baseline : StatefulSet) : M (option error) :=
  let* _ := logCall (CallPatch obj baseline) in
  fun w => (Some (patchResult (platform w) obj baseline), w).

Definition Delete (obj : StatefulSet) : M (option error) :=
  let* _ := logCall (CallDelete (ObjectKeyFromObject obj)) in
  fun w => (Some (deleteResult (platform w) (ObjectKeyFromObject obj)), w).

(** [List pvcs (InNamespace namespace)]. *)
Definition List (namespace : string)
  : M (list PersistentVolumeClaim * option error) :=
  let* _ := logCall (CallList namespace) in
  fun w =>
    match listResult (platform w) namespace with
    | inl items => (Some (items, None), w)
    | inr e => (Some ([], Some e), w)
    end.

End client.

Module kutil.

(** [FetchEventMessages] of the Kubernetes utilities: the rendered
    messages of the most recent [limit] events of type [eventType] that
    involve the object, or an error. *)
Definition FetchEventMessages (pvc : PersistentVolumeClaim)
    (eventType : string) (limit : Z) : M (string * option error) :=
  let* _ := logCall (CallFetchEventMessages pvc eventType limit) in
  fun w =>
    match eventMessages (platform w) pvc eventType limit with
    | inl messages => (Some (messages, None), w)
    | inr e => (Some ("", Some e), w)
    end.

End kutil.

(** ** The retry package

    [UntilTimeout ctx interval timeout f] runs [f] at once and then again
    after every [interval], until [f] reports that it is done or the
    deadline [timeout] after the start has come. The attempts are made at
    0, [interval], 2 * [interval], ... strictly before the deadline; a tick
    that falls on the deadline itself is taken by the deadline. The caller
    context is never cancelled, and for an interval that is not positive
    no attempt follows the first. *)
Module retry.

Definition Ok : bool * option error := (true, None).
Definition NotOk : bool * option error := (false, None).
Definition MinorError (e : error) : bool * option error := (false, Some e).
Definition SevereError (e : error) : bool * option error := (true, Some e).

(** [f] may update variables it has captured; they are the loop state
    [s]. [n] is the number of attempts that can still follow this one,
    [remaining] the time left until the deadline. *)
Fixpoint Until {S : Type} (n : nat) (interval remaining : Z)
    (f : S -> M (S * (bool * option error))) (s : S)
    (minorErr : option error) : M (S * option error) :=
  let* (s, (done, err)) := f s in
  match err, done with
  | Some e, true => ret (s, Some e)
  | None, true => ret (s, None)
  | _, false =>
      let minorErr := match err with Some e => Some e | None => minorErr end in
      match n with
      | O =>
          let* _ := sleep remaining in
          ret (s, Some (retryError DeadlineExceeded minorErr))
      | Datatypes.S n' =>
          let* _ := sleep interval in
          Until n' interval (remaining - interval) f s minorErr
      end
  end.

Definition attemptsAfterFirst (interval timeout : Z) : nat :=
  if 0 <? interval then Z.to_nat ((timeout - 1) / interval) else 0%nat.

Definition UntilTimeout {S : Type} (interval timeout : Z)
    (f : S -> M (S * (bool * option error))) (s : S) : M (S * option error) :=
  Until (attemptsAfterFirst interval timeout) interval timeout f s None.

End retry.

(** [time.Second], in nanoseconds. *)
Definition Second : Z := 1000000000.

(** ** A sample instantiation

    What the component takes from the other files of the package, given
    concretely, and a few snapshots and platform scripts to run the model
    on. The statements about the component below hold for every
    instantiation; this one serves the examples. *)

Module Sample.

(** Modelled from the spec: [utils.StorageProviderFromInfraProvider] is
    not in this file. It resolves the configured provider to one of the
    provider kinds; an unrecognized provider is an error, after which the
    callers contribute nothing. *)
Definition StorageProviderFromInfraProvider (infra : option string)
  : string * option error :=
  match infra with
  | None => ("", None)
  | Some p =>
      if oneOf p [utils.Local; utils.S3; utils.ABS; utils.GCS; utils.Swift;
                  utils.OSS; utils.ECS; utils.OCS]
      then (p, None)
      else ("", Some (errorString ("unsupported storage provider: " +:+ p)))
  end.

(** Modelled from the spec: [utils.CheckStatefulSet] is not in this file.
    The object is ready when the platform has observed its current
    generation and its ready replica count equals the desired one. *)
Definition CheckStatefulSet (etcdReplicas : Z) (sts : StatefulSet)
  : option error :=
  if st_ObservedGeneration (sts_Status sts) <? om_Generation (sts_ObjectMeta sts)
  then Some (errorString "observed generation outdated")
  else if negb (st_ReadyReplicas (sts_Status sts) =? etcdReplicas)
  then Some (errorString "not enough ready replicas")
  else None.

(** Modelled from the spec: the fixed defaults of the package (ports,
    storage capacity, prefix of local backup buckets) and the group and
    version of the owning API are declared outside this file; the spec
    names them without giving values. *)
Definition defaultServerPort : Z := 2380.
Definition defaultClientPort : Z := 2379.
Definition defaultBackupPort : Z := 8080.
Definition defaultStorageCapacity : Quantity := "16Gi".
Definition defaultLocalPrefix : string := "/etc/gardener/local-backupbuckets".
Definition GroupVersion : string := "druid.gardener.cloud/v1alpha1".

(** A snapshot of the cluster [myetcd]. *)
Definition values (replicas statusReplicas : Z) (labels : gmap string string)
    (store : option StoreSpec) : Values :=
  {| Name := "myetcd";
     Namespace := "shoot";
     EtcdUID := "uid-1";
     Replicas := replicas;
     StatusReplicas := statusReplicas;
     ServiceName := "myetcd-peer";
     Labels := labels;
     Annotations := ∅;
     ServiceAccountName := "myetcd";
     Affinity_ := None;
     TopologySpreadConstraints := [];
     PriorityClassName := None;
     EtcdImage := "etcd:v3.4.13";
     EtcdCommand := ["/var/etcd/bin/bootstrap.sh"];
     ReadinessProbeCommand := ["/usr/bin/curl"; "http://localhost:8080/healthz"];
     LivenessProbCommand := ["/bin/sh"; "-ec"; "etcdctl endpoint health"];
     BackupImage := "etcdbrctl:v0.15.0";
     EtcdBackupCommand := ["etcdbrctl"; "server"];
     ServerPort := None;
     ClientPort := None;
     BackupPort := None;
     EtcdResourceRequirements := None;
     BackupResourceRequirements := None;
     BackupTLS := None;
     ClientUrlTLS := None;
     PeerUrlTLS := None;
     BackupStore := store;
     VolumeClaimTemplateName := "data";
     StorageClass := None;
     StorageCapacity := None;
     ConfigMapName := "etcd-bootstrap" |}.

Definition store (provider : string) (container : option string) : StoreSpec :=
  {| Container_ := container;
     Provider := Some provider;
     SecretRef := {| sr_Name := "etcd-backup-secret" |} |}.

Definition key : ObjectKey :=
  {| key_Namespace := "shoot"; key_Name := "myetcd" |}.

(** The StatefulSet as the platform holds it. *)
Definition existing (generation : Z) (serviceName : string)
    (readyReplicas : Z) : StatefulSet :=
  {| sts_ObjectMeta :=
       {| om_Name := "myetcd"; om_Namespace := "shoot";
          om_Generation := generation;
          om_Labels := {[ "name" := "etcd"; "instance" := "myetcd" ]};
          om_Annotations := ∅; om_OwnerReferences := [] |};
     sts_Spec :=
       {| ss_Replicas := Some readyReplicas;
          ss_Selector :=
            Some {| ls_MatchLabels :=
                      {[ "name" := "etcd"; "instance" := "myetcd" ]} |};
          ss_Template :=
            {| pts_ObjectMeta := zeroObjectMeta; pts_Spec := zeroPodSpec |};
          ss_VolumeClaimTemplates :=
            [ {| pvc_ObjectMeta :=
                   {| om_Name := "data"; om_Namespace := "";
                      om_Generation := 0; om_Labels := ∅;
                      om_Annotations := ∅; om_OwnerReferences := [] |};
                 pvc_Spec :=
                   {| pvcs_AccessModes := [ReadWriteOnce];
                      pvcs_StorageClassName := None;
                      pvcs_Resources := zeroResourceRequirements |};
                 pvc_Phase := "" |} ];
          ss_ServiceName := serviceName;
          ss_PodManagementPolicy := ParallelPodManagement;
          ss_UpdateStrategy := RollingUpdateStatefulSetStrategyType |};
     sts_Status :=
       {| st_ObservedGeneration := generation;
          st_Replicas := readyReplicas;
          st_ReadyReplicas := readyReplicas;
          st_UpdateRevision := ""; st_CurrentRevision := "" |} |}.

Definition notFound : error :=
  StatusError StatusReasonNotFound "statefulsets.apps myetcd not found".

Definition forbidden : error :=
  StatusError (StatusReasonOther "Forbidden") "statefulsets.apps myetcd is forbidden".

Definition claim (name phase : string) : PersistentVolumeClaim :=
  {| pvc_ObjectMeta :=
       {| om_Name := name; om_Namespace := "shoot"; om_Generation := 0;
          om_Labels := ∅; om_Annotations := ∅; om_OwnerReferences := [] |};
     pvc_Spec :=
       {| pvcs_AccessModes := [ReadWriteOnce];
          pvcs_StorageClassName := None;
          pvcs_Resources := zeroResourceRequirements |};
     pvc_Phase := phase |}.

(** A platform that answers the fetches with [gets] in order and with
    [later] once they are used up, a delete with [onDelete], the list of
    volume claims with [claims] and an event query with [events]. *)
Definition script (gets : list (StatefulSet + error)) (later : StatefulSet + error)
    (onDelete : option error)
    (claims : list PersistentVolumeClaim + error)
    (events : PersistentVolumeClaim -> string + error) : Platform :=
  {| getResult := fun n => nth n gets later;
     createResult := fun _ => None;
     patchResult := fun _ _ => None;
     deleteResult := fun _ => onDelete;
     listResult := fun _ => claims;
     eventMessages := fun pvc _ _ => events pvc |}.

Definition start (p : Platform) : World :=
  {| platform := p; now := 0; fetches := 0; calls := [] |}.

End Sample.

(** ** The composer and the operations

    The section is parametric in what the package declares in other files
    and this file only uses: the resolver from the configured provider to
    a provider kind, the readiness check of a fetched StatefulSet, the
    default ports, the default storage capacity, the prefix of local backup
    buckets and the group/version string of the owning API. *)

Section Component.

Variable StorageProviderFromInfraProvider : option string -> string * option error.
Variable CheckStatefulSet : Z -> StatefulSet -> option error.
Variables defaultServerPort defaultClientPort defaultBackupPort : Z.
Variable defaultStorageCapacity : Quantity.
Variable defaultLocalPrefix : string.
Variable GroupVersion : string.

(** *** Pure helpers *)

Definition clusterScaledUpToMultiNode (val : Values) : bool :=
  (1 <? Replicas val)%Z &&
    ((StatusReplicas val =? 0)%Z || (StatusReplicas val =? 1)%Z).

Definition getCommonLabels (val : Values) : gmap string string :=
  {[ "name" := "etcd"; "instance" := Name val ]}.

Definition getObjectMeta (val : Values) : ObjectMeta :=
  let labels := utils.MergeStringMaps (getCommonLabels val) (Labels val) in
  let annotations :=
    utils.MergeStringMaps
      {[ "gardener.cloud/owned-by" := Namespace val +:+ "/" +:+ Name val;
         "gardener.cloud/owner-type" := "etcd" ]}
      (Annotations val) in
  let ownerRefs :=
    [ {| or_APIVersion := GroupVersion;
         or_Kind := "Etcd";
         or_Name := Name val;
         or_UID := EtcdUID val;
         or_Controller := Some true;
         or_BlockOwnerDeletion := Some true |} ] in
  {| om_Name := Name val;
     om_Namespace := Namespace val;
     om_Generation := 0;
     om_Labels := labels;
     om_Annotations := annotations;
     om_OwnerReferences := ownerRefs |}.

Definition getEtcdPorts (val : Values) : list ContainerPort :=
  [ {| port_Name := "server"; port_Protocol := "TCP";
       port_ContainerPort := Int32Deref (ServerPort val) defaultServerPort |};
    {| port_Name := "client"; port_Protocol := "TCP";
       port_ContainerPort := Int32Deref (ClientPort val) defaultClientPort |} ].

Definition defaultResourceRequirements : ResourceRequirements :=
  {| rr_Limits := ∅;
     rr_Requests := {[ ResourceCPU := "50m"; ResourceMemory := "128Mi" ]} |}.

Definition getEtcdResources (val : Values) : ResourceRequirements :=
  match EtcdResourceRequirements val with
  | Some r => r
  | None => defaultResourceRequirements
  end.

Definition getEnvVarFromValue (name value : string) : EnvVar :=
  {| env_Name := name; env_Value := value; env_ValueFrom := None |}.

Definition getEnvVarFromField (name fieldPath : string) : EnvVar :=
  {| env_Name := name; env_Value := "";
     env_ValueFrom :=
       Some {| evs_FieldRef := Some {| ofs_FieldPath := fieldPath |};
               evs_SecretKeyRef := None |} |}.

Definition getEnvVarFromSecrets (name secretName secretKey : string) : EnvVar :=
  {| env_Name := name; env_Value := "";
     env_ValueFrom :=
       Some {| evs_FieldRef := None;
               evs_SecretKeyRef :=
                 Some {| sks_Name := secretName; sks_Key := secretKey |} |} |}.

Definition getEtcdEnvVars (val : Values) : list EnvVar :=
  let env := [] in
  let env := env ++ [getEnvVarFromValue "ENABLE_TLS"
                       (FormatBool (notNil (BackupTLS val)))] in
  let protocol := if notNil (BackupTLS val) then "https" else "http" in
  let endpoint :=
    protocol +:+ "://" +:+ Name val +:+ "-local:" +:+
    FormatInt (Int32Deref (BackupPort val) defaultBackupPort) in
  let env := env ++ [getEnvVarFromValue "BACKUP_ENDPOINT" endpoint] in
  let env := env ++ [getEnvVarFromValue "FAIL_BELOW_REVISION_PARAMETER" ""] in
  env.

Definition getSecretVolumeMounts (clientUrlTLS peerUrlTLS : option TLSConfig)
  : list VolumeMount :=
  let vms := [] in
  let vms :=
    if notNil clientUrlTLS then
      vms ++ [ {| vm_Name := "client-url-ca-etcd";
                  vm_MountPath := "/var/etcd/ssl/client/ca" |};
               {| vm_Name := "client-url-etcd-server-tls";
                  vm_MountPath := "/var/etcd/ssl/client/server" |};
               {| vm_Name := "client-url-etcd-client-tls";
                  vm_MountPath := "/var/etcd/ssl/client/client" |} ]
    else vms in
  let vms :=
    if notNil peerUrlTLS then
      vms ++ [ {| vm_Name := "peer-url-ca-etcd";
                  vm_MountPath := "/var/etcd/ssl/peer/ca" |};
               {| vm_Name := "peer-url-etcd-server-tls";
                  vm_MountPath := "/var/etcd/ssl/peer/server" |} ]
    else vms in
  vms.

Definition getEtcdVolumeMounts (val : Values) : list VolumeMount :=
  let vms := [ {| vm_Name := VolumeClaimTemplateName val;
                  vm_MountPath := "/var/etcd/data/" |} ] in
  vms ++ getSecretVolumeMounts (ClientUrlTLS val) (PeerUrlTLS val).

Definition getBackupRestoreVolumeMounts (val : Values) : list VolumeMount :=
  let vms := [ {| vm_Name := VolumeClaimTemplateName val;
                  vm_MountPath := "/var/etcd/data" |};
               {| vm_Name := "etcd-config-file";
                  vm_MountPath := "/var/etcd/config/" |} ] in
  let vms := vms ++ getSecretVolumeMounts (ClientUrlTLS val) (PeerUrlTLS val) in
  match BackupStore val with
  | None => vms
  | Some store =>
      match StorageProviderFromInfraProvider (Provider store) with
      | (_, Some _) => vms
      | (provider, None) =>
          if String.eqb provider utils.Local then
            match Container_ store with
            | Some container =>
                vms ++ [ {| vm_Name := "host-storage";
                            vm_MountPath := container |} ]
            | None => vms
            end
          else if String.eqb provider utils.GCS then
            vms ++ [ {| vm_Name := "etcd-backup";
                        vm_MountPath := "/root/.gcp/" |} ]
          else if oneOf provider
                    [utils.S3; utils.ABS; utils.OSS; utils.Swift; utils.OCS] then
            vms ++ [ {| vm_Name := "etcd-backup";
                        vm_MountPath := "/root/etcd-backup/" |} ]
          else vms
      end
  end.

Definition getStorageReq (val : Values) : ResourceRequirements :=
  let storageCapacity :=
    match StorageCapacity val with
    | Some c => c
    | None => defaultStorageCapacity
    end in
  {| rr_Limits := ∅;
     rr_Requests := {[ ResourceStorage := storageCapacity ]} |}.

Definition getBackupPorts (val : Values) : list ContainerPort :=
  [ {| port_Name := "server"; port_Protocol := "TCP";
       port_ContainerPort := Int32Deref (BackupPort val) defaultBackupPort |} ].

Definition getBackupResources (val : Values) : ResourceRequirements :=
  match BackupResourceRequirements val with
  | Some r => r
  | None => defaultResourceRequirements
  end.

Definition secretVolume (name secretName : string) : Volume :=
  {| vol_Name := name;
     vol_VolumeSource :=
       {| vs_HostPath := None;
          vs_Secret := Some {| svs_SecretName := secretName |};
          vs_ConfigMap := None |} |}.

(** [getVolumes] dereferences [storeValues.Container] for the local
    provider without testing it against nil: [None] is that panic. *)
Definition getVolumes (val : Values) : option (list Volume) :=
  let vs :=
    [ {| vol_Name := "etcd-config-file";
         vol_VolumeSource :=
           {| vs_HostPath := None;
              vs_Secret := None;
              vs_ConfigMap :=
                Some {| cmvs_Name := ConfigMapName val;
                        cmvs_Items := [ {| ktp_Key := "etcd.conf.yaml";
                                           ktp_Path := "etcd.conf.yaml" |} ];
                        cmvs_DefaultMode := Some 420 |} |} |} ] in
  let vs :=
    match ClientUrlTLS val with
    | Some tls =>
        vs ++ [ secretVolume "client-url-ca-etcd" (sr_Name (TLSCASecretRef tls));
                secretVolume "client-url-etcd-server-tls"
                  (sr_Name (ServerTLSSecretRef tls));
                secretVolume "client-url-etcd-client-tls"
                  (sr_Name (ClientTLSSecretRef tls)) ]
    | None => vs
    end in
  let vs :=
    match PeerUrlTLS val with
    | Some tls =>
        vs ++ [ secretVolume "peer-url-ca-etcd" (sr_Name (TLSCASecretRef tls));
                secretVolume "peer-url-etcd-server-tls"
                  (sr_Name (ServerTLSSecretRef tls)) ]
    | None => vs
    end in
  match BackupStore val with
  | None => Some vs
  | Some storeValues =>
      match StorageProviderFromInfraProvider (Provider storeValues) with
      | (_, Some _) => Some vs
      | (provider, None) =>
          if String.eqb provider "Local" then
            match Container_ storeValues with
            | None => None
            | Some container =>
                Some (vs ++
                  [ {| vol_Name := "host-storage";
                       vol_VolumeSource :=
                         {| vs_HostPath :=
                              Some {| hp_Path :=
                                        defaultLocalPrefix +:+ "/" +:+ container;
                                      hp_Type := Some HostPathDirectory |};
                            vs_Secret := None;
                            vs_ConfigMap := None |} |} ])
            end
          else if oneOf provider
                    [utils.GCS; utils.S3; utils.OSS; utils.ABS;
                     utils.Swift; utils.OCS] then
            Some (vs ++ [ secretVolume "etcd-backup"
                            (sr_Name (SecretRef storeValues)) ])
          else Some vs
      end
  end.

Definition credentialsMountPath : string := "/root/etcd-backup".

Definition getBackupRestoreEnvVars (val : Values) : list EnvVar :=
  let storeValues := BackupStore val in
  let storageContainer :=
    match BackupStore val with
    | Some store => StringDeref (Container_ store) ""
    | None => ""
    end in
  let env := [] in
  let env := env ++ [getEnvVarFromValue "STORAGE_CONTAINER" storageContainer] in
  let env := env ++ [getEnvVarFromField "POD_NAME" "metadata.name"] in
  let env := env ++ [getEnvVarFromField "POD_NAMESPACE" "metadata.namespace"] in
  match storeValues with
  | None => env
  | Some store =>
      match StorageProviderFromInfraProvider (Provider store) with
      | (_, Some _) => env
      | (provider, None) =>
          if String.eqb provider utils.S3 then
            env ++ [getEnvVarFromValue "AWS_APPLICATION_CREDENTIALS"
                      credentialsMountPath]
          else if String.eqb provider utils.ABS then
            env ++ [getEnvVarFromValue "AZURE_APPLICATION_CREDENTIALS"
                      credentialsMountPath]
          else if String.eqb provider utils.GCS then
            env ++ [getEnvVarFromValue "GOOGLE_APPLICATION_CREDENTIALS"
                      "/root/.gcp/serviceaccount.json"]
          else if String.eqb provider utils.Swift then
            env ++ [getEnvVarFromValue "OPENSTACK_APPLICATION_CREDENTIALS"
                      credentialsMountPath]
          else if String.eqb provider utils.OSS then
            env ++ [getEnvVarFromValue "ALICLOUD_APPLICATION_CREDENTIALS"
                      credentialsMountPath]
          else if String.eqb provider utils.ECS then
            (env ++ [getEnvVarFromSecrets "ECS_ENDPOINT"
                       (sr_Name (SecretRef store)) "endpoint"])
              ++ [getEnvVarFromSecrets "ECS_ACCESS_KEY_ID"
                    (sr_Name (SecretRef store)) "accessKeyID"]
              ++ [getEnvVarFromSecrets "ECS_SECRET_ACCESS_KEY"
                    (sr_Name (SecretRef store)) "secretAccessKey"]
          else if String.eqb provider utils.OCS then
            env ++ [getEnvVarFromValue "OPENSHIFT_APPLICATION_CREDENTIALS"
                      credentialsMountPath]
          else env
      end
  end.

(** The object [syncStatefulset] writes into its working copy [sts]
    before it submits it: a fresh [ObjectMeta], the composed [Spec] and
    the status the working copy already had. [None] is the panic of
    [getVolumes]. *)
Definition composeStatefulset (val : Values) (sts : StatefulSet)
  : option StatefulSet :=
  let meta := getObjectMeta val in
  volumes ← getVolumes val;
  let priorityClassName :=
    match PriorityClassName val with
    | Some p => p
    | None => ""
    end in
  Some
    {| sts_ObjectMeta := meta;
       sts_Status := sts_Status sts;
       sts_Spec :=
         {| ss_PodManagementPolicy := ParallelPodManagement;
            ss_UpdateStrategy := RollingUpdateStatefulSetStrategyType;
            ss_Replicas := Some (Replicas val);
            ss_ServiceName := ServiceName val;
            ss_Selector := Some {| ls_MatchLabels := getCommonLabels val |};
            ss_Template :=
              {| pts_ObjectMeta :=
                   {| om_Name := ""; om_Namespace := ""; om_Generation := 0;
                      om_Annotations := Annotations val;
                      om_Labels := om_Labels meta;
                      om_OwnerReferences := [] |};
                 pts_Spec :=
                   {| ps_HostAliases :=
                        [ {| ha_IP := "127.0.0.1";
                             ha_Hostnames := [Name val +:+ "-local"] |} ];
                      ps_ServiceAccountName := ServiceAccountName val;
                      ps_Affinity := Affinity_ val;
                      ps_TopologySpreadConstraints := TopologySpreadConstraints val;
                      ps_Containers :=
                        [ {| c_Name := "etcd";
                             c_Image := EtcdImage val;
                             c_ImagePullPolicy := PullIfNotPresent;
                             c_Command := EtcdCommand val;
                             c_ReadinessProbe :=
                               Some {| probe_Exec :=
                                         Some {| exec_Command :=
                                                   ReadinessProbeCommand val |};
                                       probe_InitialDelaySeconds := 15;
                                       probe_PeriodSeconds := 5;
                                       probe_FailureThreshold := 5 |};
                             c_LivenessProbe :=
                               Some {| probe_Exec :=
                                         Some {| exec_Command :=
                                                   LivenessProbCommand val |};
                                       probe_InitialDelaySeconds := 15;
                                       probe_PeriodSeconds := 5;
                                       probe_FailureThreshold := 5 |};
                             c_Ports := getEtcdPorts val;
                             c_Resources := getEtcdResources val;
                             c_Env := getEtcdEnvVars val;
                             c_VolumeMounts := getEtcdVolumeMounts val;
                             c_SecurityContext := None |};
                          {| c_Name := "backup-restore";
                             c_Image := BackupImage val;
                             c_ImagePullPolicy := PullIfNotPresent;
                             c_Command := EtcdBackupCommand val;
                             c_ReadinessProbe := None;
                             c_LivenessProbe := None;
                             c_Ports := getBackupPorts val;
                             c_Resources := getBackupResources val;
                             c_Env := getBackupRestoreEnvVars val;
                             c_VolumeMounts := getBackupRestoreVolumeMounts val;
                             c_SecurityContext :=
                               Some {| sc_Capabilities :=
                                         Some {| cap_Add := ["SYS_PTRACE"] |} |} |} ];
                      ps_ShareProcessNamespace := Some true;
                      ps_Volumes := volumes;
                      ps_PriorityClassName := priorityClassName |} |};
            ss_VolumeClaimTemplates :=
              [ {| pvc_ObjectMeta :=
                     {| om_Name := VolumeClaimTemplateName val;
                        om_Namespace := ""; om_Generation := 0;
                        om_Labels := ∅; om_Annotations := ∅;
                        om_OwnerReferences := [] |};
                   pvc_Spec :=
                     {| pvcs_AccessModes := [ReadWriteOnce];
                        pvcs_StorageClassName := StorageClass val;
                        pvcs_Resources := getStorageReq val |};
                   pvc_Phase := "" |} ] |} |}.

(** *** The component *)

Definition emptyStatefulset (val : Values) : StatefulSet :=
  {| sts_ObjectMeta :=
       {| om_Name := Name val; om_Namespace := Namespace val;
          om_Generation := 0; om_Labels := ∅; om_Annotations := ∅;
          om_OwnerReferences := [] |};
     sts_Spec := zeroStatefulSetSpec;
     sts_Status := zeroStatefulSetStatus |}.

(** The first component is the nil pointer when the second is an error. *)
Definition Get (val : Values) : M (option StatefulSet * option error) :=
  let sts := emptyStatefulset val in
  let* (sts, err) := client.Get (client.ObjectKeyFromObject sts) sts in
  match err with
  | Some e => ret (None, Some e)
  | None => ret (Some sts, None)
  end.

Definition syncStatefulset (val : Values) (sts : StatefulSet) : M (option error) :=
  let stsOriginal := sts in
  let* sts := lift (composeStatefulset val sts) in
  if 0 <? om_Generation (sts_ObjectMeta stsOriginal)
  then client.Patch sts stsOriginal
  else client.Create sts.

Definition deleteStatefulset (sts : StatefulSet) : M (option error) :=
  let* err := client.Delete sts in
  ret (IgnoreNotFound err).

Definition Destroy (val : Values) : M (option error) :=
  let sts := emptyStatefulset val in
  let* err := deleteStatefulset sts in
  match err with
  | Some e => ret (Some e)
  | None => ret None
  end.

Definition defaultInterval : Z := 5 * Second.
Definition defaultTimeout : Z := 90 * Second.

(** One tick of [WaitCleanup]. *)
Definition waitCleanupStep (val : Values) (_ : unit)
  : M (unit * (bool * option error)) :=
  let sts := emptyStatefulset val in
  let* (sts, err) := client.Get (client.ObjectKeyFromObject sts) sts in
  if IsNotFound err then ret (tt, retry.Ok)
  else match err with
       | None => ret (tt, (false, None))
       | Some e => ret (tt, retry.SevereError e)
       end.

Definition WaitCleanup (val : Values) : M (option error) :=
  let* (_, err) := retry.UntilTimeout defaultInterval defaultTimeout
                     (waitCleanupStep val) tt in
  ret err.

(** [OpDestroyAndWait(c).Destroy]: destroy, then wait for the cleanup. *)
Definition OpDestroyAndWait_Destroy (val : Values) : M (option error) :=
  let* err := Destroy val in
  match err with
  | Some e => ret (Some e)
  | None => WaitCleanup val
  end.

Definition Deploy (val : Values) : M (option error) :=
  let* (sts, err) := Get val in
  if notNil err && negb (IsNotFound err) then ret err
  else
    let sts := if notNil err then Some (emptyStatefulset val) else sts in
    match sts with
    | None => panic
    | Some sts =>
        if (1 <? om_Generation (sts_ObjectMeta sts))
           && negb (String.eqb (ss_ServiceName (sts_Spec sts)) (ServiceName val))
        then
          if clusterScaledUpToMultiNode val then
            let* err := OpDestroyAndWait_Destroy val in
            match err with
            | Some e => ret (Some e)
            | None => syncStatefulset val (emptyStatefulset val)
            end
          else syncStatefulset val sts
        else syncStatefulset val sts
    end.

(** One tick of [Wait]; [sts] is the variable the closure captures. *)
Definition waitStep (val : Values) (sts : StatefulSet)
  : M (StatefulSet * (bool * option error)) :=
  let* (sts, err) := client.Get (client.ObjectKeyFromObject sts) sts in
  match err with
  | Some e =>
      if IsNotFound err then ret (sts, retry.MinorError e)
      else ret (sts, retry.SevereError e)
  | None =>
      match CheckStatefulSet (Replicas val) sts with
      | Some e => ret (sts, retry.MinorError e)
      | None => ret (sts, retry.Ok)
      end
  end.

(** The loop over [pvcs.Items] for one volume claim template. The result
    is the accumulated [pvcMessages], or the error that ends the whole
    function. *)
Fixpoint fetchPVCEventsFor_items (ssName volumeClaimName : string)
    (items : list PersistentVolumeClaim) (pvcMessages : string)
  : M (string + error) :=
  match items with
  | [] => ret (inl pvcMessages)
  | pvc :: items' =>
      if negb (HasPrefix (om_Name (pvc_ObjectMeta pvc))
                 (volumeClaimName +:+ "-" +:+ ssName))
         || String.eqb (pvc_Phase pvc) ClaimBound
      then fetchPVCEventsFor_items ssName volumeClaimName items' pvcMessages
      else
        let* (messages, err) := kutil.FetchEventMessages pvc EventTypeWarning 2 in
        match err with
        | Some e => ret (inr e)
        | None =>
            let pvcMessages :=
              if negb (String.eqb messages "")
              then pvcMessages +:+ "Warning for PVC " +:+
                   om_Name (pvc_ObjectMeta pvc) +:+ ":" +:+ nl +:+
                   messages +:+ nl
              else pvcMessages in
            fetchPVCEventsFor_items ssName volumeClaimName items' pvcMessages
        end
  end.

(** The loop over the volume claim templates. *)
Fixpoint fetchPVCEventsFor_templates (ssName : string)
    (volumeClaims items : list PersistentVolumeClaim) (pvcMessages : string)
  : M (string + error) :=
  match volumeClaims with
  | [] => ret (inl pvcMessages)
  | volumeClaim :: volumeClaims' =>
      let* r := fetchPVCEventsFor_items ssName
                  (om_Name (pvc_ObjectMeta volumeClaim)) items pvcMessages in
      match r with
      | inr e => ret (inr e)
      | inl pvcMessages =>
          fetchPVCEventsFor_templates ssName volumeClaims' items pvcMessages
      end
  end.

Definition fetchPVCEventsFor (ss : StatefulSet) : M (string * option error) :=
  let* (pvcs, err) := client.List (om_Namespace (sts_ObjectMeta ss)) in
  match err with
  | Some e => ret ("", Some e)
  | None =>
      let* r := fetchPVCEventsFor_templates (om_Name (sts_ObjectMeta ss))
                  (ss_VolumeClaimTemplates (sts_Spec ss)) pvcs "" in
      match r with
      | inr e => ret ("", Some e)
      | inl pvcMessages => ret (pvcMessages, None)
      end
  end.

(** [fmt.Errorf("%w\n\n%s", err, messages)]. *)
Definition enrich (err : error) (messages : string) : error :=
  wrapError (Error err +:+ nl +:+ nl +:+ messages) err.

(** The polling loop of [Wait]. *)
Definition waitPoll (val : Values) : M (StatefulSet * option error) :=
  retry.UntilTimeout defaultInterval defaultTimeout (waitStep val)
    (emptyStatefulset val).

Definition Wait (val : Values) : M (option error) :=
  let* (sts, err) := waitPoll val in
  match err with
  | Some e =>
      let* (messages, err2) := fetchPVCEventsFor sts in
      match err2 with
      | Some _ => ret err
      | None =>
          if negb (String.eqb messages "")
          then ret (Some (enrich e messages))
          else ret err
      end
  | None => ret err
  end.

(** *** Vocabulary of the statements *)

(** The key every operation of the component fetches and deletes by. *)
Definition objectKey (val : Values) : ObjectKey :=
  {| key_Namespace := Namespace val; key_Name := Name val |}.

(** The world after [k] ticks of a polling loop that did not end it: each
    tick is one fetch followed by a wait of [interval]. *)
Fixpoint polled (key : ObjectKey) (interval : Z) (k : nat) (w : World) : World :=
  match k with
  | O => w
  | S k' => polled key interval k' (advanced interval (fetched key w))
  end.

(** What a tick of [Wait] makes of the answer to its fetch. *)
Definition readyFetch (val : Values) (r : StatefulSet + error) : bool :=
  match r with
  | inl found =>
      negb (notNil (CheckStatefulSet (Replicas val)
                      (client.identifiedBy (objectKey val) found)))
  | inr _ => false
  end.

Definition minorFetch (val : Values) (r : StatefulSet + error) : bool :=
  match r with
  | inl found =>
      notNil (CheckStatefulSet (Replicas val)
                (client.identifiedBy (objectKey val) found))
  | inr e => IsNotFound (Some e)
  end.

(** What a tick of either waiter makes of a fetch error that is not
    not-found. *)
Definition severeFetch (r : StatefulSet + error) : option error :=
  match r with
  | inl _ => None
  | inr e => if IsNotFound (Some e) then None else Some e
  end.

(** What a tick of [WaitCleanup] makes of the answer to its fetch. *)
Definition presentFetch (r : StatefulSet + error) : bool :=
  match r with inl _ => true | inr _ => false end.

Definition absentFetch (r : StatefulSet + error) : bool :=
  match r with inl _ => false | inr e => IsNotFound (Some e) end.

Definition isGet (c : Call) : bool :=
  match c with CallGet _ => true | _ => false end.
Definition isCreate (c : Call) : bool :=
  match c with CallCreate _ => true | _ => false end.
Definition isPatch (c : Call) : bool :=
  match c with CallPatch _ _ => true | _ => false end.
Definition isDelete (c : Call) : bool :=
  match c with CallDelete _ => true | _ => false end.

(** The condition under which [Deploy] destroys the fetched object. *)
Definition migrates (val : Values) (sts : StatefulSet) : bool :=
  (1 <? om_Generation (sts_ObjectMeta sts))
  && negb (String.eqb (ss_ServiceName (sts_Spec sts)) (ServiceName val))
  && clusterScaledUpToMultiNode val.

(** A volume claim whose events [fetchPVCEventsFor] asks for, for the
    volume claim template [volumeClaimName] of the object [ssName]. *)
Definition pendingClaimOf (ssName volumeClaimName : string)
    (pvc : PersistentVolumeClaim) : bool :=
  HasPrefix (om_Name (pvc_ObjectMeta pvc)) (volumeClaimName +:+ "-" +:+ ssName)
  && negb (String.eqb (pvc_Phase pvc) ClaimBound).


(** The snapshot [val] with another backup store. *)
Definition withBackupStore (val : Values) (store : option StoreSpec) : Values :=
  {| Name := Name val; Namespace := Namespace val; EtcdUID := EtcdUID val;
     Replicas := Replicas val; StatusReplicas := StatusReplicas val;
     ServiceName := ServiceName val; Labels := Labels val;
     Annotations := Annotations val;
     ServiceAccountName := ServiceAccountName val;
     Affinity_ := Affinity_ val;
     TopologySpreadConstraints := TopologySpreadConstraints val;
     PriorityClassName := PriorityClassName val;
     EtcdImage := EtcdImage val; EtcdCommand := EtcdCommand val;
     ReadinessProbeCommand := ReadinessProbeCommand val;
     LivenessProbCommand := LivenessProbCommand val;
     BackupImage := BackupImage val;
     EtcdBackupCommand := EtcdBackupCommand val;
     ServerPort := ServerPort val; ClientPort := ClientPort val;
     BackupPort := BackupPort val;
     EtcdResourceRequirements := EtcdResourceRequirements val;
     BackupResourceRequirements := BackupResourceRequirements val;
     BackupTLS := BackupTLS val; ClientUrlTLS := ClientUrlTLS val;
     PeerUrlTLS := PeerUrlTLS val;
     BackupStore := store;
     VolumeClaimTemplateName := VolumeClaimTemplateName val;
     StorageClass := StorageClass val;
     StorageCapacity := StorageCapacity val;
     ConfigMapName := ConfigMapName val |}.

(** The environment variables every backup-restore container has. *)
Definition commonBackupRestoreEnvVars (storageContainer : string) : list EnvVar :=
  [ getEnvVarFromValue "STORAGE_CONTAINER" storageContainer;
    getEnvVarFromField "POD_NAME" "metadata.name";
    getEnvVarFromField "POD_NAMESPACE" "metadata.namespace" ].

(** The event query [fetchPVCEventsFor] makes for a volume claim: its
    warnings, two at most. *)
Definition eventQuery (pvc : PersistentVolumeClaim) : Call :=
  CallFetchEventMessages pvc EventTypeWarning 2.

(** The event queries for the volume claims [items] of a namespace, when
    none of them fails: template by template, one for each pending claim
    of the template, in the order of the list. *)
Definition eventQueries (ssName : string)
    (volumeClaims items : list PersistentVolumeClaim) : list Call :=
  flat_map
    (fun volumeClaim =>
       map eventQuery
         (List.filter
            (pendingClaimOf ssName (om_Name (pvc_ObjectMeta volumeClaim)))
            items))
    volumeClaims.

(** [c] is an event query for a claim of the namespace that is pending
    for one of the templates of the object. *)
Definition pendingClaimQuery (ssName : string)
    (volumeClaims items : list PersistentVolumeClaim) (c : Call) : Prop :=
  exists pvc volumeClaim,
    c = eventQuery pvc /\ In volumeClaim volumeClaims /\ In pvc items /\
    pendingClaimOf ssName (om_Name (pvc_ObjectMeta volumeClaim)) pvc = true.

(** The verdict of a tick of [Wait] and of a tick of [WaitCleanup] on the
    answer to its fetch: whether the loop is done, and with which error. *)
Definition waitVerdict (val : Values) (r : StatefulSet + error)
  : bool * option error :=
  match r with
  | inl found =>
      match CheckStatefulSet (Replicas val)
              (client.identifiedBy (objectKey val) found) with
      | Some e => retry.MinorError e
      | None => retry.Ok
      end
  | inr e => if IsNotFound (Some e) then retry.MinorError e
             else retry.SevereError e
  end.

Definition cleanupVerdict (r : StatefulSet + error) : bool * option error :=
  match r with
  | inl _ => (false, None)
  | inr e => if IsNotFound (Some e) then retry.Ok else retry.SevereError e
  end.

(** The calls that only read from the platform. *)
Definition isRead (c : Call) : bool :=
  match c with
  | CallGet _ | CallList _ | CallFetchEventMessages _ _ _ => true
  | _ => false
  end.

(** The object a call writes or deletes, by its key. *)
Definition writtenKey (c : Call) : option ObjectKey :=
  match c with
  | CallCreate obj => Some (client.ObjectKeyFromObject obj)
  | CallPatch obj _ => Some (client.ObjectKeyFromObject obj)
  | CallDelete key => Some key
  | _ => None
  end.

(** What [fetchPVCEventsFor] appends for a claim whose event query
    answered [messages]. *)
Definition claimWarning (pvc : PersistentVolumeClaim) (messages : string) : string :=
  if negb (String.eqb messages "")
  then "Warning for PVC " +:+ om_Name (pvc_ObjectMeta pvc) +:+ ":" +:+ nl +:+
       messages +:+ nl
  else "".

(** The warnings of the pending claims of one template, in the order of
    [items], on a platform where the event queries answer. *)
Fixpoint claimWarnings (p : Platform) (ssName volumeClaimName : string)
    (items : list PersistentVolumeClaim) : string :=
  match items with
  | [] => ""
  | pvc :: items' =>
      (if pendingClaimOf ssName volumeClaimName pvc
       then match eventMessages p pvc EventTypeWarning 2 with
            | inl messages => claimWarning pvc messages
            | inr _ => ""
            end
       else "") +:+ claimWarnings p ssName volumeClaimName items'
  end.

Fixpoint templateWarnings (p : Platform) (ssName : string)
    (volumeClaims items : list PersistentVolumeClaim) : string :=
  match volumeClaims with
  | [] => ""
  | volumeClaim :: volumeClaims' =>
      claimWarnings p ssName (om_Name (pvc_ObjectMeta volumeClaim)) items +:+
      templateWarnings p ssName volumeClaims' items
  end.

(** Whether the event query for a claim answers without an error. *)
Definition answered (p : Platform) (pvc : PersistentVolumeClaim) : bool :=
  match eventMessages p pvc EventTypeWarning 2 with
  | inl _ => true
  | inr _ => false
  end.

(** *** Facts about the composer *)

(** [getVolumes] panics exactly on a local store without a container. *)
Lemma getVolumes_None_iff (val : Values) :
  getVolumes val = None <->
  exists store,
    BackupStore val = Some store /\
    StorageProviderFromInfraProvider (Provider store) = ("Local", None) /\
    Container_ store = None.
Proof.
  unfold getVolumes.
  destruct (BackupStore val) as [store|]; [|split; [discriminate|intros (? & ? & _); discriminate]].
  destruct (StorageProviderFromInfraProvider (Provider store)) as [p [e|]] eqn:Hres.
  - split; [discriminate|]. intros (s' & Hs & Hp & _).
    injection Hs as <-. rewrite Hres in Hp. discriminate.
  - destruct (String.eqb p "Local") eqn:Hp.
    + apply String.eqb_eq in Hp. subst p.
      destruct (Container_ store) eqn:Hc.
      * split; [discriminate|]. intros (s' & Hs & _ & Hn).
        injection Hs as <-. congruence.
      * split; [|reflexivity]. intros _. exists store. auto.
    + assert (Hne : p <> "Local") by (apply String.eqb_neq; exact Hp).
      destruct (oneOf p _);
        (split; [discriminate|]; intros (s' & Hs & Hp' & _);
         injection Hs as <-; rewrite Hres in Hp'; congruence).
Qed.

Lemma composeStatefulset_None_iff (val : Values) (sts : StatefulSet) :
  composeStatefulset val sts = None <-> getVolumes val = None.
Proof.
  unfold composeStatefulset. destruct (getVolumes val); simpl; split; congruence.
Qed.

(** Claim C6, as amended: whenever the composer yields an object, its pod
    template has exactly the two containers [etcd] and [backup-restore];
    the [etcd] container carries a readiness and a liveness exec probe
    with initial delay 15, period 5 and failure threshold 5, whatever the
    snapshot; the [backup-restore] container carries no probe. *)
Theorem probes_of_composed_containers (val : Values) (sts obj : StatefulSet) :
  composeStatefulset val sts = Some obj ->
  exists etcd sidecar,
    ps_Containers (pts_Spec (ss_Template (sts_Spec obj))) = [etcd; sidecar] /\
    c_Name etcd = "etcd" /\
    c_Name sidecar = "backup-restore" /\
    c_ReadinessProbe etcd =
      Some {| probe_Exec := Some {| exec_Command := ReadinessProbeCommand val |};
              probe_InitialDelaySeconds := 15;
              probe_PeriodSeconds := 5;
              probe_FailureThreshold := 5 |} /\
    c_LivenessProbe etcd =
      Some {| probe_Exec := Some {| exec_Command := LivenessProbCommand val |};
              probe_InitialDelaySeconds := 15;
              probe_PeriodSeconds := 5;
              probe_FailureThreshold := 5 |} /\
    c_ReadinessProbe sidecar = None /\
    c_LivenessProbe sidecar = None.
Proof.
  unfold composeStatefulset. intros H.
  destruct (getVolumes val) as [volumes|]; [|discriminate].
  simpl in H. injection H as <-. simpl.
  eexists _, _. split; [reflexivity|]. simpl. repeat split.
Qed.

(** The one call [syncStatefulset] makes once the object is composed. *)
Lemma syncStatefulset_composed (val : Values) (sts obj : StatefulSet) (w : World) :
  composeStatefulset val sts = Some obj ->
  syncStatefulset val sts w =
    if 0 <? om_Generation (sts_ObjectMeta sts)
    then (Some (patchResult (platform w) obj sts), logged (CallPatch obj sts) w)
    else (Some (createResult (platform w) obj), logged (CallCreate obj) w).
Proof.
  intros H. unfold syncStatefulset, bind, lift. rewrite H.
  destruct (0 <? _); reflexivity.
Qed.

Lemma syncStatefulset_panics (val : Values) (sts : StatefulSet) (w : World) :
  composeStatefulset val sts = None ->
  syncStatefulset val sts w = (None, w).
Proof.
  intros H. unfold syncStatefulset, bind, lift. rewrite H. reflexivity.
Qed.

(** Claim C7: the selector of a composed object is exactly
    [{name: "etcd", instance: <name>}]; it depends on the name of the
    snapshot alone, so two snapshots with the same name (whatever their
    labels) give the same selector; a user label overrides a system label
    in the labels of the object and of the pod template, and not in the
    selector; and the object a synchronize call submits, as a create or
    as a patch, is the composed one, with this selector. *)
Theorem selector_is_the_identity_labels
    (val : Values) (sts obj : StatefulSet) :
  composeStatefulset val sts = Some obj ->
  ss_Selector (sts_Spec obj) =
    Some {| ls_MatchLabels := {[ "name" := "etcd"; "instance" := Name val ]} |} /\
  (forall (val' : Values) (sts' obj' : StatefulSet),
      Name val' = Name val ->
      composeStatefulset val' sts' = Some obj' ->
      ss_Selector (sts_Spec obj') = ss_Selector (sts_Spec obj)) /\
  (forall (k v : string),
      Labels val !! k = Some v ->
      om_Labels (sts_ObjectMeta obj) !! k = Some v /\
      om_Labels (pts_ObjectMeta (ss_Template (sts_Spec obj))) !! k = Some v) /\
  (forall (k : string),
      Labels val !! k = None ->
      om_Labels (sts_ObjectMeta obj) !! k =
        ({[ "name" := "etcd"; "instance" := Name val ]} : gmap string string) !! k) /\
  (forall (w : World),
      calls (snd (syncStatefulset val sts w)) =
        calls w ++ [ if 0 <? om_Generation (sts_ObjectMeta sts)
                     then CallPatch obj sts else CallCreate obj ]).
Proof.
  intros H. pose proof H as Hc. unfold composeStatefulset in H.
  destruct (getVolumes val) as [volumes|]; [|discriminate].
  simpl in H. injection H as <-.
  split; [reflexivity|]. split.
  { intros val' sts' obj' Hn H'. unfold composeStatefulset in H'.
    destruct (getVolumes val') as [volumes'|]; [|discriminate].
    simpl in H'. injection H' as <-. simpl.
    unfold getCommonLabels. rewrite Hn. reflexivity. }
  split.
  { intros k v Hk. simpl. unfold utils.MergeStringMaps.
    split; apply lookup_union_Some_l; exact Hk. }
  split.
  { intros k Hk. simpl. unfold utils.MergeStringMaps, getCommonLabels.
    rewrite lookup_union_r by exact Hk. reflexivity. }
  intros w. rewrite (syncStatefulset_composed _ _ _ _ Hc).
  destruct (0 <? _); reflexivity.
Qed.

(** Claim C8: when the backup store resolves to ECS, the environment of
    the [backup-restore] container of the composed object is the three
    common variables followed by exactly [ECS_ENDPOINT],
    [ECS_ACCESS_KEY_ID] and [ECS_SECRET_ACCESS_KEY], each a reference to
    the key [endpoint], [accessKeyID] and [secretAccessKey] of the store's
    secret, and the volumes of the pod and the volume mounts of the
    container are those of the snapshot without a store: no volume is
    named [etcd-backup] and nothing is mounted at the paths of the
    credentials files. When it resolves to S3, ABS, GCS, Swift, OSS
    or OCS, the volumes are those of the snapshot without a store followed
    by the volume [etcd-backup] backed by the store's secret, the
    container mounts it at a fixed path, and its environment is the
    common variables followed by one application-credentials variable
    with a fixed path as its value. *)
Theorem provider_credentials
    (val : Values) (store : StoreSpec) (p : string) (sts obj : StatefulSet) :
  BackupStore val = Some store ->
  StorageProviderFromInfraProvider (Provider store) = (p, None) ->
  composeStatefulset val sts = Some obj ->
  let pod := pts_Spec (ss_Template (sts_Spec obj)) in
  let secret := sr_Name (SecretRef store) in
  let fromSecret := fun name key =>
    {| env_Name := name; env_Value := "";
       env_ValueFrom :=
         Some {| evs_FieldRef := None;
                 evs_SecretKeyRef :=
                   Some {| sks_Name := secret; sks_Key := key |} |} |} in
  let fromField := fun name path =>
    {| env_Name := name; env_Value := "";
       env_ValueFrom :=
         Some {| evs_FieldRef := Some {| ofs_FieldPath := path |};
                 evs_SecretKeyRef := None |} |} in
  let common :=
    [ {| env_Name := "STORAGE_CONTAINER";
         env_Value := StringDeref (Container_ store) "";
         env_ValueFrom := None |};
      fromField "POD_NAME" "metadata.name";
      fromField "POD_NAMESPACE" "metadata.namespace" ] in
  exists etcd sidecar,
    ps_Containers pod = [etcd; sidecar] /\
    c_Name sidecar = "backup-restore" /\
    (p = utils.ECS ->
       c_Env sidecar =
         common ++
         [ fromSecret "ECS_ENDPOINT" "endpoint";
           fromSecret "ECS_ACCESS_KEY_ID" "accessKeyID";
           fromSecret "ECS_SECRET_ACCESS_KEY" "secretAccessKey" ] /\
       Some (ps_Volumes pod) = getVolumes (withBackupStore val None) /\
       c_VolumeMounts sidecar =
         getBackupRestoreVolumeMounts (withBackupStore val None) /\
       ~ In "etcd-backup" (map vol_Name (ps_Volumes pod)) /\
       (forall m, In m (c_VolumeMounts sidecar) ->
          vm_MountPath m <> "/root/etcd-backup/" /\
          vm_MountPath m <> "/root/.gcp/")) /\
    (In p [utils.S3; utils.ABS; utils.GCS; utils.Swift; utils.OSS; utils.OCS] ->
       exists base name path mountPath,
         getVolumes (withBackupStore val None) = Some base /\
         ps_Volumes pod =
           base ++
           [ {| vol_Name := "etcd-backup";
                vol_VolumeSource :=
                  {| vs_HostPath := None;
                     vs_Secret := Some {| svs_SecretName := secret |};
                     vs_ConfigMap := None |} |} ] /\
         c_VolumeMounts sidecar =
           getBackupRestoreVolumeMounts (withBackupStore val None) ++
           [ {| vm_Name := "etcd-backup"; vm_MountPath := mountPath |} ] /\
         c_Env sidecar =
           common ++
           [ {| env_Name := name; env_Value := path; env_ValueFrom := None |} ] /\
         In (p, name, path, mountPath)
           [ (utils.S3, "AWS_APPLICATION_CREDENTIALS", "/root/etcd-backup",
               "/root/etcd-backup/");
             (utils.ABS, "AZURE_APPLICATION_CREDENTIALS", "/root/etcd-backup",
               "/root/etcd-backup/");
             (utils.GCS, "GOOGLE_APPLICATION_CREDENTIALS",
               "/root/.gcp/serviceaccount.json", "/root/.gcp/");
             (utils.Swift, "OPENSTACK_APPLICATION_CREDENTIALS",
               "/root/etcd-backup", "/root/etcd-backup/");
             (utils.OSS, "ALICLOUD_APPLICATION_CREDENTIALS",
               "/root/etcd-backup", "/root/etcd-backup/");
             (utils.OCS, "OPENSHIFT_APPLICATION_CREDENTIALS",
               "/root/etcd-backup", "/root/etcd-backup/") ]).
Proof.
  intros Hs Hr H. unfold composeStatefulset in H.
  destruct (getVolumes val) as [volumes|] eqn:Hv; [|discriminate].
  simpl in H. injection H as <-. cbv zeta.
  eexists _, _. split; [reflexivity|]. split; [reflexivity|].
  cbn [c_Env c_VolumeMounts ps_Volumes pts_Spec ss_Template sts_Spec].
  unfold getVolumes in Hv. rewrite Hs, Hr in Hv.
  unfold getBackupRestoreEnvVars, getVolumes, getBackupRestoreVolumeMounts.
  rewrite Hs, Hr.
  cbn [BackupStore withBackupStore ClientUrlTLS PeerUrlTLS ConfigMapName
       VolumeClaimTemplateName].
  split.
  - intros ->. simpl in Hv. injection Hv as <-. simpl.
    split; [reflexivity|]. split; [reflexivity|]. split; [reflexivity|].
    unfold getSecretVolumeMounts, notNil.
    destruct (ClientUrlTLS val); destruct (PeerUrlTLS val); simpl;
      (split;
       [intros Hin;
        repeat (destruct Hin as [Hin|Hin]; [discriminate|]); destruct Hin
       |intros m Hin;
        repeat (destruct Hin as [<-|Hin]; [split; discriminate|]);
        destruct Hin]).
  - intros Hin. simpl in Hin.
    destruct Hin as [<-|[<-|[<-|[<-|[<-|[<-|[]]]]]]];
      simpl in Hv; injection Hv as <-; simpl;
      eexists _, _, _, _;
      (split; [reflexivity|]); (split; [reflexivity|]);
      (split; [reflexivity|]); (split; [reflexivity|]);
      simpl; auto 12.
Qed.

(** *** Facts about the retry loop *)

Lemma fetches_advanced d w : fetches (advanced d w) = fetches w.
Proof. reflexivity. Qed.

Lemma now_advanced d w : now (advanced d w) = now w + d.
Proof. reflexivity. Qed.

Lemma calls_advanced d w : calls (advanced d w) = calls w.
Proof. reflexivity. Qed.

Lemma platform_advanced d w : platform (advanced d w) = platform w.
Proof. reflexivity. Qed.

Lemma polled_platform key i k w : platform (polled key i k w) = platform w.
Proof. revert w. induction k as [|k IH]; intros w; simpl; [|rewrite IH]; reflexivity. Qed.

Lemma polled_fetches key i k w :
  fetches (polled key i k w) = (fetches w + k)%nat.
Proof.
  revert w. induction k as [|k IH]; intros w; simpl; [lia|].
  rewrite IH. simpl. lia.
Qed.

Lemma polled_now key i k w : now (polled key i k w) = now w + Z.of_nat k * i.
Proof.
  revert w. induction k as [|k IH]; intros w; [simpl; lia|].
  change (polled key i (S k) w) with (polled key i k (advanced i (fetched key w))).
  rewrite IH. simpl now. lia.
Qed.

Lemma polled_calls key i k w :
  calls (polled key i k w) = calls w ++ repeat (CallGet key) k.
Proof.
  revert w. induction k as [|k IH]; intros w; simpl.
  - rewrite app_nil_r. reflexivity.
  - rewrite IH. simpl. rewrite <- app_assoc. reflexivity.
Qed.

Section Until.

Context {S : Type}.
Variable f : S -> M (S * (bool * option error)).

Lemma Until_done n i rem s m w s' err w' :
  f s w = (Some (s', (true, err)), w') ->
  retry.Until n i rem f s m w = (Some (s', err), w').
Proof.
  intros H. destruct n; simpl; unfold bind; rewrite H; destruct err; reflexivity.
Qed.

Lemma Until_retry n i rem s m w s' err w' :
  f s w = (Some (s', (false, err)), w') ->
  retry.Until (Datatypes.S n) i rem f s m w =
    retry.Until n i (rem - i) f s'
      (match err with Some e => Some e | None => m end) (advanced i w').
Proof.
  intros H. simpl. unfold bind at 1. rewrite H. destruct err; reflexivity.
Qed.

Lemma Until_deadline i rem s m w s' err w' :
  f s w = (Some (s', (false, err)), w') ->
  retry.Until 0 i rem f s m w =
    (Some (s', Some (retryError DeadlineExceeded
                       (match err with Some e => Some e | None => m end))),
     advanced rem w').
Proof.
  intros H. simpl. unfold bind at 1. rewrite H. destruct err; reflexivity.
Qed.

End Until.

Lemma attempts_default : retry.attemptsAfterFirst (5 * Second) (90 * Second) = 17%nat.
Proof. reflexivity. Qed.

(** *** Facts about the two waiters *)

Lemma emptyStatefulset_key (val : Values) :
  client.ObjectKeyFromObject (emptyStatefulset val) = objectKey val.
Proof. reflexivity. Qed.

Lemma identifiedBy_key (key : ObjectKey) (obj : StatefulSet) :
  client.ObjectKeyFromObject (client.identifiedBy key obj) = key.
Proof. destruct key; reflexivity. Qed.

(** One tick of [WaitCleanup]: one fetch, and a verdict that depends on
    its answer alone. *)
Lemma waitCleanupStep_eq (val : Values) (u : unit) (w : World) :
  waitCleanupStep val u w =
    (Some (tt, match getResult (platform w) (fetches w) with
               | inl _ => (false, None)
               | inr e => if IsNotFound (Some e) then retry.Ok
                          else retry.SevereError e
               end),
     fetched (objectKey val) w).
Proof.
  unfold waitCleanupStep, bind, client.Get. rewrite emptyStatefulset_key.
  destruct (getResult (platform w) (fetches w)) as [found|e]; [reflexivity|].
  destruct (IsNotFound (Some e)); reflexivity.
Qed.

(** One tick of [Wait]. *)
Lemma waitStep_eq (val : Values) (sts : StatefulSet) (w : World) :
  client.ObjectKeyFromObject sts = objectKey val ->
  waitStep val sts w =
    (Some (match getResult (platform w) (fetches w) with
           | inl found =>
               let sts' := client.identifiedBy (objectKey val) found in
               (sts', match CheckStatefulSet (Replicas val) sts' with
                      | Some e => retry.MinorError e
                      | None => retry.Ok
                      end)
           | inr e =>
               (sts, if IsNotFound (Some e) then retry.MinorError e
                     else retry.SevereError e)
           end),
     fetched (objectKey val) w).
Proof.
  intros Hk. unfold waitStep, bind, client.Get. rewrite Hk.
  destruct (getResult (platform w) (fetches w)) as [found|e].
  - simpl. destruct (CheckStatefulSet _ _); reflexivity.
  - cbv beta iota. destruct (IsNotFound (Some e)); reflexivity.
Qed.

Ltac shift_ticks H :=
  let j := fresh "j" in
  let Hj := fresh "Hj" in
  intros j Hj; simpl; rewrite <- Nat.add_succ_r; apply H; lia.

(** [WaitCleanup] polls as long as the object is present and ends at the
    first fetch that does not return it: with success when the answer is
    not-found, with the error otherwise. *)
Lemma waitCleanup_loop_ends (val : Values) (i : Z) (k : nat) :
  forall (n : nat) (rem : Z) (m : option error) (w : World),
    (k <= n)%nat ->
    (forall j, (j < k)%nat ->
       presentFetch (getResult (platform w) (fetches w + j)) = true) ->
    presentFetch (getResult (platform w) (fetches w + k)) = false ->
    retry.Until n i rem (waitCleanupStep val) tt m w =
      (Some (tt, severeFetch (getResult (platform w) (fetches w + k))),
       fetched (objectKey val) (polled (objectKey val) i k w)).
Proof.
  induction k as [|k IH]; intros n rem m w Hn Hpre Hk.
  - rewrite Nat.add_0_r in Hk |- *. simpl polled.
    destruct (getResult (platform w) (fetches w)) as [found|e] eqn:Hr;
      [discriminate|].
    unfold severeFetch.
    apply Until_done. rewrite waitCleanupStep_eq, Hr.
    destruct (IsNotFound (Some e)); reflexivity.
  - destruct n as [|n]; [lia|].
    pose proof (Hpre 0%nat ltac:(lia)) as H0. rewrite Nat.add_0_r in H0.
    destruct (getResult (platform w) (fetches w)) as [found|e] eqn:Hr;
      [|discriminate].
    rewrite (Until_retry _ n i rem tt m w tt None (fetched (objectKey val) w))
      by (rewrite waitCleanupStep_eq, Hr; reflexivity).
    rewrite (IH n (rem - i) m (advanced i (fetched (objectKey val) w)));
      [ simpl; rewrite <- Nat.add_succ_r; reflexivity
      | lia
      | shift_ticks Hpre
      | simpl; rewrite <- Nat.add_succ_r; exact Hk ].
Qed.

(** When the object is still present at every attempt, [WaitCleanup] ends
    at the deadline with the error of the retry package. *)
Lemma waitCleanup_loop_deadline (val : Values) (i : Z) (n : nat) :
  forall (rem : Z) (m : option error) (w : World),
    (forall j, (j <= n)%nat ->
       presentFetch (getResult (platform w) (fetches w + j)) = true) ->
    retry.Until n i rem (waitCleanupStep val) tt m w =
      (Some (tt, Some (retryError DeadlineExceeded m)),
       advanced (rem - Z.of_nat n * i)
         (fetched (objectKey val) (polled (objectKey val) i n w))).
Proof.
  induction n as [|n IH]; intros rem m w Hpre.
  - pose proof (Hpre 0%nat ltac:(lia)) as H0. rewrite Nat.add_0_r in H0.
    destruct (getResult (platform w) (fetches w)) as [found|e] eqn:Hr;
      [|discriminate].
    rewrite (Until_deadline _ i rem tt m w tt None (fetched (objectKey val) w))
      by (rewrite waitCleanupStep_eq, Hr; reflexivity).
    simpl polled. do 2 f_equal. lia.
  - pose proof (Hpre 0%nat ltac:(lia)) as H0. rewrite Nat.add_0_r in H0.
    destruct (getResult (platform w) (fetches w)) as [found|e] eqn:Hr;
      [|discriminate].
    rewrite (Until_retry _ n i rem tt m w tt None (fetched (objectKey val) w))
      by (rewrite waitCleanupStep_eq, Hr; reflexivity).
    rewrite (IH (rem - i) m (advanced i (fetched (objectKey val) w)));
      [| intros j Hj; simpl; rewrite <- Nat.add_succ_r; apply Hpre; lia ].
    simpl polled. do 2 f_equal. lia.
Qed.

(** A tick of [Wait] whose fetch is a minor failure: the loop goes on,
    with the error as the last minor one. *)
Lemma waitStep_minor (val : Values) (sts : StatefulSet) (w : World) :
  client.ObjectKeyFromObject sts = objectKey val ->
  minorFetch val (getResult (platform w) (fetches w)) = true ->
  exists sts' e,
    waitStep val sts w =
      (Some (sts', (false, Some e)), fetched (objectKey val) w) /\
    client.ObjectKeyFromObject sts' = objectKey val.
Proof.
  intros Hk Hm. rewrite (waitStep_eq _ _ _ Hk).
  destruct (getResult (platform w) (fetches w)) as [found|e]; unfold minorFetch in Hm.
  - cbv zeta.
    destruct (CheckStatefulSet _ _) as [e|]; [|discriminate].
    eexists _, e. split; [reflexivity|apply identifiedBy_key].
  - rewrite Hm. exists sts, e. split; [reflexivity|exact Hk].
Qed.

(** A tick of [Wait] whose fetch is not a minor failure ends the loop:
    with success when the object is ready, with the fetch error
    otherwise. *)
Lemma waitStep_final (val : Values) (sts : StatefulSet) (w : World) :
  client.ObjectKeyFromObject sts = objectKey val ->
  minorFetch val (getResult (platform w) (fetches w)) = false ->
  exists sts',
    waitStep val sts w =
      (Some (sts', (true, severeFetch (getResult (platform w) (fetches w)))),
       fetched (objectKey val) w).
Proof.
  intros Hk Hm. rewrite (waitStep_eq _ _ _ Hk).
  destruct (getResult (platform w) (fetches w)) as [found|e]; unfold minorFetch in Hm.
  - cbv zeta.
    destruct (CheckStatefulSet _ _) as [e|]; [discriminate|].
    eexists. reflexivity.
  - unfold severeFetch. rewrite Hm. exists sts. reflexivity.
Qed.

Lemma wait_loop_ends (val : Values) (i : Z) (k : nat) :
  forall (n : nat) (rem : Z) (m : option error) (w : World) (sts : StatefulSet),
    client.ObjectKeyFromObject sts = objectKey val ->
    (k <= n)%nat ->
    (forall j, (j < k)%nat ->
       minorFetch val (getResult (platform w) (fetches w + j)) = true) ->
    minorFetch val (getResult (platform w) (fetches w + k)) = false ->
    exists sts',
      retry.Until n i rem (waitStep val) sts m w =
        (Some (sts', severeFetch (getResult (platform w) (fetches w + k))),
         fetched (objectKey val) (polled (objectKey val) i k w)).
Proof.
  induction k as [|k IH]; intros n rem m w sts Hkey Hn Hpre Hk.
  - rewrite Nat.add_0_r in Hk |- *. simpl polled.
    destruct (waitStep_final _ _ _ Hkey Hk) as (sts' & Hstep).
    exists sts'. apply Until_done. exact Hstep.
  - destruct n as [|n]; [lia|].
    pose proof (Hpre 0%nat ltac:(lia)) as H0. rewrite Nat.add_0_r in H0.
    destruct (waitStep_minor _ _ _ Hkey H0) as (sts1 & e & Hstep & Hkey1).
    rewrite (Until_retry _ n i rem sts m w _ _ _ Hstep).
    destruct (IH n (rem - i) (Some e)
                (advanced i (fetched (objectKey val) w)) sts1 Hkey1)
      as (sts' & Hrun);
      [ lia
      | shift_ticks Hpre
      | simpl; rewrite <- Nat.add_succ_r; exact Hk
      | ].
    exists sts'. rewrite Hrun. simpl. rewrite <- Nat.add_succ_r. reflexivity.
Qed.

Lemma wait_loop_deadline (val : Values) (i : Z) (n : nat) :
  forall (rem : Z) (m : option error) (w : World) (sts : StatefulSet),
    client.ObjectKeyFromObject sts = objectKey val ->
    (forall j, (j <= n)%nat ->
       minorFetch val (getResult (platform w) (fetches w + j)) = true) ->
    exists sts' e,
      retry.Until n i rem (waitStep val) sts m w =
        (Some (sts', Some (retryError DeadlineExceeded (Some e))),
         advanced (rem - Z.of_nat n * i)
           (fetched (objectKey val) (polled (objectKey val) i n w))).
Proof.
  induction n as [|n IH]; intros rem m w sts Hkey Hpre.
  - pose proof (Hpre 0%nat ltac:(lia)) as H0. rewrite Nat.add_0_r in H0.
    destruct (waitStep_minor _ _ _ Hkey H0) as (sts1 & e & Hstep & Hkey1).
    exists sts1, e. rewrite (Until_deadline _ i rem sts m w _ _ _ Hstep).
    simpl polled. do 2 f_equal. lia.
  - pose proof (Hpre 0%nat ltac:(lia)) as H0. rewrite Nat.add_0_r in H0.
    destruct (waitStep_minor _ _ _ Hkey H0) as (sts1 & e & Hstep & Hkey1).
    rewrite (Until_retry _ n i rem sts m w _ _ _ Hstep).
    destruct (IH (rem - i) (Some e)
                (advanced i (fetched (objectKey val) w)) sts1 Hkey1)
      as (sts' & e' & Hrun);
      [ intros j Hj; simpl; rewrite <- Nat.add_succ_r; apply Hpre; lia | ].
    exists sts', e'. rewrite Hrun. simpl polled. do 2 f_equal. lia.
Qed.

Lemma UntilTimeout_default {S : Type}
    (f : S -> M (S * (bool * option error))) (s : S) :
  retry.UntilTimeout defaultInterval defaultTimeout f s =
    retry.Until 17 defaultInterval defaultTimeout f s None.
Proof. reflexivity. Qed.

Lemma readyFetch_final (val : Values) (r : StatefulSet + error) :
  readyFetch val r = true -> minorFetch val r = false /\ severeFetch r = None.
Proof.
  destruct r as [found|e]; simpl; [|discriminate].
  destruct (CheckStatefulSet _ _); simpl; [discriminate|auto].
Qed.

Lemma severeFetch_final (val : Values) (r : StatefulSet + error) (e : error) :
  severeFetch r = Some e -> minorFetch val r = false /\ presentFetch r = false.
Proof.
  destruct r as [found|e']; unfold severeFetch, minorFetch; [discriminate|].
  destruct (IsNotFound (Some e')); [discriminate|auto].
Qed.

Lemma absentFetch_final (r : StatefulSet + error) :
  absentFetch r = true -> presentFetch r = false /\ severeFetch r = None.
Proof.
  destruct r as [found|e]; unfold absentFetch, severeFetch; [discriminate|].
  intros ->. auto.
Qed.

(** The world [k] fruitless ticks and one more fetch after [w]. *)
Lemma fetched_polled_facts (key : ObjectKey) (i : Z) (k : nat) (w : World) :
  let w' := fetched key (polled key i k w) in
  platform w' = platform w /\
  fetches w' = (fetches w + k + 1)%nat /\
  now w' = now w + Z.of_nat k * i /\
  calls w' = calls w ++ repeat (CallGet key) (k + 1).
Proof.
  simpl. rewrite polled_platform, polled_fetches, polled_now, polled_calls.
  repeat split; [lia|].
  rewrite <- app_assoc. f_equal.
  rewrite Nat.add_1_r. symmetry. apply repeat_cons.
Qed.

(** Claim C9: a tick of the teardown waiter fetches the object by its key;
    not-found ends the wait with success, a present object continues it,
    any other error ends it with that error. So the wait succeeds at the
    first tick whose fetch is not-found, after as many fetches as ticks
    and a wait of 5 seconds between two ticks; in particular it succeeds
    at the second tick when the object is present at the first and gone
    at the second. When the object stays present for all 18 ticks of the
    90 seconds, the wait ends with the deadline error, 90 seconds after
    it began. *)
Theorem teardown_waiter (val : Values) :
  (defaultInterval = 5 * Second /\ defaultTimeout = 90 * Second) /\
  (forall w : World,
      waitCleanupStep val tt w =
        (Some (tt, match getResult (platform w) (fetches w) with
                   | inl _ => (false, None)
                   | inr e => if IsNotFound (Some e) then (true, None)
                              else (true, Some e)
                   end),
         fetched (objectKey val) w)) /\
  (forall (k : nat) (w : World),
      (k <= 17)%nat ->
      (forall j, (j < k)%nat ->
         presentFetch (getResult (platform w) (fetches w + j)) = true) ->
      absentFetch (getResult (platform w) (fetches w + k)) = true ->
      let w' := fetched (objectKey val) (polled (objectKey val) defaultInterval k w) in
      WaitCleanup val w = (Some None, w') /\
      fetches w' = (fetches w + k + 1)%nat /\
      now w' = now w + Z.of_nat k * (5 * Second) /\
      calls w' = calls w ++ repeat (CallGet (objectKey val)) (k + 1)) /\
  (forall (k : nat) (w : World) (e : error),
      (k <= 17)%nat ->
      (forall j, (j < k)%nat ->
         presentFetch (getResult (platform w) (fetches w + j)) = true) ->
      severeFetch (getResult (platform w) (fetches w + k)) = Some e ->
      let w' := fetched (objectKey val) (polled (objectKey val) defaultInterval k w) in
      WaitCleanup val w = (Some (Some e), w') /\
      fetches w' = (fetches w + k + 1)%nat /\
      now w' = now w + Z.of_nat k * (5 * Second)) /\
  (forall w : World,
      (forall j, (j <= 17)%nat ->
         presentFetch (getResult (platform w) (fetches w + j)) = true) ->
      exists w',
        WaitCleanup val w = (Some (Some (retryError DeadlineExceeded None)), w') /\
        fetches w' = (fetches w + 18)%nat /\
        now w' = now w + 90 * Second /\
        calls w' = calls w ++ repeat (CallGet (objectKey val)) 18).
Proof.
  split; [split; reflexivity|].
  split; [intros w; apply waitCleanupStep_eq|].
  split; [|split].
  - intros k w Hk Hpre Habs w'.
    destruct (absentFetch_final _ Habs) as (Hnp & Hsev).
    pose proof (fetched_polled_facts (objectKey val) defaultInterval k w)
      as (_ & Hf & Hn & Hc).
    split; [|auto].
    unfold WaitCleanup, bind. rewrite UntilTimeout_default.
    rewrite (waitCleanup_loop_ends val defaultInterval k 17%nat _ _ w Hk Hpre Hnp).
    rewrite Hsev. reflexivity.
  - intros k w e Hk Hpre Hsev w'.
    destruct (severeFetch_final val _ _ Hsev) as (_ & Hnp).
    pose proof (fetched_polled_facts (objectKey val) defaultInterval k w)
      as (_ & Hf & Hn & _).
    split; [|auto].
    unfold WaitCleanup, bind. rewrite UntilTimeout_default.
    rewrite (waitCleanup_loop_ends val defaultInterval k 17%nat _ _ w Hk Hpre Hnp).
    rewrite Hsev. reflexivity.
  - intros w Hpre.
    pose proof (fetched_polled_facts (objectKey val) defaultInterval 17 w)
      as (_ & Hf & Hn & Hc).
    eexists. split.
    + unfold WaitCleanup, bind. rewrite UntilTimeout_default.
      rewrite (waitCleanup_loop_deadline val defaultInterval 17%nat _ _ w Hpre).
      reflexivity.
    + cbv zeta in Hf, Hn, Hc.
      rewrite fetches_advanced, now_advanced, calls_advanced, Hf, Hn, Hc.
      change (Z.of_nat 17) with 17.
      unfold defaultTimeout, defaultInterval.
      repeat split; lia.
Qed.

(** Claim C4: a tick of the convergence waiter treats a not-found fetch
    as a minor failure, any other fetch error as a severe one, a fetched
    object that fails the readiness check as a minor failure and one
    that passes it as success. The wait succeeds at the first tick whose
    object is ready, the ticks before it being minor failures, after as
    many fetches as ticks and a wait of 5 seconds between two ticks; it
    stops at the first severe failure with that very error; and when all
    18 ticks of the 90 seconds are minor failures it ends with the
    deadline error. The interval is 5 seconds and the deadline 90. *)
Theorem convergence_waiter (val : Values) :
  (defaultInterval = 5 * Second /\ defaultTimeout = 90 * Second) /\
  (forall (sts : StatefulSet) (w : World),
      client.ObjectKeyFromObject sts = objectKey val ->
      waitStep val sts w =
        (Some (match getResult (platform w) (fetches w) with
               | inl found =>
                   let sts' := client.identifiedBy (objectKey val) found in
                   (sts', match CheckStatefulSet (Replicas val) sts' with
                          | Some e => retry.MinorError e
                          | None => retry.Ok
                          end)
               | inr e =>
                   (sts, if IsNotFound (Some e) then retry.MinorError e
                         else retry.SevereError e)
               end),
         fetched (objectKey val) w)) /\
  (forall (k : nat) (w : World),
      (k <= 17)%nat ->
      (forall j, (j < k)%nat ->
         minorFetch val (getResult (platform w) (fetches w + j)) = true) ->
      readyFetch val (getResult (platform w) (fetches w + k)) = true ->
      let w' := fetched (objectKey val) (polled (objectKey val) defaultInterval k w) in
      Wait val w = (Some None, w') /\
      fetches w' = (fetches w + k + 1)%nat /\
      now w' = now w + Z.of_nat k * (5 * Second) /\
      calls w' = calls w ++ repeat (CallGet (objectKey val)) (k + 1)) /\
  (forall (k : nat) (w : World) (e : error),
      (k <= 17)%nat ->
      (forall j, (j < k)%nat ->
         minorFetch val (getResult (platform w) (fetches w + j)) = true) ->
      severeFetch (getResult (platform w) (fetches w + k)) = Some e ->
      let w' := fetched (objectKey val) (polled (objectKey val) defaultInterval k w) in
      (exists sts', waitPoll val w = (Some (sts', Some e), w')) /\
      fetches w' = (fetches w + k + 1)%nat /\
      now w' = now w + Z.of_nat k * (5 * Second)) /\
  (forall w : World,
      (forall j, (j <= 17)%nat ->
         minorFetch val (getResult (platform w) (fetches w + j)) = true) ->
      exists sts' e w',
        waitPoll val w =
          (Some (sts', Some (retryError DeadlineExceeded (Some e))), w') /\
        fetches w' = (fetches w + 18)%nat /\
        now w' = now w + 90 * Second /\
        calls w' = calls w ++ repeat (CallGet (objectKey val)) 18).
Proof.
  split; [split; reflexivity|].
  split; [intros sts w Hk; apply waitStep_eq; exact Hk|].
  split; [|split].
  - intros k w Hk Hpre Hready w'.
    destruct (readyFetch_final _ _ Hready) as (Hnm & Hsev).
    pose proof (fetched_polled_facts (objectKey val) defaultInterval k w)
      as (_ & Hf & Hn & Hc).
    split; [|auto].
    destruct (wait_loop_ends val defaultInterval k 17%nat defaultTimeout None w
                (emptyStatefulset val) (emptyStatefulset_key val) Hk Hpre Hnm)
      as (sts' & Hrun).
    unfold Wait, bind, waitPoll. rewrite UntilTimeout_default, Hrun, Hsev.
    reflexivity.
  - intros k w e Hk Hpre Hsev w'.
    destruct (severeFetch_final val _ _ Hsev) as (Hnm & _).
    pose proof (fetched_polled_facts (objectKey val) defaultInterval k w)
      as (_ & Hf & Hn & _).
    split; [|auto].
    destruct (wait_loop_ends val defaultInterval k 17%nat defaultTimeout None w
                (emptyStatefulset val) (emptyStatefulset_key val) Hk Hpre Hnm)
      as (sts' & Hrun).
    exists sts'. unfold waitPoll. rewrite UntilTimeout_default, Hrun, Hsev.
    reflexivity.
  - intros w Hpre.
    pose proof (fetched_polled_facts (objectKey val) defaultInterval 17 w)
      as (_ & Hf & Hn & Hc).
    destruct (wait_loop_deadline val defaultInterval 17%nat defaultTimeout None w
                (emptyStatefulset val) (emptyStatefulset_key val) Hpre)
      as (sts' & e & Hrun).
    exists sts', e. eexists. split.
    + unfold waitPoll. rewrite UntilTimeout_default. exact Hrun.
    + cbv zeta in Hf, Hn, Hc.
      rewrite fetches_advanced, now_advanced, calls_advanced, Hf, Hn, Hc.
      change (Z.of_nat 17) with 17.
      unfold defaultTimeout, defaultInterval.
      repeat split; lia.
Qed.

(** *** Facts about the synchronizer *)

Lemma Get_eq (val : Values) (w : World) :
  Get val w =
    (Some (match getResult (platform w) (fetches w) with
           | inl found => (Some (client.identifiedBy (objectKey val) found), None)
           | inr e => (None, Some e)
           end),
     fetched (objectKey val) w).
Proof.
  unfold Get, bind, client.Get. rewrite emptyStatefulset_key.
  destruct (getResult (platform w) (fetches w)); reflexivity.
Qed.

Lemma Destroy_eq (val : Values) (w : World) :
  Destroy val w =
    (Some (IgnoreNotFound (deleteResult (platform w) (objectKey val))),
     logged (CallDelete (objectKey val)) w).
Proof.
  unfold Destroy, deleteStatefulset, client.Delete, bind, logCall, ret.
  rewrite emptyStatefulset_key. simpl platform.
  destruct (IgnoreNotFound _); reflexivity.
Qed.

Lemma OpDestroyAndWait_Destroy_eq (val : Values) (w : World) :
  OpDestroyAndWait_Destroy val w =
    match IgnoreNotFound (deleteResult (platform w) (objectKey val)) with
    | Some e => (Some (Some e), logged (CallDelete (objectKey val)) w)
    | None => WaitCleanup val (logged (CallDelete (objectKey val)) w)
    end.
Proof.
  unfold OpDestroyAndWait_Destroy, bind. rewrite Destroy_eq.
  destruct (IgnoreNotFound _); reflexivity.
Qed.

(** [Deploy], by the answer to its fetch. *)
Lemma Deploy_eq (val : Values) (w : World) :
  Deploy val w =
    match getResult (platform w) (fetches w) with
    | inr e =>
        if IsNotFound (Some e)
        then syncStatefulset val (emptyStatefulset val) (fetched (objectKey val) w)
        else (Some (Some e), fetched (objectKey val) w)
    | inl found =>
        let sts := client.identifiedBy (objectKey val) found in
        if migrates val sts
        then
          match OpDestroyAndWait_Destroy val (fetched (objectKey val) w) with
          | (Some (Some e), w') => (Some (Some e), w')
          | (Some None, w') => syncStatefulset val (emptyStatefulset val) w'
          | (None, w') => (None, w')
          end
        else syncStatefulset val sts (fetched (objectKey val) w)
    end.
Proof.
  unfold Deploy, bind at 1. rewrite Get_eq.
  destruct (getResult (platform w) (fetches w)) as [found|e].
  - cbv beta iota zeta. unfold migrates.
    change (notNil (@None error)) with false.
    cbv beta iota.
    change (false && negb (IsNotFound None)) with false. cbv iota.
    destruct (1 <? _); destruct (negb _);
      destruct (clusterScaledUpToMultiNode val); cbn [andb]; try reflexivity.
    unfold bind.
    destruct (OpDestroyAndWait_Destroy val _) as [[[e|]|] w']; reflexivity.
  - cbv beta iota zeta. change (notNil (Some e)) with true.
    destruct (IsNotFound (Some e)); reflexivity.
Qed.

(** What [syncStatefulset] does with the placeholder: a create. *)
Lemma syncStatefulset_placeholder (val : Values) (w : World) :
  syncStatefulset val (emptyStatefulset val) w =
    match composeStatefulset val (emptyStatefulset val) with
    | Some obj => (Some (createResult (platform w) obj), logged (CallCreate obj) w)
    | None => (None, w)
    end.
Proof.
  destruct (composeStatefulset val (emptyStatefulset val)) as [obj|] eqn:H.
  - rewrite (syncStatefulset_composed _ _ _ _ H). reflexivity.
  - apply syncStatefulset_panics. exact H.
Qed.

(** What it does with an object of a positive generation: a patch against
    that object. *)
Lemma syncStatefulset_existing (val : Values) (sts : StatefulSet) (w : World) :
  0 < om_Generation (sts_ObjectMeta sts) ->
  syncStatefulset val sts w =
    match composeStatefulset val sts with
    | Some obj =>
        (Some (patchResult (platform w) obj sts), logged (CallPatch obj sts) w)
    | None => (None, w)
    end.
Proof.
  intros Hg. destruct (composeStatefulset val sts) as [obj|] eqn:H.
  - rewrite (syncStatefulset_composed _ _ _ _ H).
    destruct (Z.ltb_spec 0 (om_Generation (sts_ObjectMeta sts))); [reflexivity|lia].
  - apply syncStatefulset_panics. exact H.
Qed.

(** Whatever the platform answers, the teardown wait returns, and all it
    does to the platform is fetch. *)
Lemma waitCleanup_loop_calls (val : Values) (i : Z) (n : nat) :
  forall (rem : Z) (m : option error) (w : World),
    exists r w' c,
      retry.Until n i rem (waitCleanupStep val) tt m w = (Some (tt, r), w') /\
      calls w' = calls w ++ repeat (CallGet (objectKey val)) c /\
      platform w' = platform w.
Proof.
  induction n as [|n IH]; intros rem m w;
    pose proof (waitCleanupStep_eq val tt w) as Hstep;
    destruct (getResult (platform w) (fetches w)) as [found|e].
  - eexists _, _, 1%nat.
    rewrite (Until_deadline _ i rem tt m w _ _ _ Hstep). auto.
  - destruct (IsNotFound (Some e));
      eexists _, _, 1%nat; rewrite (Until_done _ _ _ _ _ _ _ _ _ _ Hstep); auto.
  - rewrite (Until_retry _ n i rem tt m w _ _ _ Hstep).
    destruct (IH (rem - i) m (advanced i (fetched (objectKey val) w)))
      as (r & w' & c & Hrun & Hc & Hp).
    exists r, w', (S c). rewrite Hrun. split; [reflexivity|].
    rewrite Hc, Hp. rewrite calls_advanced. simpl.
    rewrite <- app_assoc. auto.
  - destruct (IsNotFound (Some e));
      eexists _, _, 1%nat; rewrite (Until_done _ _ _ _ _ _ _ _ _ _ Hstep); auto.
Qed.

Lemma WaitCleanup_calls (val : Values) (w : World) :
  exists r w' c,
    WaitCleanup val w = (Some r, w') /\
    calls w' = calls w ++ repeat (CallGet (objectKey val)) c /\
    platform w' = platform w.
Proof.
  destruct (waitCleanup_loop_calls val defaultInterval 17 defaultTimeout None w)
    as (r & w' & c & Hrun & Hc & Hp).
  exists r, w', c. unfold WaitCleanup, bind.
  rewrite UntilTimeout_default, Hrun. auto.
Qed.

(** Claim C2: when the fetch answers not-found, [Deploy] goes on with the
    placeholder, whose generation is 0, and the one call it makes after
    the fetch is the create of the object composed from it; when the
    fetch answers another error, [Deploy] returns that error and makes
    no other call; when the fetch answers an object of a positive
    generation that the migration check lets through, the one call after
    the fetch is a patch of the composed object against the fetched one.
    (Where the composer panics, no call follows the fetch.) *)
Theorem create_or_patch (val : Values) (w : World) :
  (forall e : error,
      getResult (platform w) (fetches w) = inr e ->
      IsNotFound (Some e) = true ->
      om_Generation (sts_ObjectMeta (emptyStatefulset val)) = 0 /\
      Deploy val w =
        match composeStatefulset val (emptyStatefulset val) with
        | Some obj =>
            (Some (createResult (platform w) obj),
             logged (CallCreate obj) (fetched (objectKey val) w))
        | None => (None, fetched (objectKey val) w)
        end) /\
  (forall e : error,
      getResult (platform w) (fetches w) = inr e ->
      IsNotFound (Some e) = false ->
      Deploy val w = (Some (Some e), fetched (objectKey val) w)) /\
  (forall found : StatefulSet,
      getResult (platform w) (fetches w) = inl found ->
      let sts := client.identifiedBy (objectKey val) found in
      migrates val sts = false ->
      0 < om_Generation (sts_ObjectMeta sts) ->
      Deploy val w =
        match composeStatefulset val sts with
        | Some obj =>
            (Some (patchResult (platform w) obj sts),
             logged (CallPatch obj sts) (fetched (objectKey val) w))
        | None => (None, fetched (objectKey val) w)
        end).
Proof.
  split; [|split].
  - intros e Hr Hnf. split; [reflexivity|].
    rewrite Deploy_eq, Hr, Hnf, syncStatefulset_placeholder.
    destruct (composeStatefulset _ _); reflexivity.
  - intros e Hr Hnf. rewrite Deploy_eq, Hr, Hnf. reflexivity.
  - intros found Hr sts Hm Hg. rewrite Deploy_eq, Hr. cbv zeta.
    fold sts. rewrite Hm, (syncStatefulset_existing _ _ _ Hg).
    destruct (composeStatefulset _ _); reflexivity.
Qed.

Lemma WaitCleanup_ends (val : Values) (k : nat) (w : World) :
  (k <= 17)%nat ->
  (forall j, (j < k)%nat ->
     presentFetch (getResult (platform w) (fetches w + j)) = true) ->
  presentFetch (getResult (platform w) (fetches w + k)) = false ->
  WaitCleanup val w =
    (Some (severeFetch (getResult (platform w) (fetches w + k))),
     fetched (objectKey val) (polled (objectKey val) defaultInterval k w)).
Proof.
  intros Hk Hpre Hnp. unfold WaitCleanup, bind. rewrite UntilTimeout_default.
  rewrite (waitCleanup_loop_ends val defaultInterval k 17%nat _ _ w Hk Hpre Hnp).
  reflexivity.
Qed.

Lemma WaitCleanup_deadline (val : Values) (w : World) :
  (forall j, (j <= 17)%nat ->
     presentFetch (getResult (platform w) (fetches w + j)) = true) ->
  WaitCleanup val w =
    (Some (Some (retryError DeadlineExceeded None)),
     advanced (defaultTimeout - 17 * defaultInterval)
       (fetched (objectKey val) (polled (objectKey val) defaultInterval 17 w))).
Proof.
  intros Hpre. unfold WaitCleanup, bind. rewrite UntilTimeout_default.
  rewrite (waitCleanup_loop_deadline val defaultInterval 17%nat _ _ w Hpre).
  reflexivity.
Qed.

Lemma migrates_true (val : Values) (sts : StatefulSet) :
  1 < om_Generation (sts_ObjectMeta sts) ->
  ss_ServiceName (sts_Spec sts) <> ServiceName val ->
  1 < Replicas val ->
  StatusReplicas val = 0 \/ StatusReplicas val = 1 ->
  migrates val sts = true.
Proof.
  intros Hg Hs Hr Hst. unfold migrates, clusterScaledUpToMultiNode.
  apply Z.ltb_lt in Hg, Hr. rewrite Hg, Hr.
  apply String.eqb_neq in Hs. rewrite Hs.
  destruct Hst as [->| ->]; reflexivity.
Qed.

Lemma migrates_false (val : Values) (sts : StatefulSet) :
  Replicas val = StatusReplicas val \/
  ss_ServiceName (sts_Spec sts) = ServiceName val ->
  migrates val sts = false.
Proof.
  unfold migrates, clusterScaledUpToMultiNode. intros [He|He].
  - rewrite <- He.
    destruct (Z.ltb_spec 1 (Replicas val)); simpl;
      [|rewrite andb_false_r; reflexivity].
    destruct (Z.eqb_spec (Replicas val) 0); [lia|].
    destruct (Z.eqb_spec (Replicas val) 1); [lia|].
    rewrite andb_false_r. reflexivity.
  - rewrite He, String.eqb_refl. simpl. rewrite andb_false_r. reflexivity.
Qed.

(** Claim C10: on the path that recreates the object, [Deploy] deletes it
    and then runs the teardown wait, with its 5 second interval and 90
    second deadline, before it composes and creates the replacement.
    When the delete fails with an error other than not-found, [Deploy]
    returns that error after the delete; when the wait meets a severe
    error or the deadline, [Deploy] returns that error after the fetches
    of the wait; in none of these cases is there a create or a patch.
    When the object is gone at tick [k] of the wait, the create follows
    the [k + 1] fetches of the wait. A call whose object never goes away
    returns the deadline error 90 seconds after it began. *)
Theorem destructive_recreate (val : Values) (w : World) (found : StatefulSet) :
  getResult (platform w) (fetches w) = inl found ->
  migrates val (client.identifiedBy (objectKey val) found) = true ->
  let key := objectKey val in
  let w1 := logged (CallDelete key) (fetched key w) in
  (forall e : error,
      IgnoreNotFound (deleteResult (platform w) key) = Some e ->
      Deploy val w = (Some (Some e), w1)) /\
  (IgnoreNotFound (deleteResult (platform w) key) = None ->
   (forall k : nat,
       (k <= 17)%nat ->
       (forall j, (j < k)%nat ->
          presentFetch (getResult (platform w) (S (fetches w) + j)) = true) ->
       absentFetch (getResult (platform w) (S (fetches w) + k)) = true ->
       let w2 := fetched key (polled key defaultInterval k w1) in
       Deploy val w =
         match composeStatefulset val (emptyStatefulset val) with
         | Some obj =>
             (Some (createResult (platform w) obj), logged (CallCreate obj) w2)
         | None => (None, w2)
         end /\
       now w2 = now w + Z.of_nat k * (5 * Second) /\
       calls w2 =
         calls w ++ [CallGet key; CallDelete key] ++ repeat (CallGet key) (k + 1)) /\
   (forall (k : nat) (e : error),
       (k <= 17)%nat ->
       (forall j, (j < k)%nat ->
          presentFetch (getResult (platform w) (S (fetches w) + j)) = true) ->
       severeFetch (getResult (platform w) (S (fetches w) + k)) = Some e ->
       let w2 := fetched key (polled key defaultInterval k w1) in
       Deploy val w = (Some (Some e), w2) /\
       calls w2 =
         calls w ++ [CallGet key; CallDelete key] ++ repeat (CallGet key) (k + 1)) /\
   ((forall j, (j <= 17)%nat ->
        presentFetch (getResult (platform w) (S (fetches w) + j)) = true) ->
    exists w',
      Deploy val w = (Some (Some (retryError DeadlineExceeded None)), w') /\
      now w' = now w + 90 * Second /\
      calls w' =
        calls w ++ [CallGet key; CallDelete key] ++ repeat (CallGet key) 18)).
Proof.
  intros Hr Hm key w1.
  assert (Hdeploy : Deploy val w =
            match OpDestroyAndWait_Destroy val (fetched key w) with
            | (Some (Some e), w') => (Some (Some e), w')
            | (Some None, w') => syncStatefulset val (emptyStatefulset val) w'
            | (None, w') => (None, w')
            end).
  { rewrite Deploy_eq, Hr. cbv zeta. rewrite Hm. reflexivity. }
  rewrite Hdeploy, OpDestroyAndWait_Destroy_eq.
  change (platform (fetched key w)) with (platform w).
  fold key. fold w1.
  assert (Hc1 : calls w1 = calls w ++ [CallGet key; CallDelete key]).
  { unfold w1. simpl. rewrite <- app_assoc. reflexivity. }
  split.
  { intros e ->. reflexivity. }
  intros ->. split; [|split].
  - intros k Hk Hpre Habs w2.
    destruct (absentFetch_final _ Habs) as (Hnp & Hsev).
    pose proof (fetched_polled_facts key defaultInterval k w1)
      as (Hp & _ & Hn & Hc).
    rewrite (WaitCleanup_ends val k w1 Hk Hpre Hnp).
    change (getResult (platform w1) (fetches w1 + k))
      with (getResult (platform w) (S (fetches w) + k)).
    rewrite Hsev, syncStatefulset_placeholder. fold key. fold w2.
    split; [|split].
    + change (platform w2) with (platform (fetched key (polled key defaultInterval k w1))).
      rewrite Hp. reflexivity.
    + exact Hn.
    + unfold w2. rewrite Hc, Hc1, <- app_assoc. reflexivity.
  - intros k e Hk Hpre Hsev w2.
    destruct (severeFetch_final val _ _ Hsev) as (_ & Hnp).
    pose proof (fetched_polled_facts key defaultInterval k w1)
      as (_ & _ & _ & Hc).
    rewrite (WaitCleanup_ends val k w1 Hk Hpre Hnp).
    change (getResult (platform w1) (fetches w1 + k))
      with (getResult (platform w) (S (fetches w) + k)).
    rewrite Hsev. split; [reflexivity|].
    unfold w2. rewrite Hc, Hc1, <- app_assoc. reflexivity.
  - intros Hpre.
    pose proof (fetched_polled_facts key defaultInterval 17 w1)
      as (_ & _ & Hn & Hc).
    rewrite (WaitCleanup_deadline val w1 Hpre).
    eexists. split; [reflexivity|].
    cbv zeta in Hn, Hc.
    rewrite now_advanced, calls_advanced. fold key. rewrite Hn, Hc, Hc1.
    change (now w1) with (now w). change (Z.of_nat 17) with 17.
    unfold defaultTimeout, defaultInterval.
    split; [lia|]. rewrite <- app_assoc. reflexivity.
Qed.

(** Claim C1, as amended: let the fetched object have a generation above
    1. If its service name differs from the desired one, the desired
    replica count is above 1 and the last-observed replica count is 0 or
    1, then [Deploy] deletes the object right after the fetch, follows
    with fetches of the teardown wait only, never patches, and ends with
    at most one create, that of the object composed from the placeholder;
    and once the destroy-and-wait step has returned without error, that
    create is made. If instead the last-observed replica count equals
    the desired one, or the service name is already the desired one,
    the one call after the fetch is a patch of the composed object
    against the fetched one, and nothing is deleted. *)
Theorem topology_migration (val : Values) (w : World) (found : StatefulSet) :
  getResult (platform w) (fetches w) = inl found ->
  let key := objectKey val in
  let sts := client.identifiedBy key found in
  1 < om_Generation (sts_ObjectMeta sts) ->
  (ss_ServiceName (sts_Spec sts) <> ServiceName val ->
   1 < Replicas val ->
   StatusReplicas val = 0 \/ StatusReplicas val = 1 ->
   (exists (c : nat) (tail : list Call),
       calls (snd (Deploy val w)) =
         calls w ++ [CallGet key; CallDelete key]
                 ++ repeat (CallGet key) c ++ tail /\
       (tail = [] \/
        exists obj, composeStatefulset val (emptyStatefulset val) = Some obj /\
                    tail = [CallCreate obj])) /\
   (forall (w2 : World) (obj : StatefulSet),
       OpDestroyAndWait_Destroy val (fetched key w) = (Some None, w2) ->
       composeStatefulset val (emptyStatefulset val) = Some obj ->
       Deploy val w =
         (Some (createResult (platform w2) obj), logged (CallCreate obj) w2))) /\
  (Replicas val = StatusReplicas val \/
   ss_ServiceName (sts_Spec sts) = ServiceName val ->
   Deploy val w =
     match composeStatefulset val sts with
     | Some obj =>
         (Some (patchResult (platform w) obj sts),
          logged (CallPatch obj sts) (fetched key w))
     | None => (None, fetched key w)
     end).
Proof.
  intros Hr key sts Hg. split.
  - intros Hs Hrep Hst.
    pose proof (migrates_true val sts Hg Hs Hrep Hst) as Hm.
    assert (Hdeploy : Deploy val w =
              match OpDestroyAndWait_Destroy val (fetched key w) with
              | (Some (Some e), w') => (Some (Some e), w')
              | (Some None, w') => syncStatefulset val (emptyStatefulset val) w'
              | (None, w') => (None, w')
              end).
    { rewrite Deploy_eq, Hr. cbv zeta. fold key. fold sts. rewrite Hm.
      reflexivity. }
    split.
    + rewrite Hdeploy, OpDestroyAndWait_Destroy_eq. fold key.
      set (w1 := logged (CallDelete key) (fetched key w)).
      assert (Hc1 : calls w1 = calls w ++ [CallGet key; CallDelete key]).
      { unfold w1. simpl. rewrite <- app_assoc. reflexivity. }
      destruct (IgnoreNotFound _) as [e|].
      { exists 0%nat, []. simpl snd. rewrite Hc1. simpl. auto. }
      destruct (WaitCleanup_calls val w1) as (r & w' & c & Hrun & Hc & _).
      rewrite Hrun. fold key in Hc. destruct r as [e|].
      { exists c, []. simpl snd. rewrite Hc, Hc1, app_nil_r, <- app_assoc.
        simpl. auto. }
      rewrite syncStatefulset_placeholder.
      destruct (composeStatefulset val (emptyStatefulset val)) as [obj|] eqn:Hobj.
      * exists c, [CallCreate obj]. simpl snd. simpl calls.
        rewrite Hc, Hc1. rewrite <- !app_assoc. split; [reflexivity|].
        right. exists obj. auto.
      * exists c, []. simpl snd. rewrite Hc, Hc1, app_nil_r, <- app_assoc.
        simpl. auto.
    + intros w2 obj Hrun Hobj. rewrite Hdeploy, Hrun.
      rewrite syncStatefulset_placeholder, Hobj. reflexivity.
  - intros He. rewrite Deploy_eq, Hr. cbv zeta. fold key. fold sts.
    rewrite (migrates_false val sts He).
    rewrite (syncStatefulset_existing val sts _ ltac:(lia)).
    destruct (composeStatefulset val sts); reflexivity.
Qed.

(** *** Facts about the diagnostic enrichment *)

Lemma pendingClaimOf_skip (ssName volumeClaimName : string)
    (pvc : PersistentVolumeClaim) :
  negb (HasPrefix (om_Name (pvc_ObjectMeta pvc))
          (volumeClaimName +:+ "-" +:+ ssName))
  || String.eqb (pvc_Phase pvc) ClaimBound
  = negb (pendingClaimOf ssName volumeClaimName pvc).
Proof.
  unfold pendingClaimOf.
  destruct (HasPrefix _ _); destruct (String.eqb _ _); reflexivity.
Qed.

Lemma FetchEventMessages_eq (pvc : PersistentVolumeClaim) (w : World) :
  kutil.FetchEventMessages pvc EventTypeWarning 2 w =
    (Some (match eventMessages (platform w) pvc EventTypeWarning 2 with
           | inl messages => (messages, None)
           | inr e => ("", Some e)
           end),
     logged (eventQuery pvc) w).
Proof.
  unfold kutil.FetchEventMessages, bind, logCall. simpl platform.
  destruct (eventMessages _ _ _ _); reflexivity.
Qed.

(** The loop over the volume claims returns; it only makes event queries,
    each for a pending claim of the template; and when no query fails it
    makes one for every pending claim, in order. *)
Lemma fetchPVCEventsFor_items_run (ssName volumeClaimName : string)
    (items : list PersistentVolumeClaim) :
  forall (pvcMessages : string) (w : World),
    exists r w' evs,
      fetchPVCEventsFor_items ssName volumeClaimName items pvcMessages w =
        (Some r, w') /\
      calls w' = calls w ++ evs /\
      platform w' = platform w /\
      Forall (fun c => exists pvc, c = eventQuery pvc /\ In pvc items /\
                pendingClaimOf ssName volumeClaimName pvc = true) evs /\
      ((forall pvc, exists m,
           eventMessages (platform w) pvc EventTypeWarning 2 = inl m) ->
       (exists msgs, r = inl msgs) /\
       evs = map eventQuery
               (List.filter (pendingClaimOf ssName volumeClaimName) items)).
Proof.
  induction items as [|pvc items IH]; intros acc w.
  - exists (inl acc), w, []. simpl. rewrite app_nil_r.
    repeat split; eauto.
  - cbn [fetchPVCEventsFor_items]. rewrite pendingClaimOf_skip.
    destruct (pendingClaimOf ssName volumeClaimName pvc) eqn:Hp; cbn [negb].
    + unfold bind at 1. rewrite FetchEventMessages_eq.
      destruct (eventMessages (platform w) pvc EventTypeWarning 2)
        as [messages|e] eqn:He.
      * cbv beta iota.
        match goal with
        | |- context [fetchPVCEventsFor_items _ _ _ ?acc' ?w'] =>
            destruct (IH acc' w') as (r & w2 & evs & Hrun & Hc & Hpl & Hall & Hcomp)
        end.
        exists r, w2, (eventQuery pvc :: evs). rewrite Hrun.
        split; [reflexivity|]. split.
        { rewrite Hc. simpl. rewrite <- app_assoc. reflexivity. }
        split; [rewrite Hpl; reflexivity|]. split.
        { constructor.
          - exists pvc. simpl. auto.
          - eapply Forall_impl; [exact Hall|].
            intros c (p & -> & Hin & Hpp). exists p. simpl. auto. }
        intros Hok. destruct (Hcomp Hok) as (Hm & Hev).
        split; [exact Hm|]. simpl. rewrite Hp. simpl. rewrite Hev. reflexivity.
      * cbv beta iota. exists (inr e), (logged (eventQuery pvc) w), [eventQuery pvc].
        split; [reflexivity|]. split; [reflexivity|]. split; [reflexivity|].
        split.
        { constructor; [|constructor]. exists pvc. simpl. auto. }
        intros Hok. destruct (Hok pvc) as (m & Hm). congruence.
    + destruct (IH acc w) as (r & w2 & evs & Hrun & Hc & Hpl & Hall & Hcomp).
      exists r, w2, evs. rewrite Hrun.
      split; [reflexivity|]. split; [exact Hc|]. split; [exact Hpl|]. split.
      { eapply Forall_impl; [exact Hall|].
        intros c (p & -> & Hin & Hpp). exists p. simpl. auto. }
      intros Hok. destruct (Hcomp Hok) as (Hm & Hev).
      split; [exact Hm|]. simpl. rewrite Hp. exact Hev.
Qed.

Lemma fetchPVCEventsFor_templates_run (ssName : string)
    (volumeClaims items : list PersistentVolumeClaim) :
  forall (pvcMessages : string) (w : World),
    exists r w' evs,
      fetchPVCEventsFor_templates ssName volumeClaims items pvcMessages w =
        (Some r, w') /\
      calls w' = calls w ++ evs /\
      platform w' = platform w /\
      Forall (pendingClaimQuery ssName volumeClaims items) evs /\
      ((forall pvc, exists m,
           eventMessages (platform w) pvc EventTypeWarning 2 = inl m) ->
       (exists msgs, r = inl msgs) /\
       evs = eventQueries ssName volumeClaims items).
Proof.
  induction volumeClaims as [|volumeClaim volumeClaims IH]; intros acc w.
  - exists (inl acc), w, []. simpl. rewrite app_nil_r.
    repeat split; eauto.
  - cbn [fetchPVCEventsFor_templates]. unfold bind at 1.
    destruct (fetchPVCEventsFor_items_run ssName
                (om_Name (pvc_ObjectMeta volumeClaim)) items acc w)
      as (r1 & w1 & evs1 & Hrun1 & Hc1 & Hpl1 & Hall1 & Hcomp1).
    rewrite Hrun1.
    assert (Hq1 : Forall (pendingClaimQuery ssName (volumeClaim :: volumeClaims) items)
                    evs1).
    { eapply Forall_impl; [exact Hall1|].
      intros c (p & -> & Hin & Hpp). exists p, volumeClaim. simpl. auto. }
    destruct r1 as [acc1|e].
    + destruct (IH acc1 w1) as (r & w2 & evs & Hrun & Hc & Hpl & Hall & Hcomp).
      exists r, w2, (evs1 ++ evs). rewrite Hrun.
      split; [reflexivity|]. split.
      { rewrite Hc, Hc1, <- app_assoc. reflexivity. }
      split; [rewrite Hpl, Hpl1; reflexivity|]. split.
      { apply Forall_app. split; [exact Hq1|].
        eapply Forall_impl; [exact Hall|].
        intros c (p & t & -> & Hint & Hin & Hpp). exists p, t. simpl. auto. }
      intros Hok. destruct (Hcomp1 Hok) as (_ & Hev1).
      rewrite Hpl1 in Hcomp. destruct (Hcomp Hok) as (Hm & Hev).
      split; [exact Hm|]. unfold eventQueries. simpl.
      rewrite Hev1. f_equal. exact Hev.
    + exists (inr e), w1, evs1.
      split; [reflexivity|]. split; [exact Hc1|]. split; [exact Hpl1|].
      split; [exact Hq1|].
      intros Hok. destruct (Hcomp1 Hok) as ((msgs & Hm) & _). discriminate.
Qed.

(** [fetchPVCEventsFor] returns: it lists the volume claims of the
    namespace of the object, and then only queries events of claims that
    are pending for one of its templates. *)
Lemma fetchPVCEventsFor_run (ss : StatefulSet) (w : World) :
  let namespace := om_Namespace (sts_ObjectMeta ss) in
  let name := om_Name (sts_ObjectMeta ss) in
  let volumeClaims := ss_VolumeClaimTemplates (sts_Spec ss) in
  exists messages err2 w' evs,
    fetchPVCEventsFor ss w = (Some (messages, err2), w') /\
    calls w' = calls w ++ CallList namespace :: evs /\
    (forall e, listResult (platform w) namespace = inr e ->
               evs = [] /\ err2 = Some e /\ messages = "") /\
    (forall items, listResult (platform w) namespace = inl items ->
       Forall (pendingClaimQuery name volumeClaims items) evs /\
       ((forall pvc, exists m,
            eventMessages (platform w) pvc EventTypeWarning 2 = inl m) ->
        err2 = None /\ evs = eventQueries name volumeClaims items)).
Proof.
  intros namespace name volumeClaims.
  unfold fetchPVCEventsFor, bind at 1, client.List, bind, logCall.
  fold namespace. simpl platform.
  destruct (listResult (platform w) namespace) as [items|e] eqn:Hl.
  - cbv beta iota. fold name. fold volumeClaims.
    destruct (fetchPVCEventsFor_templates_run name volumeClaims items ""
                (logged (CallList namespace) w))
      as (r & w2 & evs & Hrun & Hc & Hpl & Hall & Hcomp).
    unfold bind. rewrite Hrun.
    destruct r as [msgs|e].
    + exists msgs, None, w2, evs. split; [reflexivity|]. split.
      { rewrite Hc. simpl. rewrite <- app_assoc. reflexivity. }
      split; [intros e He; discriminate|].
      intros items' [= <-]. split; [exact Hall|].
      intros Hok. destruct (Hcomp Hok) as (_ & Hev). auto.
    + exists "", (Some e), w2, evs. split; [reflexivity|]. split.
      { rewrite Hc. simpl. rewrite <- app_assoc. reflexivity. }
      split; [intros e' He; discriminate|].
      intros items' [= <-]. split; [exact Hall|].
      intros Hok. destruct (Hcomp Hok) as ((msgs & Hm) & _). discriminate.
  - cbv beta iota. exists "", (Some e), (logged (CallList namespace) w), [].
    split; [reflexivity|]. split; [reflexivity|].
    split; [intros e' [= <-]; auto|]. intros items He. discriminate.
Qed.

(** Claim C5: when the polling loop of [Wait] ends with an error, [Wait]
    lists the volume claims of the namespace of the object and queries
    the warning events, two at most, of those claims only whose name
    starts with [<template name>-<object name>] and whose phase is not
    bound (of all of them, in order, when no query fails). When the
    listing or a query fails, [Wait] returns the error of the loop as it
    is; when messages were collected, [Wait] returns an error whose text
    is the text of the error of the loop, an empty line and the messages;
    when none was, it returns the error of the loop. *)
Theorem diagnostic_enrichment
    (val : Values) (w w1 : World) (sts : StatefulSet) (e : error) :
  waitPoll val w = (Some (sts, Some e), w1) ->
  let namespace := om_Namespace (sts_ObjectMeta sts) in
  let name := om_Name (sts_ObjectMeta sts) in
  let volumeClaims := ss_VolumeClaimTemplates (sts_Spec sts) in
  exists messages err2 w2 evs,
    fetchPVCEventsFor sts w1 = (Some (messages, err2), w2) /\
    calls w2 = calls w1 ++ CallList namespace :: evs /\
    (forall e', listResult (platform w1) namespace = inr e' ->
                evs = [] /\ err2 = Some e') /\
    (forall items, listResult (platform w1) namespace = inl items ->
       Forall (pendingClaimQuery name volumeClaims items) evs /\
       ((forall pvc, exists m,
            eventMessages (platform w1) pvc EventTypeWarning 2 = inl m) ->
        err2 = None /\ evs = eventQueries name volumeClaims items)) /\
    (err2 <> None -> Wait val w = (Some (Some e), w2)) /\
    (err2 = None -> messages <> "" ->
     Wait val w = (Some (Some (enrich e messages)), w2) /\
     Error (enrich e messages) = Error e +:+ nl +:+ nl +:+ messages) /\
    (err2 = None -> messages = "" -> Wait val w = (Some (Some e), w2)).
Proof.
  intros Hpoll namespace name volumeClaims.
  destruct (fetchPVCEventsFor_run sts w1)
    as (messages & err2 & w2 & evs & Hrun & Hc & Herr & Hlist).
  exists messages, err2, w2, evs.
  split; [exact Hrun|]. split; [exact Hc|].
  split; [intros e' He'; destruct (Herr e' He') as (? & ? & _); auto|].
  split; [exact Hlist|].
  assert (HW : Wait val w =
            match err2 with
            | Some _ => (Some (Some e), w2)
            | None =>
                if negb (String.eqb messages "")
                then (Some (Some (enrich e messages)), w2)
                else (Some (Some e), w2)
            end).
  { unfold Wait, bind at 1. rewrite Hpoll. unfold bind. rewrite Hrun.
    destruct err2; [reflexivity|].
    destruct (negb _); reflexivity. }
  rewrite HW. split; [|split].
  - destruct err2; [reflexivity|congruence].
  - intros -> Hne. apply String.eqb_neq in Hne. rewrite Hne. simpl.
    auto.
  - intros -> ->. reflexivity.
Qed.

(** *** More facts about the retry loop and the two waiters *)

Section UntilRun.

Context {S : Type}.
Variable key : ObjectKey.
Variable P : S -> Prop.
Variable verdict : StatefulSet + error -> bool * option error.
Variable f : S -> M (S * (bool * option error)).

Hypothesis step :
  forall (s : S) (w : World),
    P s ->
    exists s',
      f s w = (Some (s', verdict (getResult (platform w) (fetches w))),
               fetched key w) /\
      P s'.

(** A loop whose step is one fetch and a verdict on its answer: it runs
    through the ticks that are not done and ends either at the first tick
    that is done, with the error of that tick, or at the deadline after
    tick [n], with the error of the retry package. *)
Lemma Until_run (n : nat) :
  forall (i rem : Z) (m : option error) (w : World) (s : S),
    P s ->
    exists (s' : S) (c : nat),
      (c <= n)%nat /\
      (forall j, (j < c)%nat ->
         fst (verdict (getResult (platform w) (fetches w + j))) = false) /\
      ((fst (verdict (getResult (platform w) (fetches w + c))) = true /\
        retry.Until n i rem f s m w =
          (Some (s', snd (verdict (getResult (platform w) (fetches w + c)))),
           fetched key (polled key i c w))) \/
       (c = n /\
        fst (verdict (getResult (platform w) (fetches w + n))) = false /\
        exists last,
          retry.Until n i rem f s m w =
            (Some (s', Some (retryError DeadlineExceeded last)),
             advanced (rem - Z.of_nat n * i) (fetched key (polled key i n w))) /\
          (forall e, snd (verdict (getResult (platform w) (fetches w + n))) = Some e ->
                     last = Some e) /\
          ((forall j, (j <= n)%nat ->
              snd (verdict (getResult (platform w) (fetches w + j))) = None) ->
           last = m))).
Proof.
  induction n as [|n IH]; intros i rem m w s Hs;
    destruct (step s w Hs) as (s1 & Hstep & Hs1);
    destruct (verdict (getResult (platform w) (fetches w))) as [done err] eqn:Hv.
  - exists s1, 0%nat. rewrite Nat.add_0_r, Hv. simpl fst. simpl snd.
    split; [lia|]. split; [intros j Hj; lia|].
    destruct done.
    + left. split; [reflexivity|]. apply Until_done. exact Hstep.
    + right. split; [reflexivity|]. split; [reflexivity|].
      eexists. split.
      * rewrite (Until_deadline _ i rem s m w _ _ _ Hstep).
        simpl polled. do 2 f_equal. lia.
      * split.
        { intros e ->. reflexivity. }
        { intros Hnone. specialize (Hnone 0%nat ltac:(lia)).
          rewrite Nat.add_0_r, Hv in Hnone. simpl in Hnone. subst err.
          reflexivity. }
  - destruct done.
    + exists s1, 0%nat. rewrite Nat.add_0_r, Hv. simpl fst. simpl snd.
      split; [lia|]. split; [intros j Hj; lia|].
      left. split; [reflexivity|]. apply Until_done. exact Hstep.
    + rewrite (Until_retry _ n i rem s m w _ _ _ Hstep).
      destruct (IH i (rem - i) (match err with Some e => Some e | None => m end)
                  (advanced i (fetched key w)) s1 Hs1)
        as (s' & c & Hc & Hpre & Hend).
      exists s', (Datatypes.S c). split; [lia|]. split.
      { intros [|j] Hj.
        - rewrite Nat.add_0_r, Hv. reflexivity.
        - rewrite Nat.add_succ_r. apply (Hpre j). lia. }
      destruct Hend as [(Hdone & Hrun)|(-> & Hnot & last & Hrun & Hlast & Hnone)].
      * left. rewrite Nat.add_succ_r. split; [exact Hdone|exact Hrun].
      * right. split; [reflexivity|]. rewrite Nat.add_succ_r.
        split; [exact Hnot|]. exists last. split.
        { rewrite Hrun. simpl polled. do 2 f_equal. lia. }
        split; [exact Hlast|].
        intros Hall. rewrite Hnone.
        { specialize (Hall 0%nat ltac:(lia)).
          rewrite Nat.add_0_r, Hv in Hall. simpl in Hall. subst err.
          reflexivity. }
        { intros j Hj. specialize (Hall (Datatypes.S j) ltac:(lia)).
          rewrite Nat.add_succ_r in Hall. exact Hall. }
Qed.

(** What the loop leaves behind: it returns, after at most [n + 1] fetches
    and nothing but fetches, no later than the deadline; and it returns
    without error only from a tick that is done without error. *)
Lemma Until_run_bounds (n : nat) (i rem : Z) (m : option error)
    (w : World) (s : S) :
  P s -> 0 <= i -> Z.of_nat n * i <= rem ->
  exists (s' : S) (r : option error) (w' : World) (c : nat),
    retry.Until n i rem f s m w = (Some (s', r), w') /\
    (c <= n)%nat /\
    platform w' = platform w /\
    fetches w' = (fetches w + c + 1)%nat /\
    calls w' = calls w ++ repeat (CallGet key) (c + 1) /\
    now w <= now w' <= now w + rem /\
    (forall j, (j < c)%nat ->
       fst (verdict (getResult (platform w) (fetches w + j))) = false) /\
    (r = None ->
     verdict (getResult (platform w) (fetches w + c)) = (true, None) /\
     w' = fetched key (polled key i c w)).
Proof.
  intros Hs Hi Hrem.
  destruct (Until_run n i rem m w s Hs) as (s' & c & Hc & Hpre & Hend).
  pose proof (fetched_polled_facts key i c w) as (Hp & Hf & Hn & Hcalls).
  cbv zeta in Hp, Hf, Hn, Hcalls.
  assert (Hci : 0 <= Z.of_nat c * i <= Z.of_nat n * i) by nia.
  destruct Hend as [(Hdone & Hrun)|(-> & Hnot & last & Hrun & _)].
  - eexists s', _, _, c. split; [exact Hrun|].
    split; [exact Hc|]. split; [exact Hp|]. split; [exact Hf|].
    split; [exact Hcalls|]. split; [rewrite Hn; lia|]. split; [exact Hpre|].
    intros Hr. split; [|reflexivity].
    destruct (verdict _) as [d e]. simpl in *. subst. reflexivity.
  - eexists s', _, _, n. split; [exact Hrun|].
    split; [lia|].
    rewrite platform_advanced, fetches_advanced, calls_advanced, now_advanced.
    split; [exact Hp|]. split; [exact Hf|]. split; [exact Hcalls|].
    split; [rewrite Hn; lia|]. split; [exact Hpre|].
    intros Hr. discriminate.
Qed.

(** The loop keeps what its step keeps. *)
Lemma Until_keeps (n : nat) :
  forall (i rem : Z) (m : option error) (w w' : World) (s s' : S)
         (r : option error),
    P s ->
    retry.Until n i rem f s m w = (Some (s', r), w') ->
    P s'.
Proof.
  induction n as [|n IH]; intros i rem m w w' s s' r Hs Hrun;
    destruct (step s w Hs) as (s1 & Hstep & Hs1);
    destruct (verdict (getResult (platform w) (fetches w))) as [[|] err].
  - rewrite (Until_done f _ _ _ _ _ _ _ _ _ Hstep) in Hrun.
    injection Hrun as <- _ _. exact Hs1.
  - rewrite (Until_deadline f _ _ _ _ _ _ _ _ Hstep) in Hrun.
    injection Hrun as <- _ _. exact Hs1.
  - rewrite (Until_done f _ _ _ _ _ _ _ _ _ Hstep) in Hrun.
    injection Hrun as <- _ _. exact Hs1.
  - rewrite (Until_retry f _ _ _ _ _ _ _ _ _ Hstep) in Hrun.
    exact (IH _ _ _ _ _ _ _ _ Hs1 Hrun).
Qed.

End UntilRun.

Lemma waitStep_verdict (val : Values) (sts : StatefulSet) (w : World) :
  client.ObjectKeyFromObject sts = objectKey val ->
  exists sts',
    waitStep val sts w =
      (Some (sts', waitVerdict val (getResult (platform w) (fetches w))),
       fetched (objectKey val) w) /\
    client.ObjectKeyFromObject sts' = objectKey val.
Proof.
  intros Hk. rewrite (waitStep_eq _ _ _ Hk). unfold waitVerdict.
  destruct (getResult (platform w) (fetches w)) as [found|e].
  - eexists. split; [reflexivity|apply identifiedBy_key].
  - exists sts. split; [reflexivity|exact Hk].
Qed.

Lemma waitCleanupStep_verdict (val : Values) (u : unit) (w : World) :
  True ->
  exists u',
    waitCleanupStep val u w =
      (Some (u', cleanupVerdict (getResult (platform w) (fetches w))),
       fetched (objectKey val) w) /\
    True.
Proof.
  intros _. exists tt. split; [|exact I].
  rewrite waitCleanupStep_eq. reflexivity.
Qed.

Lemma waitVerdict_minor (val : Values) (r : StatefulSet + error) :
  fst (waitVerdict val r) = negb (minorFetch val r).
Proof.
  destruct r as [found|e]; unfold waitVerdict, minorFetch.
  - destruct (CheckStatefulSet _ _); reflexivity.
  - destruct (IsNotFound (Some e)); reflexivity.
Qed.

Lemma waitVerdict_ready (val : Values) (r : StatefulSet + error) :
  fst (waitVerdict val r) = true ->
  snd (waitVerdict val r) = None ->
  readyFetch val r = true.
Proof.
  destruct r as [found|e]; unfold waitVerdict, readyFetch.
  - destruct (CheckStatefulSet _ _); simpl; [discriminate|reflexivity].
  - destruct (IsNotFound (Some e)); simpl; discriminate.
Qed.

Lemma cleanupVerdict_present (r : StatefulSet + error) :
  fst (cleanupVerdict r) = negb (presentFetch r).
Proof.
  destruct r as [found|e]; unfold cleanupVerdict; [reflexivity|].
  destruct (IsNotFound (Some e)); reflexivity.
Qed.

Lemma cleanupVerdict_absent (r : StatefulSet + error) :
  fst (cleanupVerdict r) = true ->
  snd (cleanupVerdict r) = None ->
  absentFetch r = true.
Proof.
  destruct r as [found|e]; unfold cleanupVerdict, absentFetch; [discriminate|].
  destruct (IsNotFound (Some e)); simpl; [reflexivity|discriminate].
Qed.

(** Property X1.
    The teardown wait returns for every platform: after 1 to 18 fetches and
    nothing but fetches, and no later than 90 seconds after it began. *)
Theorem WaitCleanup_is_bounded (val : Values) (w : World) :
  exists (r : option error) (w' : World) (c : nat),
    WaitCleanup val w = (Some r, w') /\
    (1 <= c <= 18)%nat /\
    platform w' = platform w /\
    fetches w' = (fetches w + c)%nat /\
    calls w' = calls w ++ repeat (CallGet (objectKey val)) c /\
    now w <= now w' <= now w + 90 * Second.
Proof.
  destruct (Until_run_bounds (objectKey val) (fun _ => True) cleanupVerdict
              (waitCleanupStep val) (waitCleanupStep_verdict val)
              17 defaultInterval defaultTimeout None w tt I)
    as (u & r & w' & c & Hrun & Hc & Hp & Hf & Hcalls & Hn & _);
    [unfold defaultInterval, Second; lia
    |unfold defaultInterval, defaultTimeout, Second; lia|].
  exists r, w', (c + 1)%nat.
  unfold WaitCleanup, bind. rewrite UntilTimeout_default, Hrun.
  split; [reflexivity|]. split; [lia|]. split; [exact Hp|].
  split; [rewrite Hf; lia|]. split; [exact Hcalls|exact Hn].
Qed.

(** Property X2.
    The teardown wait succeeds only when it has seen the object gone: its
    last fetch answered not-found, and every fetch before it returned the
    object. *)
Theorem WaitCleanup_succeeds_only_when_absent
    (val : Values) (w w' : World) :
  WaitCleanup val w = (Some None, w') ->
  exists k : nat,
    (k <= 17)%nat /\
    w' = fetched (objectKey val) (polled (objectKey val) defaultInterval k w) /\
    absentFetch (getResult (platform w) (fetches w + k)) = true /\
    (forall j, (j < k)%nat ->
       presentFetch (getResult (platform w) (fetches w + j)) = true).
Proof.
  intros Hwait.
  destruct (Until_run_bounds (objectKey val) (fun _ => True) cleanupVerdict
              (waitCleanupStep val) (waitCleanupStep_verdict val)
              17 defaultInterval defaultTimeout None w tt I)
    as (u & r & w1 & c & Hrun & Hc & _ & _ & _ & _ & Hpre & Hok);
    [unfold defaultInterval, Second; lia
    |unfold defaultInterval, defaultTimeout, Second; lia|].
  unfold WaitCleanup, bind in Hwait. rewrite UntilTimeout_default, Hrun in Hwait.
  injection Hwait as -> ->.
  destruct (Hok eq_refl) as (Hv & Hw).
  exists c. split; [exact Hc|]. split; [exact Hw|]. split.
  - apply cleanupVerdict_absent; rewrite Hv; reflexivity.
  - intros j Hj. specialize (Hpre j Hj).
    rewrite cleanupVerdict_present in Hpre.
    destruct (presentFetch _); [reflexivity|discriminate].
Qed.

(** The polling loop of [Wait] returns for every platform: after 1 to 18
    fetches of the object's key and nothing else, and no later than 90
    seconds after it began. *)
Lemma waitPoll_is_bounded (val : Values) (w : World) :
  exists (sts : StatefulSet) (r : option error) (w' : World) (c : nat),
    waitPoll val w = (Some (sts, r), w') /\
    (c <= 17)%nat /\
    platform w' = platform w /\
    fetches w' = (fetches w + c + 1)%nat /\
    calls w' = calls w ++ repeat (CallGet (objectKey val)) (c + 1) /\
    now w <= now w' <= now w + 90 * Second /\
    (forall j, (j < c)%nat ->
       minorFetch val (getResult (platform w) (fetches w + j)) = true) /\
    (r = None ->
     readyFetch val (getResult (platform w) (fetches w + c)) = true /\
     w' = fetched (objectKey val) (polled (objectKey val) defaultInterval c w)).
Proof.
  destruct (Until_run_bounds (objectKey val)
              (fun sts => client.ObjectKeyFromObject sts = objectKey val)
              (waitVerdict val) (waitStep val) (waitStep_verdict val)
              17 defaultInterval defaultTimeout None w (emptyStatefulset val)
              (emptyStatefulset_key val))
    as (sts & r & w' & c & Hrun & Hc & Hp & Hf & Hcalls & Hn & Hpre & Hok);
    [unfold defaultInterval, Second; lia
    |unfold defaultInterval, defaultTimeout, Second; lia|].
  exists sts, r, w', c. unfold waitPoll. rewrite UntilTimeout_default.
  split; [exact Hrun|]. split; [exact Hc|]. split; [exact Hp|].
  split; [exact Hf|]. split; [exact Hcalls|]. split; [exact Hn|]. split.
  - intros j Hj. specialize (Hpre j Hj). rewrite waitVerdict_minor in Hpre.
    destruct (minorFetch _ _); [reflexivity|discriminate].
  - intros Hr. destruct (Hok Hr) as (Hv & Hw). split; [|exact Hw].
    apply waitVerdict_ready; rewrite Hv; reflexivity.
Qed.

(** The state the polling loop of [Wait] ends with is an object with the
    key of the component. *)
Lemma waitPoll_state (val : Values) (w w' : World) (sts : StatefulSet)
    (r : option error) :
  waitPoll val w = (Some (sts, r), w') ->
  client.ObjectKeyFromObject sts = objectKey val.
Proof.
  unfold waitPoll. rewrite UntilTimeout_default. intros Hrun.
  exact (Until_keeps (objectKey val)
           (fun sts => client.ObjectKeyFromObject sts = objectKey val)
           (waitVerdict val) (waitStep val) (waitStep_verdict val)
           17 _ _ _ _ _ _ _ _ (emptyStatefulset_key val) Hrun).
Qed.

(** Property X3.
    [Wait] succeeds only when it has seen the object ready: its last fetch
    returned an object that passes the readiness check, and every fetch
    before it was a minor failure. *)
Theorem Wait_succeeds_only_when_ready (val : Values) (w w' : World) :
  Wait val w = (Some None, w') ->
  exists k : nat,
    (k <= 17)%nat /\
    w' = fetched (objectKey val) (polled (objectKey val) defaultInterval k w) /\
    readyFetch val (getResult (platform w) (fetches w + k)) = true /\
    (forall j, (j < k)%nat ->
       minorFetch val (getResult (platform w) (fetches w + j)) = true).
Proof.
  intros Hwait.
  destruct (waitPoll_is_bounded val w)
    as (sts & r & w1 & c & Hrun & Hc & _ & _ & _ & _ & Hpre & Hok).
  unfold Wait, bind at 1 in Hwait. rewrite Hrun in Hwait.
  destruct r as [e|].
  - exfalso. unfold bind in Hwait.
    destruct (fetchPVCEventsFor sts w1) as [[[messages [e2|]]|] w2];
      try discriminate.
    destruct (negb _); discriminate.
  - injection Hwait as <-. destruct (Hok eq_refl) as (Hready & Hw).
    exists c. auto.
Qed.

(** *** More facts about the diagnostic enrichment *)

Lemma append_nil_r (s : string) : s +:+ "" = s.
Proof.
  induction s as [|a s IH]; [reflexivity|exact (f_equal (String a) IH)].
Qed.

Lemma append_assoc (s1 s2 s3 : string) :
  (s1 +:+ s2) +:+ s3 = s1 +:+ (s2 +:+ s3).
Proof.
  induction s1 as [|a s1 IH]; [reflexivity|exact (f_equal (String a) IH)].
Qed.

Lemma now_logged c w : now (logged c w) = now w.
Proof. reflexivity. Qed.

Lemma fetches_logged c w : fetches (logged c w) = fetches w.
Proof. reflexivity. Qed.

(** The loop over the volume claims, in full: the queries it makes are an
    initial part of the queries for the pending claims of the template;
    when it returns messages, it has made them all and the messages are
    the warnings of these claims after what was accumulated; when it
    returns an error, that is the error of a query for a pending claim. *)
Lemma fetchPVCEventsFor_items_trace (ssName volumeClaimName : string)
    (items : list PersistentVolumeClaim) :
  forall (pvcMessages : string) (w : World),
    exists r w' evs,
      fetchPVCEventsFor_items ssName volumeClaimName items pvcMessages w =
        (Some r, w') /\
      now w' = now w /\ fetches w' = fetches w /\ platform w' = platform w /\
      calls w' = calls w ++ evs /\
      (exists rest,
          map eventQuery
            (List.filter (pendingClaimOf ssName volumeClaimName) items)
          = evs ++ rest) /\
      (forall msgs, r = inl msgs ->
         evs = map eventQuery
                 (List.filter (pendingClaimOf ssName volumeClaimName) items) /\
         msgs = pvcMessages +:+
                claimWarnings (platform w) ssName volumeClaimName items) /\
      (forall e, r = inr e ->
         exists pvc,
           In pvc items /\
           pendingClaimOf ssName volumeClaimName pvc = true /\
           eventMessages (platform w) pvc EventTypeWarning 2 = inr e).
Proof.
  induction items as [|pvc items IH]; intros acc w.
  - exists (inl acc), w, []. simpl. rewrite app_nil_r, append_nil_r.
    repeat split; try reflexivity.
    + exists []. reflexivity.
    + congruence.
    + discriminate.
  - cbn [fetchPVCEventsFor_items claimWarnings List.filter].
    rewrite pendingClaimOf_skip.
    destruct (pendingClaimOf ssName volumeClaimName pvc) eqn:Hp; cbn [negb].
    + unfold bind at 1. rewrite FetchEventMessages_eq.
      destruct (eventMessages (platform w) pvc EventTypeWarning 2)
        as [messages|e] eqn:He.
      * cbv beta iota.
        match goal with
        | |- context [fetchPVCEventsFor_items _ _ _ ?acc' ?w'] =>
            destruct (IH acc' w')
              as (r & w2 & evs & Hrun & Hn & Hf & Hpl & Hc & (rest & Hrest)
                    & Hok & Herr);
            assert (Hacc : acc' = acc +:+ claimWarning pvc messages)
        end.
        { unfold claimWarning. destruct (negb _);
            [reflexivity|rewrite append_nil_r; reflexivity]. }
        exists r, w2, (eventQuery pvc :: evs). rewrite Hrun.
        split; [reflexivity|]. split; [exact Hn|]. split; [exact Hf|].
        split; [exact Hpl|]. split.
        { rewrite Hc. simpl. rewrite <- app_assoc. reflexivity. }
        split.
        { exists rest. simpl. rewrite Hrest. reflexivity. }
        split.
        { intros msgs Hr. destruct (Hok msgs Hr) as (Hevs & Hm).
          split; [simpl; rewrite Hevs; reflexivity|].
          rewrite Hm, Hacc, append_assoc. reflexivity. }
        { intros e Hr. destruct (Herr e Hr) as (p & Hin & Hpp & Hpe).
          exists p. simpl. auto. }
      * cbv beta iota.
        exists (inr e), (logged (eventQuery pvc) w), [eventQuery pvc].
        split; [reflexivity|]. split; [reflexivity|]. split; [reflexivity|].
        split; [reflexivity|]. split; [reflexivity|]. split.
        { eexists. simpl. reflexivity. }
        split; [discriminate|].
        intros e' [= <-]. exists pvc. simpl. auto.
    + destruct (IH acc w)
        as (r & w2 & evs & Hrun & Hn & Hf & Hpl & Hc & Hrest & Hok & Herr).
      exists r, w2, evs. rewrite Hrun.
      split; [reflexivity|]. split; [exact Hn|]. split; [exact Hf|].
      split; [exact Hpl|]. split; [exact Hc|]. split; [exact Hrest|].
      split; [exact Hok|].
      intros e Hr. destruct (Herr e Hr) as (p & Hin & Hpp & Hpe).
      exists p. simpl. auto.
Qed.

Lemma fetchPVCEventsFor_templates_trace (ssName : string)
    (volumeClaims items : list PersistentVolumeClaim) :
  forall (pvcMessages : string) (w : World),
    exists r w' evs,
      fetchPVCEventsFor_templates ssName volumeClaims items pvcMessages w =
        (Some r, w') /\
      now w' = now w /\ fetches w' = fetches w /\ platform w' = platform w /\
      calls w' = calls w ++ evs /\
      (exists rest, eventQueries ssName volumeClaims items = evs ++ rest) /\
      (forall msgs, r = inl msgs ->
         evs = eventQueries ssName volumeClaims items /\
         msgs = pvcMessages +:+
                templateWarnings (platform w) ssName volumeClaims items) /\
      (forall e, r = inr e ->
         exists pvc,
           In pvc items /\
           eventMessages (platform w) pvc EventTypeWarning 2 = inr e).
Proof.
  induction volumeClaims as [|volumeClaim volumeClaims IH]; intros acc w.
  - exists (inl acc), w, []. simpl. rewrite app_nil_r, append_nil_r.
    repeat split; try reflexivity.
    + exists []. reflexivity.
    + congruence.
    + discriminate.
  - cbn [fetchPVCEventsFor_templates templateWarnings]. unfold bind at 1.
    destruct (fetchPVCEventsFor_items_trace ssName
                (om_Name (pvc_ObjectMeta volumeClaim)) items acc w)
      as (r1 & w1 & evs1 & Hrun1 & Hn1 & Hf1 & Hpl1 & Hc1 & (rest1 & Hrest1)
            & Hok1 & Herr1).
    rewrite Hrun1. destruct r1 as [acc1|e].
    + destruct (Hok1 acc1 eq_refl) as (Hevs1 & Hm1).
      destruct (IH acc1 w1)
        as (r & w2 & evs & Hrun & Hn & Hf & Hpl & Hc & (rest & Hrest)
              & Hok & Herr).
      exists r, w2, (evs1 ++ evs). rewrite Hrun.
      split; [reflexivity|]. split; [congruence|]. split; [congruence|].
      split; [congruence|]. split.
      { rewrite Hc, Hc1, <- app_assoc. reflexivity. }
      split.
      { exists rest. unfold eventQueries in *. simpl.
        rewrite <- Hevs1, Hrest, <- app_assoc. reflexivity. }
      split.
      { intros msgs Hr. destruct (Hok msgs Hr) as (Hevs & Hm).
        split.
        - unfold eventQueries in *. simpl. rewrite <- Hevs1, Hevs. reflexivity.
        - rewrite Hm, Hm1, Hpl1, append_assoc. reflexivity. }
      { intros e Hr. destruct (Herr e Hr) as (p & Hin & Hpe).
        exists p. rewrite <- Hpl1. auto. }
    + destruct (Herr1 e eq_refl) as (p & Hin & _ & Hpe).
      exists (inr e), w1, evs1.
      split; [reflexivity|]. split; [exact Hn1|]. split; [exact Hf1|].
      split; [exact Hpl1|]. split; [exact Hc1|]. split.
      { unfold eventQueries. simpl. rewrite Hrest1.
        eexists. rewrite <- app_assoc. reflexivity. }
      split; [discriminate|].
      intros e' [= <-]. exists p. auto.
Qed.

(** [fetchPVCEventsFor], in full. *)
Lemma fetchPVCEventsFor_trace (ss : StatefulSet) (w : World) :
  let namespace := om_Namespace (sts_ObjectMeta ss) in
  let name := om_Name (sts_ObjectMeta ss) in
  let volumeClaims := ss_VolumeClaimTemplates (sts_Spec ss) in
  exists messages err2 w' evs,
    fetchPVCEventsFor ss w = (Some (messages, err2), w') /\
    now w' = now w /\ fetches w' = fetches w /\ platform w' = platform w /\
    calls w' = calls w ++ CallList namespace :: evs /\
    (forall e, listResult (platform w) namespace = inr e ->
       evs = [] /\ err2 = Some e /\ messages = "") /\
    (forall items, listResult (platform w) namespace = inl items ->
       (exists rest, eventQueries name volumeClaims items = evs ++ rest) /\
       (err2 = None ->
        evs = eventQueries name volumeClaims items /\
        messages = templateWarnings (platform w) name volumeClaims items) /\
       (forall e, err2 = Some e ->
          messages = "" /\
          exists pvc,
            In pvc items /\
            eventMessages (platform w) pvc EventTypeWarning 2 = inr e)).
Proof.
  intros namespace name volumeClaims.
  unfold fetchPVCEventsFor, bind at 1, client.List, bind, logCall.
  fold namespace. simpl platform.
  destruct (listResult (platform w) namespace) as [items|e] eqn:Hl.
  - cbv beta iota. fold name. fold volumeClaims.
    destruct (fetchPVCEventsFor_templates_trace name volumeClaims items ""
                (logged (CallList namespace) w))
      as (r & w2 & evs & Hrun & Hn & Hf & Hpl & Hc & Hrest & Hok & Herr).
    unfold bind. rewrite Hrun.
    destruct r as [msgs|e].
    + exists msgs, None, w2, evs. split; [reflexivity|].
      split; [exact Hn|]. split; [exact Hf|]. split; [exact Hpl|]. split.
      { rewrite Hc. simpl. rewrite <- app_assoc. reflexivity. }
      split; [intros e He; discriminate|].
      intros items' [= <-]. split; [exact Hrest|]. split.
      * intros _. destruct (Hok msgs eq_refl) as (Hevs & Hm). auto.
      * intros e He. discriminate.
    + exists "", (Some e), w2, evs. split; [reflexivity|].
      split; [exact Hn|]. split; [exact Hf|]. split; [exact Hpl|]. split.
      { rewrite Hc. simpl. rewrite <- app_assoc. reflexivity. }
      split; [intros e' He; discriminate|].
      intros items' [= <-]. split; [exact Hrest|]. split.
      * intros He. discriminate.
      * intros e' [= <-]. split; [reflexivity|].
        destruct (Herr e eq_refl) as (p & Hin & Hpe). exists p. auto.
  - cbv beta iota. exists "", (Some e), (logged (CallList namespace) w), [].
    split; [reflexivity|]. split; [reflexivity|]. split; [reflexivity|].
    split; [reflexivity|]. split; [reflexivity|].
    split; [intros e' [= <-]; auto|]. intros items He. discriminate.
Qed.

(** Where the loop over the volume claims stops: after the queries of
    all pending claims, every one answered, or at the first query that
    answers with an error. *)
Lemma fetchPVCEventsFor_items_stops (ssName volumeClaimName : string)
    (items : list PersistentVolumeClaim) :
  forall (pvcMessages : string) (w w' : World) (r : string + error),
    fetchPVCEventsFor_items ssName volumeClaimName items pvcMessages w =
      (Some r, w') ->
    exists asked,
      forallb (answered (platform w)) asked = true /\
      match r with
      | inl _ => calls w' = calls w ++ map eventQuery asked
      | inr e =>
          exists pvc,
            calls w' = calls w ++ map eventQuery asked ++ [eventQuery pvc] /\
            eventMessages (platform w) pvc EventTypeWarning 2 = inr e
      end.
Proof.
  induction items as [|pvc items IH]; intros acc w w' r Hrun.
  - injection Hrun as <- <-. exists []. split; [reflexivity|].
    simpl. rewrite app_nil_r. reflexivity.
  - cbn [fetchPVCEventsFor_items] in Hrun.
    rewrite pendingClaimOf_skip in Hrun.
    destruct (pendingClaimOf ssName volumeClaimName pvc); cbn [negb] in Hrun;
      [|exact (IH _ _ _ _ Hrun)].
    unfold bind at 1 in Hrun. rewrite FetchEventMessages_eq in Hrun.
    destruct (eventMessages (platform w) pvc EventTypeWarning 2)
      as [messages|e] eqn:He; cbv beta iota in Hrun.
    + destruct (IH _ _ _ _ Hrun) as (asked & Hall & Hr).
      exists (pvc :: asked). split.
      * simpl. unfold answered at 1. rewrite He. exact Hall.
      * destruct r as [msgs|e].
        -- rewrite Hr. simpl. rewrite <- app_assoc. reflexivity.
        -- destruct Hr as (q & Hc & Hq). exists q. split; [|exact Hq].
           rewrite Hc. simpl. rewrite <- app_assoc. reflexivity.
    + injection Hrun as <- <-. exists []. split; [reflexivity|].
      exists pvc. split; [reflexivity|exact He].
Qed.

Lemma fetchPVCEventsFor_templates_stops (ssName : string)
    (volumeClaims items : list PersistentVolumeClaim) :
  forall (pvcMessages : string) (w w' : World) (r : string + error),
    fetchPVCEventsFor_templates ssName volumeClaims items pvcMessages w =
      (Some r, w') ->
    exists asked,
      forallb (answered (platform w)) asked = true /\
      match r with
      | inl _ => calls w' = calls w ++ map eventQuery asked
      | inr e =>
          exists pvc,
            calls w' = calls w ++ map eventQuery asked ++ [eventQuery pvc] /\
            eventMessages (platform w) pvc EventTypeWarning 2 = inr e
      end.
Proof.
  induction volumeClaims as [|volumeClaim volumeClaims IH];
    intros acc w w' r Hrun.
  - injection Hrun as <- <-. exists []. split; [reflexivity|].
    simpl. rewrite app_nil_r. reflexivity.
  - cbn [fetchPVCEventsFor_templates] in Hrun. unfold bind at 1 in Hrun.
    destruct (fetchPVCEventsFor_items_trace ssName
                (om_Name (pvc_ObjectMeta volumeClaim)) items acc w)
      as (r1 & w1 & evs1 & Hrun1 & _ & _ & Hpl1 & _).
    rewrite Hrun1 in Hrun.
    destruct (fetchPVCEventsFor_items_stops _ _ _ _ _ _ _ Hrun1)
      as (asked1 & Hall1 & Hr1).
    destruct r1 as [acc1|e1].
    + destruct (IH _ _ _ _ Hrun) as (asked & Hall & Hr).
      rewrite Hpl1 in Hall.
      exists (asked1 ++ asked). split.
      * rewrite forallb_app, Hall1, Hall. reflexivity.
      * destruct r as [msgs|e].
        -- rewrite Hr, Hr1, map_app, <- app_assoc. reflexivity.
        -- destruct Hr as (q & Hc & Hq). exists q. rewrite <- Hpl1.
           split; [|exact Hq].
           rewrite Hc, Hr1, map_app, <- !app_assoc. reflexivity.
    + injection Hrun as <- <-. exists asked1. split; [exact Hall1|exact Hr1].
Qed.

(** [fetchPVCEventsFor], by the claims it asks about: after the listing it
    queries claim after claim; when a query fails it is the last one, its
    error is the error returned, and every query before it answered. *)
Lemma fetchPVCEventsFor_asks (ss : StatefulSet) (w : World) :
  exists messages err2 w' asked,
    fetchPVCEventsFor ss w = (Some (messages, err2), w') /\
    platform w' = platform w /\
    calls w' =
      calls w ++ CallList (om_Namespace (sts_ObjectMeta ss))
                   :: map eventQuery asked /\
    (forall e items,
        err2 = Some e ->
        listResult (platform w) (om_Namespace (sts_ObjectMeta ss)) = inl items ->
        exists before pvc,
          asked = before ++ [pvc] /\
          forallb (answered (platform w)) before = true /\
          eventMessages (platform w) pvc EventTypeWarning 2 = inr e).
Proof.
  unfold fetchPVCEventsFor, bind at 1, client.List, bind, logCall.
  simpl platform.
  destruct (listResult (platform w) (om_Namespace (sts_ObjectMeta ss)))
    as [items|e] eqn:Hl; cbv beta iota.
  - match goal with
    | |- context [fetchPVCEventsFor_templates ?n ?t ?i ?a ?w0] =>
        destruct (fetchPVCEventsFor_templates_trace n t i a w0)
          as (r & w2 & evs & Hrun & _ & _ & Hpl & _);
        destruct (fetchPVCEventsFor_templates_stops n t i a w0 w2 r Hrun)
          as (asked & Hall & Hr)
    end.
    unfold bind. rewrite Hrun. destruct r as [msgs|e].
    + exists msgs, None, w2, asked. split; [reflexivity|].
      split; [exact Hpl|]. split.
      { rewrite Hr. simpl. rewrite <- app_assoc. reflexivity. }
      intros e items' He. discriminate.
    + destruct Hr as (pvc & Hc & Hq).
      exists "", (Some e), w2, (asked ++ [pvc]). split; [reflexivity|].
      split; [exact Hpl|]. split.
      { rewrite Hc, map_app. simpl. rewrite <- app_assoc. reflexivity. }
      intros e' items' [= <-] _. exists asked, pvc. auto.
  - exists "", (Some e), (logged (CallList (om_Namespace (sts_ObjectMeta ss))) w), [].
    split; [reflexivity|]. split; [reflexivity|]. split; [reflexivity|].
    intros e' items He Hi. discriminate.
Qed.

(** Property X6.
    Once the volume claims are listed, the event queries of
    [fetchPVCEventsFor] are an initial part of the queries for the pending
    claims, template by template: all of them when it returns without
    error; otherwise they end with a query that answered with an error,
    every query before it answered, the error returned is the error of
    that last query, no further claim is queried and the messages
    collected so far are dropped. *)
Theorem event_queries_stop_at_the_first_failure
    (ss : StatefulSet) (w : World) (items : list PersistentVolumeClaim) :
  let namespace := om_Namespace (sts_ObjectMeta ss) in
  let name := om_Name (sts_ObjectMeta ss) in
  let volumeClaims := ss_VolumeClaimTemplates (sts_Spec ss) in
  listResult (platform w) namespace = inl items ->
  exists messages err2 w' evs rest,
    fetchPVCEventsFor ss w = (Some (messages, err2), w') /\
    calls w' = calls w ++ CallList namespace :: evs /\
    eventQueries name volumeClaims items = evs ++ rest /\
    (err2 = None -> rest = []) /\
    (forall e, err2 = Some e ->
       messages = "" /\
       exists before pvc,
         evs = map eventQuery before ++ [eventQuery pvc] /\
         forallb (answered (platform w)) before = true /\
         eventMessages (platform w) pvc EventTypeWarning 2 = inr e).
Proof.
  intros namespace name volumeClaims Hl. subst namespace name volumeClaims.
  destruct (fetchPVCEventsFor_trace ss w)
    as (messages & err2 & w' & evs & Hrun & _ & _ & _ & Hc & _ & Hlist).
  cbv zeta in Hlist.
  destruct (Hlist items Hl) as ((rest & Hrest) & Hok & Herr).
  destruct (fetchPVCEventsFor_asks ss w)
    as (messages' & err2' & w'' & asked & Hrun' & _ & Hc' & Hstop).
  rewrite Hrun in Hrun'. injection Hrun' as <- <- <-.
  rewrite Hc in Hc'. apply app_inv_head in Hc'. injection Hc' as Hevs.
  exists messages, err2, w', evs, rest.
  split; [exact Hrun|]. split; [exact Hc|]. split; [exact Hrest|].
  split.
  - intros He. destruct (Hok He) as (Hall & _).
    rewrite <- Hall in Hrest.
    apply (app_inv_head evs). rewrite app_nil_r. symmetry. exact Hrest.
  - intros e He. destruct (Herr e He) as (Hm & _). split; [exact Hm|].
    destruct (Hstop e items He Hl) as (before & pvc & Hasked & Hall & Hq).
    exists before, pvc. split; [|split; [exact Hall|exact Hq]].
    rewrite Hevs, Hasked, map_app. reflexivity.
Qed.

(** Property X7.
    When [fetchPVCEventsFor] returns without error, the volume claims were
    listed, every pending claim was queried, and the messages are, claim
    after claim, the line [Warning for PVC <name>:], the events of the
    claim and a line break, for the claims whose events are not empty, and
    nothing for the others. *)
Theorem collected_messages
    (ss : StatefulSet) (w w' : World) (messages : string) :
  let namespace := om_Namespace (sts_ObjectMeta ss) in
  let name := om_Name (sts_ObjectMeta ss) in
  let volumeClaims := ss_VolumeClaimTemplates (sts_Spec ss) in
  fetchPVCEventsFor ss w = (Some (messages, None), w') ->
  exists items,
    listResult (platform w) namespace = inl items /\
    calls w' =
      calls w ++ CallList namespace :: eventQueries name volumeClaims items /\
    messages = templateWarnings (platform w) name volumeClaims items.
Proof.
  intros namespace name volumeClaims Hrun. subst namespace name volumeClaims.
  destruct (fetchPVCEventsFor_trace ss w)
    as (messages' & err2 & w1 & evs & Hrun' & _ & _ & _ & Hc & Hfail & Hlist).
  cbv zeta in Hc, Hfail, Hlist.
  rewrite Hrun in Hrun'. injection Hrun' as <- <- <-.
  destruct (listResult (platform w) (om_Namespace (sts_ObjectMeta ss)))
    as [items|e] eqn:Hl.
  - exists items. split; [reflexivity|].
    destruct (Hlist items eq_refl) as (_ & Hok & _).
    destruct (Hok eq_refl) as (Hevs & Hm).
    rewrite Hc, Hevs. auto.
  - destruct (Hfail e eq_refl) as (_ & He & _). discriminate.
Qed.

Lemma gets_are_reads (key : ObjectKey) (n : nat) :
  forallb isRead (repeat (CallGet key) n) = true.
Proof. induction n as [|n IH]; [reflexivity|exact IH]. Qed.

Lemma eventQueries_are_reads (ssName : string)
    (volumeClaims items : list PersistentVolumeClaim) :
  forallb isRead (eventQueries ssName volumeClaims items) = true.
Proof.
  unfold eventQueries.
  induction volumeClaims as [|t ts IH]; [reflexivity|].
  simpl. rewrite forallb_app, IH, andb_true_r.
  induction (List.filter _ items) as [|p ps IHp]; [reflexivity|exact IHp].
Qed.

Lemma eventQueries_asked_are_reads (asked : list PersistentVolumeClaim) :
  forallb isRead (map eventQuery asked) = true.
Proof.
  induction asked as [|pvc asked IH]; [reflexivity|exact IH].
Qed.

(** Property X4.
    [Wait] returns for every platform, and all it does to the platform is
    read: it makes 1 to 18 fetches of the object; when it returns without
    error that is all, and when it returns an error the fetches are
    followed by one listing of the volume claims of the namespace and
    then by event queries for volume claims. It never creates, patches or
    deletes. *)
Theorem Wait_only_reads (val : Values) (w : World) :
  exists (r : option error) (w' : World) (c : nat) (tail : list Call),
    Wait val w = (Some r, w') /\
    platform w' = platform w /\
    (1 <= c <= 18)%nat /\
    calls w' = calls w ++ repeat (CallGet (objectKey val)) c ++ tail /\
    match r with
    | None => tail = []
    | Some _ =>
        exists asked, tail = CallList (Namespace val) :: map eventQuery asked
    end /\
    forallb isRead (repeat (CallGet (objectKey val)) c ++ tail) = true.
Proof.
  destruct (waitPoll_is_bounded val w)
    as (sts & r & w1 & c & Hrun & Hle & Hp & _ & Hc & _).
  pose proof (gets_are_reads (objectKey val) (c + 1)) as Hgets.
  pose proof (f_equal key_Namespace (waitPoll_state val w w1 sts r Hrun)) as Hns.
  cbn [client.ObjectKeyFromObject objectKey key_Namespace] in Hns.
  unfold Wait, bind at 1. rewrite Hrun.
  destruct r as [e|].
  - destruct (fetchPVCEventsFor_asks sts w1)
      as (messages & err2 & w2 & asked & Hrun2 & Hp2 & Hc2 & _).
    rewrite Hns in Hc2.
    unfold bind. rewrite Hrun2.
    assert (Hout : exists e',
               (match err2 with
                | Some _ => ret (Some e)
                | None => if negb (String.eqb messages "")
                          then ret (Some (enrich e messages))
                          else ret (Some e)
                end) w2 = (Some (Some e'), w2)).
    { destruct err2; [eexists; reflexivity|].
      destruct (negb _); eexists; reflexivity. }
    destruct Hout as (e' & ->).
    exists (Some e'), w2, (c + 1)%nat,
      (CallList (Namespace val) :: map eventQuery asked).
    split; [reflexivity|]. split; [congruence|]. split; [lia|]. split.
    { rewrite Hc2, Hc, <- app_assoc. reflexivity. }
    split; [exists asked; reflexivity|].
    rewrite forallb_app, Hgets. simpl.
    apply eventQueries_asked_are_reads.
  - exists None, w1, (c + 1)%nat, [].
    split; [reflexivity|]. split; [exact Hp|]. split; [lia|].
    rewrite app_nil_r. split; [exact Hc|]. split; [reflexivity|exact Hgets].
Qed.

(** Property X5.
    When every tick of [Wait] is a minor failure, the deadline error
    carries the error of the last tick, the 18th. *)
Theorem timeout_reports_the_last_minor_error (val : Values) (w : World) :
  (forall j, (j <= 17)%nat ->
     minorFetch val (getResult (platform w) (fetches w + j)) = true) ->
  exists sts e w',
    waitPoll val w = (Some (sts, Some (retryError DeadlineExceeded (Some e))), w') /\
    waitVerdict val (getResult (platform w) (fetches w + 17)) = (false, Some e) /\
    now w' = now w + 90 * Second.
Proof.
  intros Hminor.
  destruct (Until_run (objectKey val)
              (fun sts => client.ObjectKeyFromObject sts = objectKey val)
              (waitVerdict val) (waitStep val) (waitStep_verdict val)
              17 defaultInterval defaultTimeout None w (emptyStatefulset val)
              (emptyStatefulset_key val))
    as (sts & c & Hc & _ & Hend).
  destruct Hend as [(Hdone & _)|(_ & Hnot & last & Hrun & Hlast & _)].
  - rewrite waitVerdict_minor, (Hminor c Hc) in Hdone. discriminate.
  - assert (Hv : exists e,
               waitVerdict val (getResult (platform w) (fetches w + 17))
               = (false, Some e)).
    { specialize (Hminor 17%nat ltac:(lia)).
      destruct (getResult (platform w) (fetches w + 17)) as [found|e];
        unfold waitVerdict, minorFetch in *.
      - destruct (CheckStatefulSet _ _) as [e|]; [|discriminate].
        exists e. reflexivity.
      - rewrite Hminor. exists e. reflexivity. }
    destruct Hv as (e & Hv).
    exists sts, e. eexists. unfold waitPoll. rewrite UntilTimeout_default, Hrun.
    rewrite (Hlast e) by (rewrite Hv; reflexivity).
    split; [reflexivity|]. split; [exact Hv|].
    pose proof (fetched_polled_facts (objectKey val) defaultInterval 17 w)
      as (_ & _ & Hn & _).
    cbv zeta in Hn. rewrite now_advanced, Hn.
    change (Z.of_nat 17) with 17. unfold defaultTimeout, defaultInterval. lia.
Qed.

(** *** More facts about the synchronizer *)

Lemma composeStatefulset_key (val : Values) (sts obj : StatefulSet) :
  composeStatefulset val sts = Some obj ->
  client.ObjectKeyFromObject obj = objectKey val.
Proof.
  unfold composeStatefulset. destruct (getVolumes val); [|discriminate].
  simpl. intros [= <-]. reflexivity.
Qed.

(** The composed metadata and specification do not depend on the working
    copy the composer starts from; only the status is taken from it. *)
Lemma composeStatefulset_any (val : Values) (sts sts' obj : StatefulSet) :
  composeStatefulset val sts = Some obj ->
  exists obj',
    composeStatefulset val sts' = Some obj' /\
    sts_ObjectMeta obj' = sts_ObjectMeta obj /\
    sts_Spec obj' = sts_Spec obj /\
    sts_Status obj' = sts_Status sts'.
Proof.
  unfold composeStatefulset. destruct (getVolumes val); [|discriminate].
  simpl. intros [= <-]. eexists. split; [reflexivity|]. auto.
Qed.

Lemma WaitCleanup_run (val : Values) (w : World) :
  exists (r : option error) (w' : World) (c : nat),
    WaitCleanup val w = (Some r, w') /\
    (c <= 17)%nat /\
    platform w' = platform w /\
    calls w' = calls w ++ repeat (CallGet (objectKey val)) (c + 1) /\
    now w <= now w' <= now w + 90 * Second.
Proof.
  destruct (Until_run_bounds (objectKey val) (fun _ => True) cleanupVerdict
              (waitCleanupStep val) (waitCleanupStep_verdict val)
              17 defaultInterval defaultTimeout None w tt I)
    as (u & r & w' & c & Hrun & Hc & Hp & _ & Hcalls & Hn & _);
    [unfold defaultInterval, Second; lia
    |unfold defaultInterval, defaultTimeout, Second; lia|].
  exists r, w', c.
  unfold WaitCleanup, bind. rewrite UntilTimeout_default, Hrun. auto.
Qed.

(** What [syncStatefulset] does, for every working copy: nothing when the
    composer panics, and otherwise one call, a patch of the composed object
    against the working copy when its generation is positive, and a create
    of the composed object when it is not. *)
Lemma syncStatefulset_run (val : Values) (sts : StatefulSet) (w : World) :
  exists r w' tail,
    syncStatefulset val sts w = (r, w') /\
    platform w' = platform w /\ now w' = now w /\
    calls w' = calls w ++ tail /\
    (tail = [] \/
     exists obj,
       client.ObjectKeyFromObject obj = objectKey val /\
       tail = [ if 0 <? om_Generation (sts_ObjectMeta sts)
                then CallPatch obj sts else CallCreate obj ]).
Proof.
  destruct (composeStatefulset val sts) as [obj|] eqn:Hobj.
  - rewrite (syncStatefulset_composed _ _ _ _ Hobj).
    pose proof (composeStatefulset_key _ _ _ Hobj) as Hkey.
    destruct (0 <? _); eexists _, _, _;
      (split; [reflexivity|]); (split; [reflexivity|]);
      (split; [reflexivity|]); (split; [reflexivity|]);
      right; exists obj; auto.
  - rewrite (syncStatefulset_panics _ _ _ Hobj).
    exists None, w, []. rewrite app_nil_r.
    repeat (split; [reflexivity|]). left. reflexivity.
Qed.

(** [Deploy], for every platform: the calls it makes and the time it
    takes. *)
Lemma Deploy_run (val : Values) (w : World) :
  exists r w' rest,
    Deploy val w = (r, w') /\
    platform w' = platform w /\
    calls w' = calls w ++ CallGet (objectKey val) :: rest /\
    now w <= now w' <= now w + 90 * Second /\
    ((now w' = now w /\
      (rest = [] \/
       exists obj,
         client.ObjectKeyFromObject obj = objectKey val /\
         (rest = [CallCreate obj] \/ exists base, rest = [CallPatch obj base]))) \/
     (exists (c : nat) (tail : list Call),
         (c <= 18)%nat /\
         rest = CallDelete (objectKey val)
                  :: repeat (CallGet (objectKey val)) c ++ tail /\
         (tail = [] \/
          exists obj,
            client.ObjectKeyFromObject obj = objectKey val /\
            tail = [CallCreate obj]))).
Proof.
  assert (Hsec : 0 <= 90 * Second) by (unfold Second; lia).
  rewrite Deploy_eq.
  destruct (getResult (platform w) (fetches w)) as [found|e].
  - cbv zeta. destruct (migrates val _).
    + rewrite OpDestroyAndWait_Destroy_eq.
      set (w1 := logged (CallDelete (objectKey val)) (fetched (objectKey val) w)).
      assert (Hc1 : calls w1 =
                calls w ++ [CallGet (objectKey val); CallDelete (objectKey val)]).
      { unfold w1. simpl. rewrite <- app_assoc. reflexivity. }
      destruct (IgnoreNotFound _) as [e|].
      { exists (Some (Some e)), w1, [CallDelete (objectKey val)].
        split; [reflexivity|]. split; [reflexivity|].
        split; [exact Hc1|]. split; [simpl; lia|].
        right. exists 0%nat, []. split; [lia|auto]. }
      destruct (WaitCleanup_run val w1) as (r & w2 & c & Hrun & Hle & Hp & Hc & Hn).
      rewrite Hrun. change (now w1) with (now w) in Hn.
      destruct r as [e|].
      { exists (Some (Some e)), w2,
          (CallDelete (objectKey val) :: repeat (CallGet (objectKey val)) (c + 1)).
        split; [reflexivity|]. split; [rewrite Hp; reflexivity|].
        split; [rewrite Hc, Hc1, <- app_assoc; reflexivity|].
        split; [exact Hn|].
        right. exists (c + 1)%nat, []. rewrite app_nil_r.
        split; [lia|auto]. }
      destruct (syncStatefulset_run val (emptyStatefulset val) w2)
        as (r & w3 & tail & Hsync & Hp3 & Hn3 & Hc3 & Htail).
      rewrite Hsync.
      exists r, w3,
        (CallDelete (objectKey val)
           :: repeat (CallGet (objectKey val)) (c + 1) ++ tail).
      split; [reflexivity|]. split; [rewrite Hp3, Hp; reflexivity|].
      split; [rewrite Hc3, Hc, Hc1, <- !app_assoc; reflexivity|].
      split; [rewrite Hn3; exact Hn|].
      right. exists (c + 1)%nat, tail. split; [lia|]. split; [reflexivity|].
      destruct Htail as [->|(obj & Hkey & ->)]; [auto|].
      right. exists obj. auto.
    + destruct (syncStatefulset_run val
                  (client.identifiedBy (objectKey val) found)
                  (fetched (objectKey val) w))
        as (r & w3 & tail & Hsync & Hp3 & Hn3 & Hc3 & Htail).
      rewrite Hsync. exists r, w3, tail.
      split; [reflexivity|]. split; [exact Hp3|].
      split; [rewrite Hc3; simpl; rewrite <- app_assoc; reflexivity|].
      split; [rewrite Hn3; simpl; lia|].
      left. split; [exact Hn3|].
      destruct Htail as [->|(obj & Hkey & ->)]; [auto|].
      right. exists obj. split; [exact Hkey|].
      destruct (0 <? _); [right; eexists; reflexivity|left; reflexivity].
  - destruct (IsNotFound (Some e)).
    + destruct (syncStatefulset_run val (emptyStatefulset val)
                  (fetched (objectKey val) w))
        as (r & w3 & tail & Hsync & Hp3 & Hn3 & Hc3 & Htail).
      rewrite Hsync. exists r, w3, tail.
      split; [reflexivity|]. split; [exact Hp3|].
      split; [rewrite Hc3; simpl; rewrite <- app_assoc; reflexivity|].
      split; [rewrite Hn3; simpl; lia|].
      left. split; [exact Hn3|].
      destruct Htail as [->|(obj & Hkey & ->)]; [auto|].
      right. exists obj. split; [exact Hkey|]. left. reflexivity.
    + exists (Some (Some e)), (fetched (objectKey val) w), [].
      split; [reflexivity|]. split; [reflexivity|]. split; [reflexivity|].
      split; [simpl; lia|]. left. auto.
Qed.

(** Property X8.
    The calls of a [Deploy], for every platform and snapshot: first the
    fetch by the key of the component; then nothing, or one create, or one
    patch, of an object with that key; or else the delete by that key,
    fetches by that key, and at the end nothing or one create of an object
    with that key. So a create or patch is the last call and the only
    one, and a delete is never followed by a patch. *)
Theorem Deploy_call_shapes (val : Values) (w : World) :
  exists rest,
    calls (snd (Deploy val w)) = calls w ++ CallGet (objectKey val) :: rest /\
    (rest = [] \/
     (exists obj,
         client.ObjectKeyFromObject obj = objectKey val /\
         (rest = [CallCreate obj] \/ exists base, rest = [CallPatch obj base])) \/
     (exists (c : nat) (tail : list Call),
         rest = CallDelete (objectKey val)
                  :: repeat (CallGet (objectKey val)) c ++ tail /\
         (tail = [] \/
          exists obj,
            client.ObjectKeyFromObject obj = objectKey val /\
            tail = [CallCreate obj]))).
Proof.
  destruct (Deploy_run val w) as (r & w' & rest & Hrun & _ & Hc & _ & Hshape).
  exists rest. rewrite Hrun. split; [exact Hc|].
  destruct Hshape as [(_ & [->|Hone])|(c & tail & _ & Hdel)]; auto.
  right. right. exists c, tail. exact Hdel.
Qed.

(** Property X9.
    A [Deploy] makes at most 21 calls to the platform: the fetch and at
    most one more call when it deletes nothing, and otherwise the fetch,
    the delete, at most 18 fetches of the teardown wait and at most one
    create. *)
Theorem Deploy_is_bounded (val : Values) (w : World) :
  exists new,
    calls (snd (Deploy val w)) = calls w ++ new /\
    (length new <= 21)%nat /\
    (existsb isDelete new = false -> (length new <= 2)%nat) /\
    (length (List.filter isGet new) <= 19)%nat /\
    (length (List.filter isDelete new) <= 1)%nat /\
    (length (List.filter (fun c => isCreate c || isPatch c) new) <= 1)%nat.
Proof.
  destruct (Deploy_run val w) as (r & w' & rest & Hrun & _ & Hc & _ & Hshape).
  exists (CallGet (objectKey val) :: rest). rewrite Hrun. cbn [snd].
  split; [exact Hc|].
  assert (Hgets : forall c,
             List.filter isGet (repeat (CallGet (objectKey val)) c) =
               repeat (CallGet (objectKey val)) c /\
             List.filter isDelete (repeat (CallGet (objectKey val)) c) = [] /\
             List.filter (fun c => isCreate c || isPatch c)
               (repeat (CallGet (objectKey val)) c) = []).
  { induction c as [|c (IH1 & IH2 & IH3)]; [repeat split|].
    simpl. rewrite IH1, IH2, IH3. repeat split. }
  destruct Hshape
    as [(_ & [->|(obj & _ & [->|(base & ->)])])
       |(c & tail & Hle & -> & [->|(obj & _ & ->)])];
    try (simpl; repeat split; intros; lia).
  - destruct (Hgets c) as (H1 & H2 & H3).
    rewrite app_nil_r. simpl. rewrite H1. rewrite H2. rewrite H3.
    rewrite repeat_length. simpl. repeat split; lia.
  - destruct (Hgets c) as (H1 & H2 & H3).
    simpl. rewrite !List.filter_app. rewrite H1. rewrite H2. rewrite H3.
    rewrite !length_app. rewrite repeat_length. simpl.
    repeat split; lia.
Qed.

(** Property X12.
    [Destroy] makes one call, the delete by the key of the component,
    without a fetch before it and without waiting; it succeeds when the
    delete succeeded or answered not-found, so destroying what is not
    there is no error, and it returns the error of the delete otherwise. *)
Theorem Destroy_ignores_absence (val : Values) (w : World) :
  let d := deleteResult (platform w) (objectKey val) in
  exists r,
    Destroy val w = (Some r, logged (CallDelete (objectKey val)) w) /\
    now (snd (Destroy val w)) = now w /\
    (r = None <-> d = None \/ IsNotFound d = true) /\
    (forall e, r = Some e -> d = Some e /\ IsNotFound d = false).
Proof.
  intros d. exists (IgnoreNotFound d).
  split; [apply Destroy_eq|]. split; [rewrite Destroy_eq; reflexivity|].
  unfold IgnoreNotFound. destruct (IsNotFound d) eqn:Hnf.
  - split; [|discriminate].
    split; [intros _; right; reflexivity|reflexivity].
  - split.
    + split; [auto|]. intros [H|H]; [exact H|discriminate].
    + intros e He. auto.
Qed.

(** Property X10.
    Below generation 2, with a desired replica count of 1 or less, or with
    a last-observed replica count other than 0 and 1, [Deploy] never
    deletes the fetched object, whatever its service name: the one call
    after the fetch is a patch when the generation is positive and a
    create when it is not. *)
Theorem Deploy_without_migration (val : Values) (w : World) (found : StatefulSet) :
  getResult (platform w) (fetches w) = inl found ->
  let sts := client.identifiedBy (objectKey val) found in
  om_Generation (sts_ObjectMeta sts) <= 1 \/
  Replicas val <= 1 \/
  (StatusReplicas val <> 0 /\ StatusReplicas val <> 1) ->
  Deploy val w =
    match composeStatefulset val sts with
    | Some obj =>
        if 0 <? om_Generation (sts_ObjectMeta sts)
        then (Some (patchResult (platform w) obj sts),
              logged (CallPatch obj sts) (fetched (objectKey val) w))
        else (Some (createResult (platform w) obj),
              logged (CallCreate obj) (fetched (objectKey val) w))
    | None => (None, fetched (objectKey val) w)
    end.
Proof.
  intros Hr sts Hcase.
  assert (Hm : migrates val sts = false).
  { unfold migrates, clusterScaledUpToMultiNode.
    destruct Hcase as [Hg|[Hrep|(H0 & H1)]].
    - destruct (Z.ltb_spec 1 (om_Generation (sts_ObjectMeta sts))); [lia|].
      reflexivity.
    - destruct (Z.ltb_spec 1 (Replicas val)); [lia|].
      simpl. rewrite andb_false_r. reflexivity.
    - destruct (Z.eqb_spec (StatusReplicas val) 0); [contradiction|].
      destruct (Z.eqb_spec (StatusReplicas val) 1); [contradiction|].
      simpl. rewrite !andb_false_r. reflexivity. }
  rewrite Deploy_eq, Hr. cbv zeta. fold sts. rewrite Hm.
  destruct (composeStatefulset val sts) as [obj|] eqn:Hobj.
  - rewrite (syncStatefulset_composed _ _ _ _ Hobj).
    destruct (0 <? _); reflexivity.
  - apply syncStatefulset_panics. exact Hobj.
Qed.

(** Property X11.
    The specification the composer writes is one [Deploy] never migrates
    away from: on an object that exists and has the composed
    specification, a [Deploy] with the same snapshot patches, whatever the
    replica counts, and deletes nothing. *)
Theorem redeploy_patches
    (val : Values) (w : World) (sts obj found : StatefulSet) :
  composeStatefulset val sts = Some obj ->
  getResult (platform w) (fetches w) = inl found ->
  sts_Spec found = sts_Spec obj ->
  0 < om_Generation (sts_ObjectMeta found) ->
  let current := client.identifiedBy (objectKey val) found in
  exists obj',
    composeStatefulset val current = Some obj' /\
    sts_Spec obj' = sts_Spec found /\
    Deploy val w =
      (Some (patchResult (platform w) obj' current),
       logged (CallPatch obj' current) (fetched (objectKey val) w)).
Proof.
  intros Hobj Hr Hspec Hg current.
  destruct (composeStatefulset_any val sts current obj Hobj)
    as (obj' & Hobj' & _ & Hspec' & _).
  exists obj'. split; [exact Hobj'|]. split; [congruence|].
  assert (Hname : ss_ServiceName (sts_Spec current) = ServiceName val).
  { change (sts_Spec current) with (sts_Spec found). rewrite Hspec.
    unfold composeStatefulset in Hobj.
    destruct (getVolumes val); [|discriminate].
    simpl in Hobj. injection Hobj as <-. reflexivity. }
  rewrite Deploy_eq, Hr. cbv zeta. fold current.
  rewrite (migrates_false val current (or_intror Hname)).
  rewrite (syncStatefulset_existing val current _ Hg), Hobj'. reflexivity.
Qed.

(** *** More facts about the composer *)

Ltac provider_cases p :=
  unfold oneOf, utils.Local, utils.GCS, utils.S3, utils.OSS, utils.ABS,
    utils.Swift, utils.OCS;
  cbn [existsb];
  destruct (String.eqb p "Local");
  [|destruct (String.eqb p "GCS"); rewrite ?orb_true_r; cbn [orb];
    [|destruct (String.eqb p "S3"); rewrite ?orb_true_r; cbn [orb];
      [|destruct (String.eqb p "OSS"); rewrite ?orb_true_r; cbn [orb];
        [|destruct (String.eqb p "ABS"); rewrite ?orb_true_r; cbn [orb];
          [|destruct (String.eqb p "Swift"); rewrite ?orb_true_r; cbn [orb];
            [|destruct (String.eqb p "OCS"); rewrite ?orb_true_r; cbn [orb]]]]]]].

(** The names of the volumes, against the names of the volume mounts of
    the two containers. *)
Lemma getVolumes_names (val : Values) (vs : list Volume) :
  getVolumes val = Some vs ->
  map vm_Name (getBackupRestoreVolumeMounts val) =
    VolumeClaimTemplateName val :: map vol_Name vs /\
  NoDup (map vol_Name vs) /\
  (forall m, In m (getEtcdVolumeMounts val) ->
     vm_Name m = VolumeClaimTemplateName val \/ In (vm_Name m) (map vol_Name vs)).
Proof.
  unfold getVolumes, getBackupRestoreVolumeMounts, getEtcdVolumeMounts,
    getSecretVolumeMounts, notNil.
  destruct (ClientUrlTLS val) as [ctls|]; destruct (PeerUrlTLS val) as [ptls|];
    (destruct (BackupStore val) as [store|];
     [destruct (StorageProviderFromInfraProvider (Provider store)) as [p [e|]];
      [|provider_cases p; [destruct (Container_ store)|..]]|]);
    cbn; intros H; try discriminate; injection H as <-;
    (split; [reflexivity|]);
    (split; [cbn; apply (bool_decide_unpack _); vm_compute; reflexivity|]);
    cbn; intros m Hm;
    repeat (destruct Hm as [<-|Hm]; [cbn; auto 12|]); destruct Hm.
Qed.

(** Property X13.
    In a composed object the backup-restore container mounts the volume
    of the claim template and then every volume of the pod, each once
    and in the order of the volumes; every mount of the [etcd] container
    is one of these; the one claim template has the name the mounts use;
    and no two volumes of the pod share a name. So no mount names a
    volume the pod lacks, and the pod has no volume that is not mounted. *)
Theorem sidecar_mounts_every_volume (val : Values) (sts obj : StatefulSet) :
  composeStatefulset val sts = Some obj ->
  let pod := pts_Spec (ss_Template (sts_Spec obj)) in
  exists etcd sidecar,
    ps_Containers pod = [etcd; sidecar] /\
    map vm_Name (c_VolumeMounts sidecar) =
      VolumeClaimTemplateName val :: map vol_Name (ps_Volumes pod) /\
    (forall m, In m (c_VolumeMounts etcd) ->
       In (vm_Name m) (map vm_Name (c_VolumeMounts sidecar))) /\
    map (fun pvc => om_Name (pvc_ObjectMeta pvc))
      (ss_VolumeClaimTemplates (sts_Spec obj)) = [VolumeClaimTemplateName val] /\
    NoDup (map vol_Name (ps_Volumes pod)).
Proof.
  unfold composeStatefulset. intros H.
  destruct (getVolumes val) as [volumes|] eqn:Hv; [|discriminate].
  simpl in H. injection H as <-. cbv zeta.
  destruct (getVolumes_names val volumes Hv) as (Hm & Hnd & He).
  eexists _, _. split; [reflexivity|].
  cbn [c_VolumeMounts ps_Volumes pts_Spec ss_Template sts_Spec
       ss_VolumeClaimTemplates].
  split; [exact Hm|]. split; [|split; [reflexivity|exact Hnd]].
  intros m Hin. rewrite Hm. destruct (He m Hin) as [->|Hin']; [left; reflexivity|right; exact Hin'].
Qed.

(** Property X14.
    The pod template of a composed object has the labels of the object,
    and the selector of the object selects these labels exactly when the
    user labels of the snapshot do not give [name] a value other than
    [etcd] or [instance] a value other than the name of the snapshot
    (with the merge of label maps in which the later map wins). *)
Theorem selector_selects_the_template (val : Values) (sts obj : StatefulSet) :
  composeStatefulset val sts = Some obj ->
  let labels := om_Labels (pts_ObjectMeta (ss_Template (sts_Spec obj))) in
  labels = om_Labels (sts_ObjectMeta obj) /\
  ((forall k v, getCommonLabels val !! k = Some v -> labels !! k = Some v) <->
   (forall v, Labels val !! "name" = Some v -> v = "etcd") /\
   (forall v, Labels val !! "instance" = Some v -> v = Name val)).
Proof.
  unfold composeStatefulset. intros H.
  destruct (getVolumes val) as [volumes|]; [|discriminate].
  simpl in H. injection H as <-. cbv zeta.
  cbn [om_Labels pts_ObjectMeta ss_Template sts_Spec sts_ObjectMeta getObjectMeta].
  split; [reflexivity|]. unfold utils.MergeStringMaps.
  assert (Hname : getCommonLabels val !! "name" = Some "etcd").
  { unfold getCommonLabels. apply lookup_insert_Some. left. auto. }
  assert (Hinst : getCommonLabels val !! "instance" = Some (Name val)).
  { unfold getCommonLabels. apply lookup_insert_Some. right.
    split; [discriminate|]. apply lookup_singleton_Some. auto. }
  split.
  - intros Hall. split; intros v Hv.
    + specialize (Hall _ _ Hname).
      rewrite (lookup_union_Some_l _ _ _ _ Hv) in Hall. congruence.
    + specialize (Hall _ _ Hinst).
      rewrite (lookup_union_Some_l _ _ _ _ Hv) in Hall. congruence.
  - intros (Hn & Hi) k v Hk.
    destruct (Labels val !! k) as [u|] eqn:Hu.
    + rewrite (lookup_union_Some_l _ _ _ _ Hu).
      unfold getCommonLabels in Hk.
      apply lookup_insert_Some in Hk as [(<- & <-)|(Hne & Hk)].
      * f_equal. apply Hn. exact Hu.
      * apply lookup_singleton_Some in Hk as (<- & <-).
        f_equal. apply Hi. exact Hu.
    + rewrite lookup_union_r by exact Hu. exact Hk.
Qed.

(** Property X15.
    The [etcd] container of a composed object is given, in
    [BACKUP_ENDPOINT], the host name that the pod aliases to 127.0.0.1
    and the container port of the backup-restore container (the backup
    port of the snapshot, or the default); the scheme is [https] exactly
    when [ENABLE_TLS] is [true], which is when the snapshot has a backup
    TLS configuration. *)
Theorem etcd_is_told_where_the_sidecar_listens (val : Values) (sts obj : StatefulSet) :
  composeStatefulset val sts = Some obj ->
  let pod := pts_Spec (ss_Template (sts_Spec obj)) in
  let tls := notNil (BackupTLS val) in
  let host := Name val +:+ "-local" in
  let port := Int32Deref (BackupPort val) defaultBackupPort in
  exists etcd sidecar,
    ps_Containers pod = [etcd; sidecar] /\
    ps_HostAliases pod = [ {| ha_IP := "127.0.0.1"; ha_Hostnames := [host] |} ] /\
    map port_ContainerPort (c_Ports sidecar) = [port] /\
    c_Env etcd =
      [ {| env_Name := "ENABLE_TLS";
           env_Value := if tls then "true" else "false";
           env_ValueFrom := None |};
        {| env_Name := "BACKUP_ENDPOINT";
           env_Value :=
             (if tls then "https" else "http") +:+ "://" +:+ host +:+ ":" +:+
             FormatInt port;
           env_ValueFrom := None |};
        {| env_Name := "FAIL_BELOW_REVISION_PARAMETER";
           env_Value := "";
           env_ValueFrom := None |} ].
Proof.
  unfold composeStatefulset. intros H.
  destruct (getVolumes val) as [volumes|]; [|discriminate].
  simpl in H. injection H as <-. cbv zeta.
  eexists _, _. split; [reflexivity|]. split; [reflexivity|].
  split; [reflexivity|].
  cbn [c_Env]. unfold getEtcdEnvVars. cbn [app].
  rewrite append_assoc. reflexivity.
Qed.

(** Property X16.
    A backup store whose provider the resolver rejects with an error, or
    resolves to a name that is none of the eight provider kinds, is no
    failure of the composer: the volumes and the volume mounts are those
    of the snapshot without a store, and the environment of the
    backup-restore container is the three common variables, with the
    container of the store in [STORAGE_CONTAINER]. *)
Theorem unresolved_provider_is_ignored (val : Values) (store : StoreSpec) :
  BackupStore val = Some store ->
  snd (StorageProviderFromInfraProvider (Provider store)) <> None \/
  ~ In (fst (StorageProviderFromInfraProvider (Provider store)))
      [utils.Local; utils.S3; utils.ABS; utils.GCS; utils.Swift; utils.OSS;
       utils.ECS; utils.OCS] ->
  is_Some (getVolumes val) /\
  getVolumes val = getVolumes (withBackupStore val None) /\
  getBackupRestoreVolumeMounts val =
    getBackupRestoreVolumeMounts (withBackupStore val None) /\
  getBackupRestoreEnvVars val =
    [ {| env_Name := "STORAGE_CONTAINER";
         env_Value := StringDeref (Container_ store) "";
         env_ValueFrom := None |};
      {| env_Name := "POD_NAME"; env_Value := "";
         env_ValueFrom :=
           Some {| evs_FieldRef := Some {| ofs_FieldPath := "metadata.name" |};
                   evs_SecretKeyRef := None |} |};
      {| env_Name := "POD_NAMESPACE"; env_Value := "";
         env_ValueFrom :=
           Some {| evs_FieldRef :=
                     Some {| ofs_FieldPath := "metadata.namespace" |};
                   evs_SecretKeyRef := None |} |} ].
Proof.
  intros Hs Hcase.
  unfold getVolumes, getBackupRestoreVolumeMounts,
    getBackupRestoreEnvVars.
  rewrite Hs. cbn [BackupStore withBackupStore ClientUrlTLS PeerUrlTLS
                   ConfigMapName VolumeClaimTemplateName].
  destruct (StorageProviderFromInfraProvider (Provider store)) as [p [e|]]; cbn [fst snd] in Hcase.
  - repeat split; eauto.
  - destruct Hcase as [Hcase|Hcase]; [contradiction|].
    assert (Hne : forall q, In q [utils.Local; utils.S3; utils.ABS; utils.GCS;
                                  utils.Swift; utils.OSS; utils.ECS; utils.OCS] ->
                            String.eqb p q = false).
    { intros q Hq. apply String.eqb_neq. intros ->. contradiction. }
    unfold oneOf. cbn [existsb].
    change "Local" with utils.Local.
    rewrite !Hne by (cbn; auto 12). cbn [orb].
    repeat split; eauto.
Qed.

(** Property X17.
    A local backup store with a container adds, to what the snapshot
    without a store gives, the host-path volume [host-storage] for the
    directory [<local prefix>/<container>] and its mount in the
    backup-restore container at the path [<container>]; the environment
    has the three common variables and no credentials. *)
Theorem local_store_is_a_host_directory
    (val : Values) (store : StoreSpec) (container : string) :
  BackupStore val = Some store ->
  StorageProviderFromInfraProvider (Provider store) = (utils.Local, None) ->
  Container_ store = Some container ->
  (exists base,
      getVolumes (withBackupStore val None) = Some base /\
      getVolumes val =
        Some (base ++
              [ {| vol_Name := "host-storage";
                   vol_VolumeSource :=
                     {| vs_HostPath :=
                          Some {| hp_Path := defaultLocalPrefix +:+ "/" +:+ container;
                                  hp_Type := Some HostPathDirectory |};
                        vs_Secret := None;
                        vs_ConfigMap := None |} |} ])) /\
  getBackupRestoreVolumeMounts val =
    getBackupRestoreVolumeMounts (withBackupStore val None) ++
    [ {| vm_Name := "host-storage"; vm_MountPath := container |} ] /\
  getBackupRestoreEnvVars val = commonBackupRestoreEnvVars container.
Proof.
  intros Hs Hr Hc.
  unfold getVolumes, getBackupRestoreVolumeMounts,
    getBackupRestoreEnvVars.
  rewrite Hs, Hr, Hc. cbn [BackupStore withBackupStore ClientUrlTLS PeerUrlTLS
                   ConfigMapName VolumeClaimTemplateName].
  simpl. repeat split. eexists. split; reflexivity.
Qed.

End Component.


(** ** The model run on the sample instantiation *)

Local Abbreviation compose :=
  (composeStatefulset Sample.StorageProviderFromInfraProvider
     Sample.defaultServerPort Sample.defaultClientPort Sample.defaultBackupPort
     Sample.defaultStorageCapacity Sample.defaultLocalPrefix Sample.GroupVersion).

Local Abbreviation deploy :=
  (Deploy Sample.StorageProviderFromInfraProvider
     Sample.defaultServerPort Sample.defaultClientPort Sample.defaultBackupPort
     Sample.defaultStorageCapacity Sample.defaultLocalPrefix Sample.GroupVersion).

Local Abbreviation wait := (Wait Sample.CheckStatefulSet).
Local Abbreviation poll := (waitPoll Sample.CheckStatefulSet).

Local Abbreviation containersOf obj :=
  (ps_Containers (pts_Spec (ss_Template (sts_Spec obj)))).

(** Claim C3: on a snapshot whose backup store is the local one and names
    no container, [getVolumes] dereferences the nil container and panics,
    and so do the composer and a [Deploy] that reaches it (here after a
    not-found fetch, the fetch being its only call), while the volume
    mounts of the same snapshot are computed, the nil container being
    tested there. *)
Theorem composer_panics_on_local_store_without_container :
  let val := Sample.values 1 0 ∅ (Some (Sample.store "Local" None)) in
  let w := Sample.start (Sample.script [] (inr Sample.notFound) None (inl []) (fun _ => inl "")) in
  getVolumes Sample.StorageProviderFromInfraProvider Sample.defaultLocalPrefix val = None /\
  compose val (emptyStatefulset val) = None /\
  fst (deploy val w) = None /\
  calls (snd (deploy val w)) = [CallGet Sample.key] /\
  getBackupRestoreVolumeMounts Sample.StorageProviderFromInfraProvider val =
    [ {| vm_Name := "data"; vm_MountPath := "/var/etcd/data" |};
      {| vm_Name := "etcd-config-file"; vm_MountPath := "/var/etcd/config/" |} ].
Proof. vm_compute. repeat split. Qed.

(** The same snapshot with a container is composed. *)
Example composer_returns_on_local_store_with_container :
  let val := Sample.values 1 0 ∅ (Some (Sample.store "Local" (Some "bucket"))) in
  option_map (fun vs => map vol_Name vs)
    (getVolumes Sample.StorageProviderFromInfraProvider Sample.defaultLocalPrefix val)
  = Some ["etcd-config-file"; "host-storage"].
Proof. vm_compute. reflexivity. Qed.

(** The probes of the two containers composed for the sample snapshot. *)
Lemma probes_of_composed_containers_witness :
  let val := Sample.values 3 3 ∅ None in
  exists obj,
    compose val (emptyStatefulset val) = Some obj /\
    exists etcd sidecar,
      containersOf obj = [etcd; sidecar] /\
      c_Name etcd = "etcd" /\
      c_Name sidecar = "backup-restore" /\
      c_ReadinessProbe etcd =
        Some {| probe_Exec := Some {| exec_Command := ReadinessProbeCommand val |};
                probe_InitialDelaySeconds := 15;
                probe_PeriodSeconds := 5;
                probe_FailureThreshold := 5 |} /\
      c_LivenessProbe etcd =
        Some {| probe_Exec := Some {| exec_Command := LivenessProbCommand val |};
                probe_InitialDelaySeconds := 15;
                probe_PeriodSeconds := 5;
                probe_FailureThreshold := 5 |} /\
      c_ReadinessProbe sidecar = None /\
      c_LivenessProbe sidecar = None.
Proof.
  intros val.
  destruct (compose val (emptyStatefulset val)) as [obj|] eqn:H;
    [|vm_compute in H; discriminate].
  exists obj. split; [reflexivity|].
  exact (probes_of_composed_containers _ _ _ _ _ _ _ val (emptyStatefulset val) obj H).
Defined.

(** The claim as the spec states it fails on the sidecar: the
    [backup-restore] container of a composed object has neither a readiness
    nor a liveness probe. *)
Lemma sidecar_carries_no_probes :
  let val := Sample.values 3 3 ∅ None in
  exists obj sidecar,
    compose val (emptyStatefulset val) = Some obj /\
    In sidecar (containersOf obj) /\
    c_Name sidecar = "backup-restore" /\
    c_ReadinessProbe sidecar = None /\
    c_LivenessProbe sidecar = None.
Proof.
  intros val. eexists. eexists.
  split; [vm_compute; reflexivity|].
  split; [right; left; reflexivity|].
  repeat split.
Qed.

(** A snapshot whose user labels set [name]: the label wins in the labels of
    the object and of the pod template, and the selector keeps the system
    value. *)
Lemma selector_is_the_identity_labels_witness :
  let val := Sample.values 3 3 {[ "name" := "custom"; "team" := "storage" ]} None in
  exists obj,
    compose val (emptyStatefulset val) = Some obj /\
    ss_Selector (sts_Spec obj) =
      Some {| ls_MatchLabels := {[ "name" := "etcd"; "instance" := "myetcd" ]} |} /\
    om_Labels (sts_ObjectMeta obj) !! "name" = Some "custom" /\
    om_Labels (pts_ObjectMeta (ss_Template (sts_Spec obj))) !! "name" = Some "custom".
Proof.
  intros val.
  destruct (compose val (emptyStatefulset val)) as [obj|] eqn:H;
    [|vm_compute in H; discriminate].
  exists obj. split; [reflexivity|].
  destruct (selector_is_the_identity_labels _ _ _ _ _ _ _
              val (emptyStatefulset val) obj H) as (Hsel & _ & Hover & _).
  split; [exact Hsel|].
  apply (Hover "name" "custom"). vm_compute. reflexivity.
Defined.

(** A patch of an existing object writes the selector the create wrote. *)
Example selector_is_kept_by_a_patch :
  let val := Sample.values 3 3 {[ "name" := "custom" ]} None in
  let w := Sample.start
             (Sample.script [inl (Sample.existing 5 "myetcd-peer" 3)]
                (inr Sample.notFound) None (inl []) (fun _ => inl "")) in
  exists obj baseline,
    calls (snd (deploy val w)) = [CallGet Sample.key; CallPatch obj baseline] /\
    ss_Selector (sts_Spec obj) = ss_Selector (sts_Spec baseline).
Proof. intros val w. eexists. eexists. split; vm_compute; reflexivity. Qed.

(** The sample snapshot with an ECS store: the [backup-restore] container
    of the composed object has the three common variables and the three
    references into the secret [etcd-backup-secret]; the pod has the
    configuration volume alone and the container mounts the data volume
    and the configuration. *)
Lemma provider_credentials_witness :
  let store := Sample.store "ECS" (Some "bucket") in
  let val := Sample.values 3 3 ∅ (Some store) in
  let fromSecret := fun name key =>
    {| env_Name := name; env_Value := "";
       env_ValueFrom :=
         Some {| evs_FieldRef := None;
                 evs_SecretKeyRef :=
                   Some {| sks_Name := "etcd-backup-secret";
                           sks_Key := key |} |} |} in
  let fromField := fun name path =>
    {| env_Name := name; env_Value := "";
       env_ValueFrom :=
         Some {| evs_FieldRef := Some {| ofs_FieldPath := path |};
                 evs_SecretKeyRef := None |} |} in
  exists obj etcd sidecar,
    compose val (emptyStatefulset val) = Some obj /\
    containersOf obj = [etcd; sidecar] /\
    c_Name sidecar = "backup-restore" /\
    c_Env sidecar =
      [ {| env_Name := "STORAGE_CONTAINER"; env_Value := "bucket";
           env_ValueFrom := None |};
        fromField "POD_NAME" "metadata.name";
        fromField "POD_NAMESPACE" "metadata.namespace";
        fromSecret "ECS_ENDPOINT" "endpoint";
        fromSecret "ECS_ACCESS_KEY_ID" "accessKeyID";
        fromSecret "ECS_SECRET_ACCESS_KEY" "secretAccessKey" ] /\
    map vol_Name (ps_Volumes (pts_Spec (ss_Template (sts_Spec obj)))) =
      ["etcd-config-file"] /\
    map vm_Name (c_VolumeMounts sidecar) = ["data"; "etcd-config-file"].
Proof.
  intros store val fromSecret fromField.
  destruct (compose val (emptyStatefulset val)) as [obj|] eqn:H;
    [|vm_compute in H; discriminate].
  destruct (provider_credentials Sample.StorageProviderFromInfraProvider
              Sample.defaultServerPort Sample.defaultClientPort
              Sample.defaultBackupPort Sample.defaultStorageCapacity
              Sample.defaultLocalPrefix Sample.GroupVersion
              val store utils.ECS (emptyStatefulset val) obj
              eq_refl eq_refl H)
    as (etcd & sidecar & Hc & Hname & Hecs & _).
  destruct (Hecs eq_refl) as (Henv & Hvol & Hmounts & _).
  exists obj, etcd, sidecar. split; [reflexivity|]. split; [exact Hc|].
  split; [exact Hname|]. split; [exact Henv|].
  rewrite Hmounts. clear Hc Hname Hecs Henv Hvol Hmounts.
  vm_compute in H. injection H as <-. split; reflexivity.
Defined.

(** The other object-storage kinds on the sample snapshot. *)
Example provider_credentials_of_the_other_kinds :
  map (fun p =>
         let val := Sample.values 3 3 ∅ (Some (Sample.store p None)) in
         (option_map (fun vs => map vol_Name vs)
            (getVolumes Sample.StorageProviderFromInfraProvider
               Sample.defaultLocalPrefix val),
          map (fun e => (env_Name e, env_Value e))
            (drop 3 (getBackupRestoreEnvVars
                       Sample.StorageProviderFromInfraProvider val))))
    [utils.S3; utils.GCS; utils.ECS; "unknown"]
  = [ (Some ["etcd-config-file"; "etcd-backup"],
       [("AWS_APPLICATION_CREDENTIALS", "/root/etcd-backup")]);
      (Some ["etcd-config-file"; "etcd-backup"],
       [("GOOGLE_APPLICATION_CREDENTIALS", "/root/.gcp/serviceaccount.json")]);
      (Some ["etcd-config-file"],
       [("ECS_ENDPOINT", ""); ("ECS_ACCESS_KEY_ID", "");
        ("ECS_SECRET_ACCESS_KEY", "")]);
      (Some ["etcd-config-file"], []) ].
Proof. vm_compute. reflexivity. Qed.

(** The fetch sequence not-found, not-found, ready: the wait succeeds at the
    third tick, 10 seconds after it began. *)
Lemma convergence_waiter_witness :
  let val := Sample.values 3 3 ∅ None in
  let w := Sample.start
             (Sample.script
                [inr Sample.notFound; inr Sample.notFound;
                 inl (Sample.existing 1 "myetcd-peer" 3)]
                (inr Sample.notFound) None (inl []) (fun _ => inl "")) in
  fst (wait val w) = Some None /\
  fetches (snd (wait val w)) = 3%nat /\
  calls (snd (wait val w)) =
    [CallGet Sample.key; CallGet Sample.key; CallGet Sample.key] /\
  now (snd (wait val w)) = 10 * Second /\
  now (snd (wait val w)) <= 15 * Second.
Proof.
  intros val w.
  destruct (convergence_waiter Sample.CheckStatefulSet val) as (_ & _ & Hready & _).
  destruct (Hready 2%nat w) as (Hrun & Hf & Hn & Hc).
  - lia.
  - intros [|[|j]] Hj; [reflexivity|reflexivity|lia].
  - reflexivity.
  - rewrite Hrun. cbn [fst snd]. rewrite Hf, Hn, Hc.
    repeat split. vm_compute. discriminate.
Defined.

(** A fetch sequence that never gets ready: the wait ends at the deadline,
    after 18 fetches and 90 seconds, and the text of its error carries the
    warning of the pending volume claim [data-myetcd-0]. *)
Example convergence_waiter_times_out :
  let val := Sample.values 3 3 ∅ None in
  let w := Sample.start
             (Sample.script [] (inl (Sample.existing 1 "myetcd-peer" 2)) None
                (inl [Sample.claim "data-myetcd-0" "Pending";
                      Sample.claim "data-myetcd-1" "Bound"])
                (fun _ => inl "waiting for a volume to be created")) in
  option_map (option_map Error) (fst (wait val w)) =
    Some (Some ("retry failed with context deadline exceeded, " +:+
                "last error: not enough ready replicas" +:+ nl +:+ nl +:+
                "Warning for PVC data-myetcd-0:" +:+ nl +:+
                "waiting for a volume to be created" +:+ nl)) /\
  fetches (snd (wait val w)) = 18%nat /\
  now (snd (wait val w)) = 90 * Second.
Proof. vm_compute. repeat split. Qed.

(** The object present at the first fetch and gone at the second: the wait
    succeeds after two ticks. *)
Lemma teardown_waiter_witness :
  let val := Sample.values 3 3 ∅ None in
  let w := Sample.start
             (Sample.script [inl (Sample.existing 2 "myetcd-peer" 3)]
                (inr Sample.notFound) None (inl []) (fun _ => inl "")) in
  fst (WaitCleanup val w) = Some None /\
  fetches (snd (WaitCleanup val w)) = 2%nat /\
  calls (snd (WaitCleanup val w)) = [CallGet Sample.key; CallGet Sample.key] /\
  now (snd (WaitCleanup val w)) = 5 * Second.
Proof.
  intros val w.
  destruct (teardown_waiter Sample.CheckStatefulSet val) as (_ & _ & Habsent & _).
  destruct (Habsent 1%nat w) as (Hrun & Hf & Hn & Hc).
  - lia.
  - intros [|j] Hj; [reflexivity|lia].
  - reflexivity.
  - rewrite Hrun. cbn [fst snd]. rewrite Hf, Hn, Hc. repeat split.
Defined.

(** An object that never goes away: the wait ends at the deadline. *)
Example teardown_waiter_times_out :
  let val := Sample.values 3 3 ∅ None in
  let w := Sample.start
             (Sample.script [] (inl (Sample.existing 2 "myetcd-peer" 3)) None
                (inl []) (fun _ => inl "")) in
  fst (WaitCleanup val w) = Some (Some (retryError DeadlineExceeded None)) /\
  fetches (snd (WaitCleanup val w)) = 18%nat /\
  now (snd (WaitCleanup val w)) = 90 * Second.
Proof. vm_compute. repeat split. Qed.

(** The object is fetched but not ready, then the fetch is forbidden: the
    loop ends with that error; of the three volume claims of the namespace
    only the pending [data-myetcd-0] has its events queried, and its
    warning is appended to the text of the error. *)
Lemma diagnostic_enrichment_witness :
  let val := Sample.values 3 3 ∅ None in
  let claims := [Sample.claim "data-myetcd-0" "Pending";
                 Sample.claim "data-myetcd-1" "Bound";
                 Sample.claim "other-myetcd-0" "Pending"] in
  let w := Sample.start
             (Sample.script [inl (Sample.existing 1 "myetcd-peer" 2)]
                (inr Sample.forbidden) None (inl claims)
                (fun _ => inl "waiting for a volume to be created")) in
  exists w2 messages,
    wait val w = (Some (Some (enrich Sample.forbidden messages)), w2) /\
    Error (enrich Sample.forbidden messages) =
      Error Sample.forbidden +:+ nl +:+ nl +:+ messages /\
    messages = "Warning for PVC data-myetcd-0:" +:+ nl +:+
               "waiting for a volume to be created" +:+ nl /\
    calls w2 =
      [CallGet Sample.key; CallGet Sample.key; CallList "shoot";
       CallFetchEventMessages (Sample.claim "data-myetcd-0" "Pending")
         EventTypeWarning 2].
Proof.
  intros val claims w.
  set (sts := client.identifiedBy Sample.key (Sample.existing 1 "myetcd-peer" 2)).
  set (w1 := fetched Sample.key (advanced (5 * Second) (fetched Sample.key w))).
  assert (Hpoll : poll val w = (Some (sts, Some Sample.forbidden), w1))
    by reflexivity.
  destruct (diagnostic_enrichment Sample.CheckStatefulSet val w w1 sts
              Sample.forbidden Hpoll)
    as (messages & err2 & w2 & evs & Hrun & Hc & _ & Hlist & _ & Henrich & _).
  destruct (Hlist claims eq_refl) as (_ & Hcomplete).
  destruct Hcomplete as (Herr2 & Hevs); [intros pvc; eexists; reflexivity|].
  assert (Hm : messages = "Warning for PVC data-myetcd-0:" +:+ nl +:+
                          "waiting for a volume to be created" +:+ nl).
  { pose proof (f_equal (fun r => match fst r with
                                  | Some (m, _) => m
                                  | None => ""
                                  end) Hrun) as Hm.
    vm_compute in Hm. rewrite <- Hm. vm_compute. reflexivity. }
  assert (Hne : messages <> "") by (rewrite Hm; vm_compute; discriminate).
  destruct (Henrich Herr2 Hne) as (Hwait & Htext).
  exists w2, messages. split; [exact Hwait|]. split; [exact Htext|].
  split; [exact Hm|].
  rewrite Hc, Hevs. reflexivity.
Defined.

(** When the listing of the volume claims fails, the error of the loop is
    returned as it is. *)
Example diagnostic_failure_is_not_surfaced :
  let val := Sample.values 3 3 ∅ None in
  let w := Sample.start
             (Sample.script [] (inr Sample.forbidden) None
                (inr (errorString "list is forbidden"))
                (fun _ => inl "waiting for a volume to be created")) in
  fst (wait val w) = Some (Some Sample.forbidden) /\
  calls (snd (wait val w)) = [CallGet Sample.key; CallList "shoot"].
Proof. vm_compute. repeat split. Qed.

(** A fetch answered by not-found, by a forbidden error and by an object of
    generation 5: a create, the error and nothing else, a patch. *)
Lemma create_or_patch_witness :
  let val := Sample.values 3 3 ∅ None in
  let script gets := Sample.start
                       (Sample.script gets (inr Sample.notFound) None (inl [])
                          (fun _ => inl "")) in
  (exists obj,
      deploy val (script []) =
        (Some None, logged (CallCreate obj) (fetched Sample.key (script []))) /\
      om_Generation (sts_ObjectMeta (emptyStatefulset val)) = 0) /\
  deploy val (script [inr Sample.forbidden]) =
    (Some (Some Sample.forbidden),
     fetched Sample.key (script [inr Sample.forbidden])) /\
  (exists obj,
      deploy val (script [inl (Sample.existing 5 "myetcd-peer" 3)]) =
        (Some None,
         logged (CallPatch obj (Sample.existing 5 "myetcd-peer" 3))
           (fetched Sample.key (script [inl (Sample.existing 5 "myetcd-peer" 3)])))).
Proof.
  intros val script. split; [|split].
  - destruct (create_or_patch Sample.StorageProviderFromInfraProvider
      Sample.defaultServerPort Sample.defaultClientPort Sample.defaultBackupPort
      Sample.defaultStorageCapacity Sample.defaultLocalPrefix Sample.GroupVersion val (script []))
      as (Hcreate & _ & _).
    destruct (Hcreate Sample.notFound eq_refl eq_refl) as (Hgen & Hrun).
    destruct (compose val (emptyStatefulset val)) as [obj|] eqn:Hobj;
      [|vm_compute in Hobj; discriminate].
    exists obj. split; [exact Hrun|exact Hgen].
  - destruct (create_or_patch Sample.StorageProviderFromInfraProvider
      Sample.defaultServerPort Sample.defaultClientPort Sample.defaultBackupPort
      Sample.defaultStorageCapacity Sample.defaultLocalPrefix Sample.GroupVersion val (script [inr Sample.forbidden]))
      as (_ & Herror & _).
    exact (Herror Sample.forbidden eq_refl eq_refl).
  - destruct (create_or_patch Sample.StorageProviderFromInfraProvider
      Sample.defaultServerPort Sample.defaultClientPort Sample.defaultBackupPort
      Sample.defaultStorageCapacity Sample.defaultLocalPrefix Sample.GroupVersion val
                (script [inl (Sample.existing 5 "myetcd-peer" 3)]))
      as (_ & _ & Hpatch).
    specialize (Hpatch (Sample.existing 5 "myetcd-peer" 3) eq_refl eq_refl eq_refl).
    cbv zeta in Hpatch.
    destruct (compose val _) as [obj|] eqn:Hobj;
      [|vm_compute in Hobj; discriminate].
    exists obj. exact Hpatch.
Defined.

(** A single-member cluster scaled to three members, its object still
    named after the client service: the object is deleted, it is present at
    the first tick of the teardown wait and gone at the second, and then
    the replacement is created, 5 seconds after the call began. *)
Lemma destructive_recreate_witness :
  let val := Sample.values 3 1 ∅ None in
  let old := Sample.existing 5 "myetcd-client" 1 in
  let w := Sample.start
             (Sample.script [inl old; inl old] (inr Sample.notFound) None
                (inl []) (fun _ => inl "")) in
  exists obj,
    compose val (emptyStatefulset val) = Some obj /\
    fst (deploy val w) = Some None /\
    calls (snd (deploy val w)) =
      [CallGet Sample.key; CallDelete Sample.key;
       CallGet Sample.key; CallGet Sample.key; CallCreate obj] /\
    now (snd (deploy val w)) = 5 * Second.
Proof.
  intros val old w.
  destruct (destructive_recreate Sample.StorageProviderFromInfraProvider
              Sample.CheckStatefulSet
              Sample.defaultServerPort Sample.defaultClientPort
              Sample.defaultBackupPort Sample.defaultStorageCapacity
              Sample.defaultLocalPrefix Sample.GroupVersion
              val w old eq_refl eq_refl) as (_ & Hwait).
  destruct (Hwait eq_refl) as (Hgone & _).
  destruct (Hgone 1%nat) as (Hrun & Hn & Hc).
  - lia.
  - intros [|j] Hj; [reflexivity|lia].
  - reflexivity.
  - destruct (compose val (emptyStatefulset val)) as [obj|] eqn:Hobj;
      [|vm_compute in Hobj; discriminate].
    exists obj. split; [reflexivity|].
    rewrite Hrun. cbn [fst snd calls now logged]. rewrite Hn, Hc.
    repeat split.
Defined.

(** The same call when the delete is refused: the error is returned and
    nothing is created or patched. *)
Example destructive_recreate_stops_on_a_failed_delete :
  let val := Sample.values 3 1 ∅ None in
  let old := Sample.existing 5 "myetcd-client" 1 in
  let w := Sample.start
             (Sample.script [inl old] (inr Sample.notFound)
                (Some Sample.forbidden) (inl []) (fun _ => inl "")) in
  fst (deploy val w) = Some (Some Sample.forbidden) /\
  calls (snd (deploy val w)) = [CallGet Sample.key; CallDelete Sample.key].
Proof. vm_compute. repeat split. Qed.

(** The same call when the object never goes away: it returns the deadline
    error, 90 seconds after it began, and nothing is created or patched. *)
Example destructive_recreate_blocks_until_the_deadline :
  let val := Sample.values 3 1 ∅ None in
  let old := Sample.existing 5 "myetcd-client" 1 in
  let w := Sample.start
             (Sample.script [] (inl old) None (inl []) (fun _ => inl "")) in
  fst (deploy val w) = Some (Some (retryError DeadlineExceeded None)) /\
  now (snd (deploy val w)) = 90 * Second /\
  existsb isCreate (calls (snd (deploy val w))) = false /\
  existsb isPatch (calls (snd (deploy val w))) = false.
Proof. vm_compute. repeat split. Qed.

(** Generation 5, three desired replicas, one last observed, and a service
    name to change: delete, then create. Generation 5, three desired
    replicas and three last observed: patch. *)
Lemma topology_migration_witness :
  let old := Sample.existing 5 "myetcd-client" 1 in
  let script := Sample.start
                  (Sample.script [inl old] (inr Sample.notFound) None
                     (inl []) (fun _ => inl "")) in
  (exists obj,
      deploy (Sample.values 3 1 ∅ None) script =
        (Some None,
         logged (CallCreate obj)
           (fetched Sample.key
              (logged (CallDelete Sample.key) (fetched Sample.key script))))) /\
  (exists obj,
      deploy (Sample.values 3 3 ∅ None) script =
        (Some None, logged (CallPatch obj old) (fetched Sample.key script))).
Proof.
  intros old script. split.
  - set (val := Sample.values 3 1 ∅ None).
    destruct (topology_migration Sample.StorageProviderFromInfraProvider
                Sample.defaultServerPort Sample.defaultClientPort
                Sample.defaultBackupPort Sample.defaultStorageCapacity
                Sample.defaultLocalPrefix Sample.GroupVersion
                val script old eq_refl eq_refl) as (Hmigrate & _).
    destruct Hmigrate as (_ & Hcreate);
      [vm_compute; discriminate | reflexivity | right; reflexivity |].
    destruct (compose val (emptyStatefulset val)) as [obj|] eqn:Hobj;
      [|vm_compute in Hobj; discriminate].
    exists obj.
    exact (Hcreate
             (fetched Sample.key
                (logged (CallDelete Sample.key) (fetched Sample.key script)))
             obj eq_refl eq_refl).
  - set (val := Sample.values 3 3 ∅ None).
    destruct (topology_migration Sample.StorageProviderFromInfraProvider
                Sample.defaultServerPort Sample.defaultClientPort
                Sample.defaultBackupPort Sample.defaultStorageCapacity
                Sample.defaultLocalPrefix Sample.GroupVersion
                val script old eq_refl eq_refl) as (_ & Hpatch).
    specialize (Hpatch (or_introl eq_refl)). cbv zeta in Hpatch.
    destruct (compose val _) as [obj|] eqn:Hobj;
      [|vm_compute in Hobj; discriminate].
    exists obj. exact Hpatch.
Defined.

(** The rule as the spec states it fails when the fetched object already
    has the desired service name: generation 5, three desired replicas and
    one last observed, and yet the object is patched and not deleted. *)
Lemma migration_needs_a_service_name_to_change :
  let val := Sample.values 3 1 ∅ None in
  let old := Sample.existing 5 "myetcd-peer" 1 in
  let w := Sample.start
             (Sample.script [inl old] (inr Sample.notFound) None
                (inl []) (fun _ => inl "")) in
  getResult (platform w) (fetches w) = inl old /\
  1 < om_Generation (sts_ObjectMeta old) /\
  1 < Replicas val /\
  StatusReplicas val = 1 /\
  ss_ServiceName (sts_Spec old) = ServiceName val /\
  fst (deploy val w) = Some None /\
  map isGet (calls (snd (deploy val w))) = [true; false] /\
  map isPatch (calls (snd (deploy val w))) = [false; true] /\
  existsb isDelete (calls (snd (deploy val w))) = false /\
  existsb isCreate (calls (snd (deploy val w))) = false.
Proof. vm_compute. repeat split. Qed.

(** ** More runs on the sample instantiation *)

(** The teardown wait on an object that is gone at the third fetch: it
    succeeded, so the first two fetches found the object and the third
    did not. *)
Lemma WaitCleanup_succeeds_only_when_absent_witness :
  let val := Sample.values 3 3 ∅ None in
  let present := inl (Sample.existing 2 "myetcd-peer" 3) in
  let w := Sample.start
             (Sample.script [present; present] (inr Sample.notFound) None
                (inl []) (fun _ => inl "")) in
  fst (WaitCleanup val w) = Some None /\
  exists k,
    (k <= 17)%nat /\
    snd (WaitCleanup val w) =
      fetched Sample.key (polled Sample.key defaultInterval k w) /\
    absentFetch (getResult (platform w) (fetches w + k)) = true /\
    forall j, (j < k)%nat ->
      presentFetch (getResult (platform w) (fetches w + j)) = true.
Proof.
  intros val present w.
  assert (Hrun : fst (WaitCleanup val w) = Some None) by (vm_compute; reflexivity).
  split; [exact Hrun|].
  apply (WaitCleanup_succeeds_only_when_absent val w (snd (WaitCleanup val w))).
  destruct (WaitCleanup val w) as [r w']. cbn [fst snd] in *.
  rewrite Hrun. reflexivity.
Defined.

(** The convergence wait on an object that is ready at the second fetch. *)
Lemma Wait_succeeds_only_when_ready_witness :
  let val := Sample.values 3 3 ∅ None in
  let w := Sample.start
             (Sample.script
                [inr Sample.notFound; inl (Sample.existing 1 "myetcd-peer" 3)]
                (inr Sample.forbidden) None (inl []) (fun _ => inl "")) in
  fst (wait val w) = Some None /\
  exists k,
    (k <= 17)%nat /\
    snd (wait val w) =
      fetched Sample.key (polled Sample.key defaultInterval k w) /\
    readyFetch Sample.CheckStatefulSet val
      (getResult (platform w) (fetches w + k)) = true /\
    forall j, (j < k)%nat ->
      minorFetch Sample.CheckStatefulSet val
        (getResult (platform w) (fetches w + j)) = true.
Proof.
  intros val w.
  assert (Hrun : fst (wait val w) = Some None) by (vm_compute; reflexivity).
  split; [exact Hrun|].
  apply (Wait_succeeds_only_when_ready Sample.CheckStatefulSet val w
           (snd (wait val w))).
  destruct (wait val w) as [r w']. cbn [fst snd] in *.
  rewrite Hrun. reflexivity.
Defined.

(** Three pending claims of the template, the event query of the second
    failing: the listing and the first two queries are made, the first
    answered, the third claim is not asked about, no message is returned,
    and the error is the one of the second query. *)
Lemma event_queries_stop_at_the_first_failure_witness :
  let ss := Sample.existing 1 "myetcd-peer" 2 in
  let claim0 := Sample.claim "data-myetcd-0" "Pending" in
  let claim1 := Sample.claim "data-myetcd-1" "Pending" in
  let claim2 := Sample.claim "data-myetcd-2" "Pending" in
  let w := Sample.start
             (Sample.script [] (inl ss) None (inl [claim0; claim1; claim2])
                (fun pvc =>
                   if String.eqb (om_Name (pvc_ObjectMeta pvc)) "data-myetcd-1"
                   then inr Sample.forbidden else inl "provisioning")) in
  fst (fetchPVCEventsFor ss w) = Some ("", Some Sample.forbidden) /\
  exists before pvc,
    calls (snd (fetchPVCEventsFor ss w)) =
      CallList "shoot" :: map eventQuery before ++ [eventQuery pvc] /\
    before = [claim0] /\ pvc = claim1 /\
    forallb (answered (platform w)) before = true /\
    eventMessages (platform w) pvc EventTypeWarning 2 = inr Sample.forbidden.
Proof.
  intros ss claim0 claim1 claim2 w.
  assert (Hfst : fst (fetchPVCEventsFor ss w) = Some ("", Some Sample.forbidden))
    by (vm_compute; reflexivity).
  assert (Hcalls : calls (snd (fetchPVCEventsFor ss w)) =
                     [CallList "shoot"; eventQuery claim0; eventQuery claim1])
    by (vm_compute; reflexivity).
  split; [exact Hfst|].
  destruct (event_queries_stop_at_the_first_failure ss w
              [claim0; claim1; claim2] eq_refl)
    as (messages & err2 & w' & evs & rest & Hrun & Hc & _ & _ & Herr).
  rewrite Hrun in Hfst, Hcalls. cbn [fst snd] in Hfst, Hcalls.
  injection Hfst as -> ->.
  destruct (Herr Sample.forbidden eq_refl) as (_ & before & pvc & Hevs & Hall & Hq).
  rewrite Hc in Hcalls. injection Hcalls as Hevs'.
  rewrite Hevs in Hevs'.
  assert (Hpin : before = [claim0] /\ pvc = claim1).
  { destruct before as [|b [|b' before]]; simpl in Hevs'.
    - discriminate.
    - injection Hevs' as -> ->. split; reflexivity.
    - injection Hevs' as _ _ Hnil. destruct before; discriminate. }
  destruct Hpin as (-> & ->).
  exists [claim0], claim1. rewrite Hrun. cbn [snd]. rewrite Hc, Hevs.
  split; [reflexivity|]. split; [reflexivity|]. split; [reflexivity|].
  split; [exact Hall|exact Hq].
Defined.

(** Two pending claims and a bound one, every query answering: the
    messages are the warnings of the two pending claims, in the order of
    the listing. *)
Lemma collected_messages_witness :
  let ss := Sample.existing 1 "myetcd-peer" 2 in
  let items := [Sample.claim "data-myetcd-0" "Pending";
                Sample.claim "data-myetcd-1" "Bound";
                Sample.claim "data-myetcd-2" "Pending"] in
  let w := Sample.start
             (Sample.script [] (inl ss) None (inl items)
                (fun _ => inl "provisioning")) in
  exists messages,
    fst (fetchPVCEventsFor ss w) = Some (messages, None) /\
    messages = "Warning for PVC data-myetcd-0:" +:+ nl +:+ "provisioning" +:+ nl +:+
               "Warning for PVC data-myetcd-2:" +:+ nl +:+ "provisioning" +:+ nl /\
    calls (snd (fetchPVCEventsFor ss w)) =
      [CallList "shoot";
       eventQuery (Sample.claim "data-myetcd-0" "Pending");
       eventQuery (Sample.claim "data-myetcd-2" "Pending")].
Proof.
  intros ss items w.
  set (messages := "Warning for PVC data-myetcd-0:" +:+ nl +:+ "provisioning" +:+ nl +:+
                   "Warning for PVC data-myetcd-2:" +:+ nl +:+ "provisioning" +:+ nl).
  assert (Hrun : fst (fetchPVCEventsFor ss w) = Some (messages, None))
    by (vm_compute; reflexivity).
  exists messages. split; [exact Hrun|]. split; [reflexivity|].
  destruct (collected_messages ss w (snd (fetchPVCEventsFor ss w)) messages)
    as (items' & Hitems & Hcalls & _).
  - destruct (fetchPVCEventsFor ss w) as [r w']. cbn [fst snd] in *.
    rewrite Hrun. reflexivity.
  - injection Hitems as <-. rewrite Hcalls. reflexivity.
Defined.

(** An object that stays short of a ready replica: the polling ends at
    the deadline, 90 seconds after it began, with the error of the
    readiness check of the last fetch. *)
Lemma timeout_reports_the_last_minor_error_witness :
  let val := Sample.values 3 3 ∅ None in
  let w := Sample.start
             (Sample.script [] (inl (Sample.existing 1 "myetcd-peer" 2)) None
                (inl []) (fun _ => inl "")) in
  exists sts w',
    poll val w =
      (Some (sts, Some (retryError DeadlineExceeded
                          (Some (errorString "not enough ready replicas")))), w') /\
    now w' = 90 * Second.
Proof.
  intros val w.
  destruct (timeout_reports_the_last_minor_error Sample.CheckStatefulSet val w)
    as (sts & e & w' & Hrun & Hlast & Hnow).
  - intros [|j] _; reflexivity.
  - exists sts, w'. vm_compute in Hlast. injection Hlast as <-.
    split; [exact Hrun|exact Hnow].
Defined.

(** A [Deploy] on an object of generation 5 with another service name,
    at 3 desired and 3 last-observed replicas: one fetch and one patch. *)
Lemma Deploy_without_migration_witness :
  let val := Sample.values 3 3 ∅ None in
  let found := Sample.existing 5 "myetcd-old" 3 in
  let w := Sample.start
             (Sample.script [] (inl found) None (inl []) (fun _ => inl "")) in
  fst (deploy val w) = Some None /\
  map isPatch (calls (snd (deploy val w))) = [false; true] /\
  existsb isDelete (calls (snd (deploy val w))) = false.
Proof.
  intros val found w.
  rewrite (Deploy_without_migration Sample.StorageProviderFromInfraProvider
             Sample.defaultServerPort Sample.defaultClientPort
             Sample.defaultBackupPort Sample.defaultStorageCapacity
             Sample.defaultLocalPrefix Sample.GroupVersion val w found eq_refl).
  - vm_compute. repeat split.
  - right. right. split; discriminate.
Defined.

(** A [Deploy] on the object an earlier [Deploy] of the same snapshot
    created, now at generation 5, with 3 desired replicas of which 1 was
    last observed: one fetch and one patch of the same specification. *)
Lemma redeploy_patches_witness :
  let val := Sample.values 3 1 ∅ None in
  exists obj found w,
    compose val (emptyStatefulset val) = Some obj /\
    getResult (platform w) (fetches w) = inl found /\
    sts_Spec found = sts_Spec obj /\
    om_Generation (sts_ObjectMeta found) = 5 /\
    clusterScaledUpToMultiNode val = true /\
    fst (deploy val w) = Some None /\
    map isPatch (calls (snd (deploy val w))) = [false; true].
Proof.
  intros val.
  destruct (compose val (emptyStatefulset val)) as [obj|] eqn:H;
    [|vm_compute in H; discriminate].
  set (found := {| sts_ObjectMeta :=
                     sts_ObjectMeta (Sample.existing 5 "myetcd-peer" 3);
                   sts_Spec := sts_Spec obj;
                   sts_Status := sts_Status (Sample.existing 5 "myetcd-peer" 3) |}).
  set (w := Sample.start
              (Sample.script [] (inl found) None (inl []) (fun _ => inl ""))).
  exists obj, found, w.
  do 5 (split; [reflexivity|]).
  destruct (redeploy_patches Sample.StorageProviderFromInfraProvider
              Sample.defaultServerPort Sample.defaultClientPort
              Sample.defaultBackupPort Sample.defaultStorageCapacity
              Sample.defaultLocalPrefix Sample.GroupVersion
              val w (emptyStatefulset val) obj found H eq_refl eq_refl)
    as (obj' & _ & _ & Hrun).
  - reflexivity.
  - rewrite Hrun. split; reflexivity.
Defined.

(** A [Deploy] on the migration path, the object gone at the second fetch
    of the teardown wait: five calls. *)
Lemma Deploy_is_bounded_witness :
  let val := Sample.values 3 1 ∅ None in
  let present := inl (Sample.existing 5 "myetcd-old" 1) in
  let w := Sample.start
             (Sample.script [present; present] (inr Sample.notFound) None
                (inl []) (fun _ => inl "")) in
  exists new,
    calls (snd (deploy val w)) = new /\
    (length new <= 21)%nat /\
    map (fun c => (isGet c, isDelete c, isCreate c)) new =
      [ (true, false, false); (false, true, false); (true, false, false);
        (true, false, false); (false, false, true) ].
Proof.
  intros val present w.
  destruct (Deploy_is_bounded Sample.StorageProviderFromInfraProvider
              Sample.defaultServerPort Sample.defaultClientPort
              Sample.defaultBackupPort Sample.defaultStorageCapacity
              Sample.defaultLocalPrefix Sample.GroupVersion val w)
    as (new & Hc & Hlen & _).
  exists new. split; [exact Hc|]. split; [exact Hlen|].
  change (calls w ++ new) with new in Hc. rewrite <- Hc.
  vm_compute. reflexivity.
Defined.

(** A [Destroy] of an object that is not there succeeds. *)
Lemma Destroy_ignores_absence_witness :
  let val := Sample.values 3 3 ∅ None in
  let w := Sample.start
             (Sample.script [] (inr Sample.notFound) (Some Sample.notFound)
                (inl []) (fun _ => inl "")) in
  fst (Destroy val w) = Some None /\
  calls (snd (Destroy val w)) = [CallDelete Sample.key].
Proof.
  intros val w.
  destruct (Destroy_ignores_absence val w) as (r & H1 & _ & Hiff & _).
  assert (Hr : r = None) by (apply Hiff; right; reflexivity).
  rewrite H1. cbn [fst snd]. rewrite Hr. split; reflexivity.
Defined.

(** The snapshot with an S3 store: the backup-restore container mounts
    the data volume, the configuration and the store's secret; the last
    two are the volumes of the pod. *)
Lemma sidecar_mounts_every_volume_witness :
  let val := Sample.values 3 3 ∅ (Some (Sample.store "S3" (Some "bucket"))) in
  exists obj etcd sidecar,
    compose val (emptyStatefulset val) = Some obj /\
    containersOf obj = [etcd; sidecar] /\
    map vm_Name (c_VolumeMounts sidecar) =
      ["data"; "etcd-config-file"; "etcd-backup"] /\
    map vol_Name (ps_Volumes (pts_Spec (ss_Template (sts_Spec obj)))) =
      ["etcd-config-file"; "etcd-backup"].
Proof.
  intros val.
  destruct (compose val (emptyStatefulset val)) as [obj|] eqn:H;
    [|vm_compute in H; discriminate].
  destruct (sidecar_mounts_every_volume Sample.StorageProviderFromInfraProvider
              Sample.defaultServerPort Sample.defaultClientPort
              Sample.defaultBackupPort Sample.defaultStorageCapacity
              Sample.defaultLocalPrefix Sample.GroupVersion
              val (emptyStatefulset val) obj H)
    as (etcd & sidecar & Hc & Hm & _).
  exists obj, etcd, sidecar. split; [reflexivity|]. split; [exact Hc|].
  rewrite Hm. clear Hc Hm.
  vm_compute in H. injection H as <-. split; reflexivity.
Defined.

(** With the user label [team] the selector selects the pods; with the
    user label [name] set to [custom] it does not. *)
Lemma selector_selects_the_template_witness :
  let val := Sample.values 3 3 {[ "team" := "storage" ]} None in
  let val' := Sample.values 3 3 {[ "name" := "custom" ]} None in
  exists obj obj',
    compose val (emptyStatefulset val) = Some obj /\
    compose val' (emptyStatefulset val') = Some obj' /\
    (forall k v,
        getCommonLabels val !! k = Some v ->
        om_Labels (pts_ObjectMeta (ss_Template (sts_Spec obj))) !! k = Some v) /\
    ~ (forall k v,
        getCommonLabels val' !! k = Some v ->
        om_Labels (pts_ObjectMeta (ss_Template (sts_Spec obj'))) !! k = Some v).
Proof.
  intros val val'.
  destruct (compose val (emptyStatefulset val)) as [obj|] eqn:H;
    [|vm_compute in H; discriminate].
  destruct (compose val' (emptyStatefulset val')) as [obj'|] eqn:H';
    [|vm_compute in H'; discriminate].
  exists obj, obj'. split; [reflexivity|]. split; [reflexivity|].
  destruct (selector_selects_the_template Sample.StorageProviderFromInfraProvider
              Sample.defaultServerPort Sample.defaultClientPort
              Sample.defaultBackupPort Sample.defaultStorageCapacity
              Sample.defaultLocalPrefix Sample.GroupVersion
              val (emptyStatefulset val) obj H) as (_ & Hiff).
  destruct (selector_selects_the_template Sample.StorageProviderFromInfraProvider
              Sample.defaultServerPort Sample.defaultClientPort
              Sample.defaultBackupPort Sample.defaultStorageCapacity
              Sample.defaultLocalPrefix Sample.GroupVersion
              val' (emptyStatefulset val') obj' H') as (_ & Hiff').
  split.
  - apply Hiff. split; intros v Hv; vm_compute in Hv; discriminate.
  - intros Hall. apply Hiff' in Hall as (Hname & _).
    specialize (Hname "custom" eq_refl). discriminate.
Defined.

(** The sample snapshot, without a backup port and without backup TLS:
    the endpoint is [http://myetcd-local:8080]. *)
Lemma etcd_is_told_where_the_sidecar_listens_witness :
  let val := Sample.values 3 3 ∅ None in
  exists obj etcd sidecar,
    compose val (emptyStatefulset val) = Some obj /\
    containersOf obj = [etcd; sidecar] /\
    ps_HostAliases (pts_Spec (ss_Template (sts_Spec obj))) =
      [ {| ha_IP := "127.0.0.1"; ha_Hostnames := ["myetcd-local"] |} ] /\
    map port_ContainerPort (c_Ports sidecar) = [8080] /\
    c_Env etcd =
      [ {| env_Name := "ENABLE_TLS"; env_Value := "false";
           env_ValueFrom := None |};
        {| env_Name := "BACKUP_ENDPOINT";
           env_Value := "http://myetcd-local:8080";
           env_ValueFrom := None |};
        {| env_Name := "FAIL_BELOW_REVISION_PARAMETER"; env_Value := "";
           env_ValueFrom := None |} ].
Proof.
  intros val.
  destruct (compose val (emptyStatefulset val)) as [obj|] eqn:H;
    [|vm_compute in H; discriminate].
  destruct (etcd_is_told_where_the_sidecar_listens
              Sample.StorageProviderFromInfraProvider
              Sample.defaultServerPort Sample.defaultClientPort
              Sample.defaultBackupPort Sample.defaultStorageCapacity
              Sample.defaultLocalPrefix Sample.GroupVersion
              val (emptyStatefulset val) obj H)
    as (etcd & sidecar & Hc & Hh & Hp & He).
  exists obj, etcd, sidecar. split; [reflexivity|]. split; [exact Hc|].
  split; [exact Hh|]. split; [exact Hp|]. rewrite He. vm_compute. reflexivity.
Defined.

(** A store of a provider the resolver does not know: no volume, no
    mount and no credentials are added, and the container name is still
    passed on. *)
Lemma unresolved_provider_is_ignored_witness :
  let store := Sample.store "Ceph" (Some "bucket") in
  let val := Sample.values 3 3 ∅ (Some store) in
  notNil (snd (Sample.StorageProviderFromInfraProvider (Provider store))) = true /\
  map vol_Name
    (default [] (getVolumes Sample.StorageProviderFromInfraProvider
                   Sample.defaultLocalPrefix val)) = ["etcd-config-file"] /\
  map vm_Name
    (getBackupRestoreVolumeMounts Sample.StorageProviderFromInfraProvider val) =
    ["data"; "etcd-config-file"] /\
  getBackupRestoreEnvVars Sample.StorageProviderFromInfraProvider val =
    [ {| env_Name := "STORAGE_CONTAINER"; env_Value := "bucket";
         env_ValueFrom := None |};
      {| env_Name := "POD_NAME"; env_Value := "";
         env_ValueFrom :=
           Some {| evs_FieldRef := Some {| ofs_FieldPath := "metadata.name" |};
                   evs_SecretKeyRef := None |} |};
      {| env_Name := "POD_NAMESPACE"; env_Value := "";
         env_ValueFrom :=
           Some {| evs_FieldRef :=
                     Some {| ofs_FieldPath := "metadata.namespace" |};
                   evs_SecretKeyRef := None |} |} ].
Proof.
  intros store val.
  destruct (unresolved_provider_is_ignored Sample.StorageProviderFromInfraProvider
              Sample.defaultLocalPrefix val store eq_refl)
    as (_ & Hv & Hm & He).
  - left. vm_compute. discriminate.
  - split; [reflexivity|]. rewrite Hv, Hm. split; [reflexivity|].
    split; [reflexivity|exact He].
Defined.

(** A local store with the container [bucket]. *)
Lemma local_store_is_a_host_directory_witness :
  let store := Sample.store "Local" (Some "bucket") in
  let val := Sample.values 3 3 ∅ (Some store) in
  exists vs,
    getVolumes Sample.StorageProviderFromInfraProvider Sample.defaultLocalPrefix val =
      Some vs /\
    map vol_Name vs = ["etcd-config-file"; "host-storage"] /\
    map (fun v => option_map hp_Path (vs_HostPath (vol_VolumeSource v))) vs =
      [None; Some "/etc/gardener/local-backupbuckets/bucket"] /\
    getBackupRestoreVolumeMounts Sample.StorageProviderFromInfraProvider val =
      getBackupRestoreVolumeMounts Sample.StorageProviderFromInfraProvider
        (withBackupStore val None) ++
      [ {| vm_Name := "host-storage"; vm_MountPath := "bucket" |} ] /\
    getBackupRestoreEnvVars Sample.StorageProviderFromInfraProvider val =
      commonBackupRestoreEnvVars "bucket".
Proof.
  intros store val.
  destruct (local_store_is_a_host_directory Sample.StorageProviderFromInfraProvider
              Sample.defaultLocalPrefix val store "bucket"
              eq_refl eq_refl eq_refl)
    as ((base & Hbase & Hv) & Hm & He).
  vm_compute in Hbase. injection Hbase as <-.
  eexists. split; [exact Hv|]. split; [reflexivity|].
  split; [reflexivity|]. split; [exact Hm|exact He].
Defined.
